(** * RGW multi-zone data sync: a shallow embedding of rgw_data_sync.cc

The development follows src/rgw/rgw_data_sync.cc.  Every coroutine of
that file is a resumable [operate()] method written with the
[reenter]/[yield] macros; here an [operate()] body becomes a program in
a small state-and-exit monad whose state holds the coroutine's
[retcode] and the trace of the operations it has issued.  The statuses
that the environment delivers when a coroutine is resumed are explicit
arguments, so every definition can be evaluated on concrete inputs. *)

From Stdlib Require Import ZArith List String Ascii Bool Lia DecimalString.
From Stdlib Require DecimalZ DecimalPos Sorted.
From stdpp Require Import base gmap strings list.

Local Open Scope string_scope.
Local Open Scope Z_scope.

(** ** errno values used by the file (asm-generic/errno-base.h) *)

Definition ENOENT : Z := 2.
Definition EIO : Z := 5.
Definition EINVAL : Z := 22.

(** ** The coroutine monad *)

(** How an [operate()] run ends: [set_cr_done()], [set_cr_error(code)]
    (or [set_state(RGWCoroutine_Error)], which keeps the error without a
    code of its own), a plain [return r] that leaves the coroutine state
    untouched, and [cr_suspended] for a coroutine that is parked at a yield
    because the environment has delivered no further statuses. *)
Inductive cr_exit : Type :=
| cr_done
| cr_error (code : Z)
| cr_state_error
| cr_return (r : Z)
| cr_suspended.

Module CR.
Section Monad.
Context {S E : Type}.

(** [retcode] is the member of RGWCoroutine that receives the status of a
    callee once the caller is resumed; [trace] lists the issued
    operations, oldest first; [self] holds the members of the coroutine
    object. *)
Record ctx : Type := Ctx { retcode : Z; trace : list E; self : S }.

Definition t (A : Type) : Type := ctx -> (A + cr_exit) * ctx.

Definition ret {A} (a : A) : t A := fun c => (inl a, c).

Definition bind {A B} (m : t A) (k : A -> t B) : t B :=
  fun c => match m c with
           | (inl a, c') => k a c'
           | (inr e, c') => (inr e, c')
           end.

Definition exit {A} (e : cr_exit) : t A := fun c => (inr e, c).

Definition emit (e : E) : t unit :=
  fun c => (inl tt, Ctx (retcode c) (trace c ++ [e]) (self c)).

Definition get : t S := fun c => (inl (self c), c).
Definition put (s : S) : t unit :=
  fun c => (inl tt, Ctx (retcode c) (trace c) s).
Definition modify (f : S -> S) : t unit :=
  fun c => (inl tt, Ctx (retcode c) (trace c) (f (self c))).

(** Modelled from the spec: the coroutine runtime (rgw_coroutine.h) is not
    part of the file.  [call(op)] pushes the callee on the coroutine stack
    and returns 0; the callee only runs after the caller has yielded, so a
    test of [retcode] that follows [call] inside the same [yield] block
    still reads the status of the previous callee. *)
Definition call (e : E) : t Z :=
  bind (emit e) (fun _ => ret 0).

(** Modelled from the spec: [spawn(op, wait)] starts a child on a stack of
    its own; the parent's [retcode] is left as it is. *)
Definition spawn (e : E) : t unit := emit e.

Definition get_retcode : t Z := fun c => (inl (retcode c), c).

(** Modelled from the spec: the end of a [yield] block in which a callee
    was pushed.  The coroutine is resumed when the callee has completed,
    with the callee's status in [retcode]. *)
Definition resume (status : Z) : t unit :=
  fun c => (inl tt, Ctx status (trace c) (self c)).

Definition set_cr_error {A} (code : Z) : t A := exit (cr_error code).
Definition set_cr_done {A} : t A := exit cr_done.

(** [for (it = l.begin(); it != l.end(); ++it) body] *)
Fixpoint for_each {A} (l : list A) (body : A -> t unit) : t unit :=
  match l with
  | [] => ret tt
  | a :: l' => bind (body a) (fun _ => for_each l' body)
  end.

(** A fresh coroutine has [retcode = 0] and has issued nothing. *)
Definition init (s : S) : ctx := Ctx 0 [] s.

(** Running an [operate()] body to its exit. Falling off the end of the
    [reenter] block is [return 0]. *)
Definition run (m : t unit) (s : S) : cr_exit * list E * S :=
  match m (init s) with
  | (inl _, c) => (cr_return 0, trace c, self c)
  | (inr e, c) => (e, trace c, self c)
  end.
End Monad.
Arguments ctx : clear implicits.
Arguments t : clear implicits.
End CR.

Declare Scope cr_scope.
Delimit Scope cr_scope with cr.
Notation "x <- m ;; k" := (CR.bind m (fun x => k))
  (at level 100, m at next level, right associativity) : cr_scope.
Notation "m ;;; k" := (CR.bind m (fun _ => k))
  (at level 100, right associativity) : cr_scope.
Local Open Scope cr_scope.

(** [snprintf("%d")] of an [int]. *)
Definition dec (z : Z) : string := NilZero.string_of_int (Z.to_int z).

(** ** The marker tracker of a datalog shard *)

Module MarkerTrack.

(** [RGWDataSyncShardMarkerTrack]: the two indexes and the retry set of the
    class, and [pending] of its base class. *)
Record RGWDataSyncShardMarkerTrack : Type := Tracker {
  pending : gmap string (Z * Z);
  key_to_marker : gmap string string;
  marker_to_key : gmap string string;
  need_retry_set : gset string
}.

Definition empty : RGWDataSyncShardMarkerTrack := Tracker ∅ ∅ ∅ ∅.

(** Modelled from the spec: [RGWSyncShardMarkerTrack<T>::start] lives in
    rgw_sync.h; the spec has it register [marker] as in-flight. *)
Definition start (marker : string) (index_pos timestamp : Z)
    (mt : RGWDataSyncShardMarkerTrack) : RGWDataSyncShardMarkerTrack :=
  Tracker (<[marker := (index_pos, timestamp)]> (pending mt))
          (key_to_marker mt) (marker_to_key mt) (need_retry_set mt).

Definition handle_finish (marker : string)
    (mt : RGWDataSyncShardMarkerTrack) : RGWDataSyncShardMarkerTrack :=
  match marker_to_key mt !! marker with
  | None => mt
  | Some k =>
      Tracker (pending mt)
              (delete k (key_to_marker mt))
              (delete marker (marker_to_key mt))
              (need_retry_set mt ∖ {[marker]})
  end.

(** Modelled from the spec: [RGWSyncShardMarkerTrack<T>::finish] lives in
    rgw_sync.h; it takes [marker] out of the in-flight set and runs the
    [handle_finish] hook. *)
Definition finish (marker : string)
    (mt : RGWDataSyncShardMarkerTrack) : RGWDataSyncShardMarkerTrack :=
  handle_finish marker
    (Tracker (delete marker (pending mt))
             (key_to_marker mt) (marker_to_key mt) (need_retry_set mt)).

Definition index_key_to_marker (key marker : string)
    (mt : RGWDataSyncShardMarkerTrack) : bool * RGWDataSyncShardMarkerTrack :=
  match key_to_marker mt !! key with
  | Some _ =>
      (false, Tracker (pending mt) (key_to_marker mt) (marker_to_key mt)
                      (need_retry_set mt ∪ {[key]}))
  | None =>
      (true, Tracker (pending mt)
                     (<[key := marker]> (key_to_marker mt))
                     (<[marker := key]> (marker_to_key mt))
                     (need_retry_set mt))
  end.

Definition need_retry (key : string) (mt : RGWDataSyncShardMarkerTrack) : bool :=
  bool_decide (key ∈ need_retry_set mt).

Definition reset_need_retry (key : string)
    (mt : RGWDataSyncShardMarkerTrack) : RGWDataSyncShardMarkerTrack :=
  Tracker (pending mt) (key_to_marker mt) (marker_to_key mt)
          (need_retry_set mt ∖ {[key]}).

End MarkerTrack.

(** ** Sync status records (rgw_data_sync.h) *)

Inductive data_sync_state : Type := StateInit | StateBuildingFullSyncMaps | StateSync.

Record rgw_data_sync_info : Type := DataSyncInfo {
  dsi_state : data_sync_state;
  dsi_num_shards : Z
}.

Inductive shard_sync_state : Type := FullSync | IncrementalSync.

Record rgw_data_sync_marker : Type := DataSyncMarker {
  dsm_state : shard_sync_state;
  dsm_marker : string;
  dsm_next_step_marker : string;
  dsm_total_entries : Z;
  dsm_pos : Z;
  dsm_timestamp : Z
}.

(** The default-constructed marker. *)
Definition rgw_data_sync_marker_default : rgw_data_sync_marker :=
  DataSyncMarker FullSync "" "" 0 0 0.

Record RGWDataChangesLogInfo : Type := LogInfo {
  li_marker : string;
  li_last_update : Z
}.

Record rgw_data_change_log_entry : Type := LogEntry {
  log_id : string;
  log_timestamp : Z;
  entry_key : string
}.

Definition datalog_sync_status_oid_prefix : string := "datalog.sync-status".
Definition datalog_sync_status_shard_prefix : string := "datalog.sync-status.shard".
Definition datalog_sync_full_sync_index_prefix : string := "data.full-sync.index".
Definition bucket_status_oid_prefix : string := "bucket.sync-status".

(** [snprintf(buf, size, ...)] keeps at most [size - 1] characters. *)
Definition snprintf (size : nat) (out : string) : string :=
  substring 0 (size - 1) out.

Module RGWDataSyncStatusManager.
Definition sync_status_oid (source_zone : string) : string :=
  snprintf (String.length datalog_sync_status_oid_prefix + String.length source_zone + 16)
           (datalog_sync_status_oid_prefix +:+ "." +:+ source_zone).

Definition shard_obj_name (source_zone : string) (shard_id : Z) : string :=
  snprintf (String.length datalog_sync_status_shard_prefix + String.length source_zone + 16)
           (datalog_sync_status_shard_prefix +:+ "." +:+ source_zone +:+ "." +:+ dec shard_id).
End RGWDataSyncStatusManager.

Definition full_data_sync_index_shard_oid (source_zone : string) (shard_id : Z) : string :=
  snprintf (String.length datalog_sync_full_sync_index_prefix + 16)
           (datalog_sync_full_sync_index_prefix +:+ "." +:+ source_zone +:+ "." +:+ dec shard_id).

(** ** std::string operations on 64-bit sizes *)

Definition npos : Z := 2 ^ 64 - 1.

(** Conversion of a [size_t] value to [ssize_t] and back. *)
Definition to_ssize_t (n : Z) : Z := if 2 ^ 63 <=? n then n - 2 ^ 64 else n.
Definition to_size_t (z : Z) : Z := z mod 2 ^ 64.

Fixpoint find_from (c : ascii) (s : string) (i : Z) : Z :=
  match s with
  | EmptyString => npos
  | String a s' => if Ascii.eqb a c then i else find_from c s' (i + 1)
  end.

(** [s.find(c)] *)
Definition find (c : ascii) (s : string) : Z := find_from c s 0.

(** [s.substr(pos, n)] for [pos <= s.size()]; the count is clipped to the
    end of the string. *)
Definition substr (s : string) (pos n : Z) : string :=
  substring (Z.to_nat pos) (Z.to_nat (Z.min n (Z.of_nat (String.length s) - pos))) s.

Definition is_empty (s : string) : bool := String.eqb s "".

(** ** Dispatching one datalog entry: [RGWDataSyncSingleEntryCR] *)

Module SingleEntry.

Record parse_result : Type := Parsed {
  p_ret : Z;
  p_bucket_name : string;
  p_bucket_instance : string;
  p_shard_id : Z
}.

Inductive event : Type :=
| EvRunBucketSync (source_zone bucket_name bucket_id : string) (shard_id : Z)
| EvFinish (entry_marker : string).

(** The members of the coroutine; [marker_tracker] points to the tracker
    of the owning shard, which the shard and its other workers also
    update while this worker is suspended. *)
Record RGWDataSyncSingleEntryCR : Type := Worker {
  source_zone : string;
  raw_key : string;
  entry_marker : string;
  bucket_name : string;
  bucket_instance : string;
  sync_status : Z;
  marker_tracker : MarkerTrack.RGWDataSyncShardMarkerTrack
}.

Definition new (source_zone raw_key entry_marker : string)
    (mt : MarkerTrack.RGWDataSyncShardMarkerTrack) : RGWDataSyncSingleEntryCR :=
  Worker source_zone raw_key entry_marker "" "" 0 mt.

Definition set_parsed (p : parse_result) (w : RGWDataSyncSingleEntryCR) :=
  Worker (source_zone w) (raw_key w) (entry_marker w)
         (p_bucket_name p) (p_bucket_instance p) (sync_status w) (marker_tracker w).

Definition set_sync_status (v : Z) (w : RGWDataSyncSingleEntryCR) :=
  Worker (source_zone w) (raw_key w) (entry_marker w)
         (bucket_name w) (bucket_instance w) v (marker_tracker w).

Definition on_tracker
    (f : MarkerTrack.RGWDataSyncShardMarkerTrack -> MarkerTrack.RGWDataSyncShardMarkerTrack)
    (w : RGWDataSyncSingleEntryCR) :=
  Worker (source_zone w) (raw_key w) (entry_marker w)
         (bucket_name w) (bucket_instance w) (sync_status w) (f (marker_tracker w)).

Section Parse.
(** [strict_strtol(s, 10, &err)] of common/strtol.cc: the value and the
    error text, empty on success. *)
Variable strict_strtol : string -> Z * string.

Definition parse_bucket_shard (raw_key : string) : parse_result :=
  let pos := to_ssize_t (find ":" raw_key) in
  let bucket_name := substr raw_key 0 (to_size_t pos) in
  let bucket_instance := substr raw_key (to_size_t (pos + 1)) npos in
  let pos := to_ssize_t (find ":" bucket_instance) in
  if 0 <=? pos then
    let s := substr bucket_instance (to_size_t (pos + 1)) npos in
    let '(shard_id, err) := strict_strtol s in
    if negb (is_empty err) then
      Parsed (- EINVAL) bucket_name bucket_instance shard_id
    else
      Parsed 0 bucket_name (substr bucket_instance 0 (to_size_t pos)) shard_id
  else
    Parsed 0 bucket_name bucket_instance (-1).

(** One delivery of the environment to the [do ... while] loop: the
    status of the bucket sync that was called, and what the shard and
    the sibling workers did to the shared tracker meanwhile. *)
Definition delivery : Type :=
  (Z * (MarkerTrack.RGWDataSyncShardMarkerTrack -> MarkerTrack.RGWDataSyncShardMarkerTrack))%type.

(** The [do ... while (marker_tracker->need_retry(raw_key))] loop. *)
Fixpoint retry_loop (ds : list delivery)
    : CR.t RGWDataSyncSingleEntryCR event unit :=
  w <- CR.get ;;
  let p := parse_bucket_shard (raw_key w) in
  CR.modify (set_parsed p) ;;;
  if p_ret p <? 0 then CR.set_cr_error (- EIO) else
  CR.modify (on_tracker (MarkerTrack.reset_need_retry (raw_key w))) ;;;
  ret <- CR.call (EvRunBucketSync (source_zone w) (p_bucket_name p)
                                  (p_bucket_instance p) (p_shard_id p)) ;;
  if ret <? 0 then CR.set_cr_error (sync_status w) else
  match ds with
  | [] => CR.exit cr_suspended
  | (status, meanwhile) :: ds' =>
      CR.resume status ;;;
      CR.modify (on_tracker meanwhile) ;;;
      w' <- CR.get ;;
      if MarkerTrack.need_retry (raw_key w') (marker_tracker w')
      then retry_loop ds'
      else CR.ret tt
  end.

(** [operate()]; [finish_status] is the status of the marker update. *)
Definition operate (ds : list delivery) (finish_status : Z)
    : CR.t RGWDataSyncSingleEntryCR event unit :=
  retry_loop ds ;;;
  rc <- CR.get_retcode ;;
  CR.modify (set_sync_status rc) ;;;
  w <- CR.get ;;
  (if negb (is_empty (entry_marker w)) then
     CR.modify (on_tracker (MarkerTrack.finish (entry_marker w))) ;;;
     ret <- CR.call (EvFinish (entry_marker w)) ;;
     if ret <? 0 then CR.set_cr_error (sync_status w) else
     CR.resume finish_status
   else CR.ret tt) ;;;
  w <- CR.get ;;
  rc <- CR.get_retcode ;;
  (if sync_status w =? 0 then CR.modify (set_sync_status rc) else CR.ret tt) ;;;
  w <- CR.get ;;
  if sync_status w <? 0 then CR.set_cr_error rc else CR.set_cr_done.
End Parse.

End SingleEntry.

(** ** Iterating a [std::set<string>] *)

(** A [std::set<string>] is walked in the order of [operator<] on strings,
    which compares byte by byte. *)
Fixpoint insert_sorted (k : string) (l : list string) : list string :=
  match l with
  | [] => [k]
  | x :: l' => if String.leb k x then k :: l else x :: insert_sorted k l'
  end.

(** The keys of a set, in the order in which an iterator visits them. *)
Definition in_key_order (keys : gset string) : list string :=
  foldr insert_sorted [] (elements keys).

(** ** One datalog shard: [RGWDataSyncShardCR] *)

Module DataSyncShard.

Inductive event : Type :=
| EvGetOmapKeys (oid marker : string) (max_entries : Z)
| EvSpawnSingleEntry (raw_key entry_marker : string)
| EvDrainAll
| EvWriteMarker (oid : string) (m : rgw_data_sync_marker)
| EvReadRemoteDataLogShardInfo (shard_id : Z)
| EvReadRemoteDataLogShard (shard_id : Z) (marker : string)
| EvWait (secs : Z).

Record RGWDataSyncShardCR : Type := ShardCR {
  source_zone : string;
  shard_id : Z;
  sync_marker : rgw_data_sync_marker;
  oid : string;
  marker_tracker : MarkerTrack.RGWDataSyncShardMarkerTrack;
  log_entries : list rgw_data_change_log_entry;
  truncated : bool;
  shard_info : RGWDataChangesLogInfo;
  datalog_marker : string;
  modified_shards : gset string;
  current_modified : gset string;
  total_entries : Z;
  wakeups : nat
}.

(** The constructor; [marker_tracker] is NULL until [set_marker_tracker]. *)
Definition new (source_zone : string) (shard_id : Z)
    (marker : rgw_data_sync_marker) : RGWDataSyncShardCR :=
  ShardCR source_zone shard_id marker "" MarkerTrack.empty [] false
          (LogInfo "" 0) "" ∅ ∅ 0 0.

Definition set_sync_marker (m : rgw_data_sync_marker) (s : RGWDataSyncShardCR) :=
  ShardCR (source_zone s) (shard_id s) m (oid s) (marker_tracker s)
          (log_entries s) (truncated s) (shard_info s) (datalog_marker s)
          (modified_shards s) (current_modified s) (total_entries s) (wakeups s).

Definition set_oid (o : string) (s : RGWDataSyncShardCR) :=
  ShardCR (source_zone s) (shard_id s) (sync_marker s) o (marker_tracker s)
          (log_entries s) (truncated s) (shard_info s) (datalog_marker s)
          (modified_shards s) (current_modified s) (total_entries s) (wakeups s).

Definition set_marker_tracker (mt : MarkerTrack.RGWDataSyncShardMarkerTrack)
    (s : RGWDataSyncShardCR) :=
  ShardCR (source_zone s) (shard_id s) (sync_marker s) (oid s) mt
          (log_entries s) (truncated s) (shard_info s) (datalog_marker s)
          (modified_shards s) (current_modified s) (total_entries s) (wakeups s).

Definition set_log (es : list rgw_data_change_log_entry) (tr : bool)
    (s : RGWDataSyncShardCR) :=
  ShardCR (source_zone s) (shard_id s) (sync_marker s) (oid s) (marker_tracker s)
          es tr (shard_info s) (datalog_marker s)
          (modified_shards s) (current_modified s) (total_entries s) (wakeups s).

Definition set_shard_info (i : RGWDataChangesLogInfo) (s : RGWDataSyncShardCR) :=
  ShardCR (source_zone s) (shard_id s) (sync_marker s) (oid s) (marker_tracker s)
          (log_entries s) (truncated s) i (datalog_marker s)
          (modified_shards s) (current_modified s) (total_entries s) (wakeups s).

Definition set_datalog_marker (m : string) (s : RGWDataSyncShardCR) :=
  ShardCR (source_zone s) (shard_id s) (sync_marker s) (oid s) (marker_tracker s)
          (log_entries s) (truncated s) (shard_info s) m
          (modified_shards s) (current_modified s) (total_entries s) (wakeups s).

Definition set_modified (ms cm : gset string) (s : RGWDataSyncShardCR) :=
  ShardCR (source_zone s) (shard_id s) (sync_marker s) (oid s) (marker_tracker s)
          (log_entries s) (truncated s) (shard_info s) (datalog_marker s)
          ms cm (total_entries s) (wakeups s).

Definition set_total_entries (n : Z) (s : RGWDataSyncShardCR) :=
  ShardCR (source_zone s) (shard_id s) (sync_marker s) (oid s) (marker_tracker s)
          (log_entries s) (truncated s) (shard_info s) (datalog_marker s)
          (modified_shards s) (current_modified s) n (wakeups s).

Definition set_wakeups (n : nat) (s : RGWDataSyncShardCR) :=
  ShardCR (source_zone s) (shard_id s) (sync_marker s) (oid s) (marker_tracker s)
          (log_entries s) (truncated s) (shard_info s) (datalog_marker s)
          (modified_shards s) (current_modified s) (total_entries s) n.

Definition with_marker (m : string) (sm : rgw_data_sync_marker) :=
  DataSyncMarker (dsm_state sm) m (dsm_next_step_marker sm)
                 (dsm_total_entries sm) (dsm_pos sm) (dsm_timestamp sm).

(** [modified_shards.insert(keys.begin(), keys.end())] under [inc_lock]. *)
Definition append_modified_shards (keys : gset string) (s : RGWDataSyncShardCR) :=
  set_modified (modified_shards s ∪ keys) (current_modified s) s.

(** [RGWCoroutine::wakeup()]: the shard is signalled. *)
Definition wakeup (s : RGWDataSyncShardCR) := set_wakeups (Datatypes.S (wakeups s)) s.

Definition OMAP_GET_MAX_ENTRIES : Z := 100.
Definition INCREMENTAL_INTERVAL : Z := 20.

(** [(int)x] for an unsigned 64-bit [x]. *)
Definition to_int (x : Z) : Z :=
  let r := x mod 2 ^ 32 in if 2 ^ 31 <=? r then r - 2 ^ 32 else r.

Abbreviation M := (CR.t RGWDataSyncShardCR event).

(** The body of the [for] loop of [full_sync] for one key of the page. *)
Definition full_sync_entry (key : string) : M unit :=
  s <- CR.get ;;
  let n := total_entries s + 1 in
  CR.modify (set_total_entries n) ;;;
  CR.modify (fun s => set_marker_tracker (MarkerTrack.start key n 0 (marker_tracker s)) s) ;;;
  CR.spawn (EvSpawnSingleEntry key key) ;;;
  rc <- CR.get_retcode ;;
  if rc <? 0 then CR.set_cr_error rc else
  CR.modify (fun s => set_sync_marker (with_marker key (sync_marker s)) s).

(** The [do ... while] loop of [full_sync]; a page is the status of
    [RGWRadosGetOmapKeysCR] and the keys it stored in [entries]. *)
Fixpoint full_sync_pages (pages : list (Z * list string)) : M unit :=
  s <- CR.get ;;
  CR.call (EvGetOmapKeys (oid s) (dsm_marker (sync_marker s)) OMAP_GET_MAX_ENTRIES) ;;;
  match pages with
  | [] => CR.exit cr_suspended
  | (status, entries) :: pages' =>
      CR.resume status ;;;
      rc <- CR.get_retcode ;;
      if rc <? 0 then CR.set_cr_error rc else
      CR.for_each entries full_sync_entry ;;;
      if to_int (Z.of_nat (length entries)) =? OMAP_GET_MAX_ENTRIES
      then full_sync_pages pages'
      else CR.ret tt
  end.

(** The marker update that ends full sync. *)
Definition to_incremental (sm : rgw_data_sync_marker) : rgw_data_sync_marker :=
  DataSyncMarker IncrementalSync (dsm_next_step_marker sm) ""
                 (dsm_total_entries sm) (dsm_pos sm) (dsm_timestamp sm).

(** [full_sync()]; [write_status] is the status of the marker write. *)
Definition full_sync (pages : list (Z * list string)) (write_status : Z) : M unit :=
  s <- CR.get ;;
  CR.modify (set_oid (full_data_sync_index_shard_oid (source_zone s) (shard_id s))) ;;;
  CR.modify (set_marker_tracker MarkerTrack.empty) ;;;
  CR.modify (set_total_entries (to_int (dsm_pos (sync_marker s)))) ;;;
  full_sync_pages pages ;;;
  CR.emit EvDrainAll ;;;
  CR.modify (fun s => set_sync_marker (to_incremental (sync_marker s)) s) ;;;
  s <- CR.get ;;
  CR.call (EvWriteMarker (RGWDataSyncStatusManager.shard_obj_name (source_zone s) (shard_id s)) (sync_marker s)) ;;;
  CR.resume write_status ;;;
  rc <- CR.get_retcode ;;
  if rc <? 0 then CR.set_cr_error rc else CR.ret tt.

(** What the environment delivers during one round of the incremental
    loop: the keys that [wakeup] appended before the swap, the status and
    result of the shard-info read, the status and response of the log
    read (a result is stored when its read succeeds), and, for the i-th log
    entry, what the running workers did to the tracker before the loop
    looks at that entry. *)
Record round : Type := Round {
  r_arrivals : gset string;
  r_info_status : Z;
  r_info : RGWDataChangesLogInfo;
  r_log_status : Z;
  r_log_marker : string;
  r_log_entries : list rgw_data_change_log_entry;
  r_log_truncated : bool;
  r_meanwhile : nat -> MarkerTrack.RGWDataSyncShardMarkerTrack ->
                MarkerTrack.RGWDataSyncShardMarkerTrack
}.

(** The body of the [for] loop over [log_entries]. *)
Definition incremental_entry
    (meanwhile : nat -> MarkerTrack.RGWDataSyncShardMarkerTrack ->
                 MarkerTrack.RGWDataSyncShardMarkerTrack)
    (ie : nat * rgw_data_change_log_entry) : M unit :=
  let '(i, e) := ie in
  CR.modify (fun s => set_marker_tracker (meanwhile i (marker_tracker s)) s) ;;;
  s <- CR.get ;;
  let '(fresh, mt) :=
    MarkerTrack.index_key_to_marker (log_id e) (entry_key e) (marker_tracker s) in
  CR.modify (set_marker_tracker mt) ;;;
  if negb fresh then CR.ret tt else
  CR.modify (set_marker_tracker (MarkerTrack.start (log_id e) 0 (log_timestamp e) mt)) ;;;
  CR.spawn (EvSpawnSingleEntry (entry_key e) (log_id e)) ;;;
  rc <- CR.get_retcode ;;
  if rc <? 0 then CR.set_cr_error rc else CR.ret tt.

(** One pass of the [do ... while (true)] loop of [incremental_sync()]. *)
Definition incremental_round (r : round) : M unit :=
  CR.modify (fun s => append_modified_shards (r_arrivals r) s) ;;;
  CR.modify (fun s => set_modified ∅ (modified_shards s) s) ;;;
  s <- CR.get ;;
  CR.for_each (in_key_order (current_modified s))
              (fun k => CR.spawn (EvSpawnSingleEntry k "")) ;;;
  ret <- CR.call (EvReadRemoteDataLogShardInfo (shard_id s)) ;;
  (if ret <? 0 then CR.set_cr_error ret else CR.ret tt) ;;;
  CR.resume (r_info_status r) ;;;
  (if r_info_status r <? 0 then CR.ret tt else CR.modify (set_shard_info (r_info r))) ;;;
  rc <- CR.get_retcode ;;
  if rc <? 0 then CR.set_cr_error rc else
  CR.modify (fun s => set_datalog_marker (li_marker (shard_info s)) s) ;;;
  s <- CR.get ;;
  (if String.ltb (dsm_marker (sync_marker s)) (datalog_marker s) then
     CR.call (EvReadRemoteDataLogShard (shard_id s) (dsm_marker (sync_marker s))) ;;;
     CR.resume (r_log_status r) ;;;
     (if r_log_status r <? 0 then CR.ret tt else
        CR.modify (set_log (r_log_entries r) (r_log_truncated r)) ;;;
        CR.modify (fun s => set_sync_marker (with_marker (r_log_marker r) (sync_marker s)) s)) ;;;
     s <- CR.get ;;
     CR.for_each (combine (seq 0 (length (log_entries s))) (log_entries s))
                 (incremental_entry (r_meanwhile r))
   else CR.ret tt) ;;;
  s <- CR.get ;;
  if String.eqb (datalog_marker s) (dsm_marker (sync_marker s))
  then CR.emit (EvWait INCREMENTAL_INTERVAL)
  else CR.ret tt.

(** [do ... while (true)]: the loop runs as long as the environment
    delivers rounds and is parked at a yield afterwards. *)
Fixpoint incremental_rounds (rs : list round) : M unit :=
  match rs with
  | [] => CR.exit cr_suspended
  | r :: rs' => incremental_round r ;;; incremental_rounds rs'
  end.

Definition incremental_sync (rs : list round) : M unit :=
  CR.modify (set_marker_tracker MarkerTrack.empty) ;;;
  incremental_rounds rs.

End DataSyncShard.

(** ** The zone driver and the wake-up bridge *)

Module DataSync.

(** [RGWDataSyncCR]: the registry of the shard coroutines it owns. *)
Record RGWDataSyncCR : Type := DataSyncCR {
  shard_crs : gmap Z DataSyncShard.RGWDataSyncShardCR
}.

Definition new : RGWDataSyncCR := DataSyncCR ∅.

Definition wakeup (shard_id : Z) (keys : gset string)
    (cr : RGWDataSyncCR) : RGWDataSyncCR :=
  match shard_crs cr !! shard_id with
  | None => cr
  | Some s =>
      DataSyncCR
        (<[shard_id :=
             DataSyncShard.wakeup (DataSyncShard.append_modified_shards keys s)]>
           (shard_crs cr))
  end.

End DataSync.

Module RemoteDataLog.

Record RGWRemoteDataLog : Type := RemoteLog {
  source_zone : string;
  data_sync_cr : option DataSync.RGWDataSyncCR
}.

Definition wakeup (shard_id : Z) (keys : gset string)
    (rl : RGWRemoteDataLog) : RGWRemoteDataLog :=
  match data_sync_cr rl with
  | None => rl
  | Some cr => RemoteLog (source_zone rl) (Some (DataSync.wakeup shard_id keys cr))
  end.

(** [(int)n] for the [uint32_t] shard count. *)
Definition to_int (n : Z) : Z :=
  let r := n mod 2 ^ 32 in if 2 ^ 31 <=? r then r - 2 ^ 32 else r.

(** [for (int i = 0; i < n; i++)] *)
Definition upto (n : Z) : list Z := map Z.of_nat (seq 0 (Z.to_nat n)).

(** [RGWReadDataSyncStatusCoroutine::handle_data]: the value returned and
    the objects of the per-shard reads it spawns; [retcode] is the status of
    the read of the zone status object. *)
Definition handle_data (source_zone : string) (retcode : Z)
    (data : rgw_data_sync_info) : Z * list string :=
  if retcode =? - ENOENT then (retcode, [])
  else (0, map (RGWDataSyncStatusManager.shard_obj_name source_zone) (upto (to_int (dsi_num_shards data)))).

(** The coroutines that [run_sync] hands to [run()]. *)
Inductive run_event : Type :=
| RunReadDataSyncStatus (source_zone : string)
| RunInitDataSyncStatus (source_zone : string) (num_shards : Z)
| RunDataSync (source_zone : string).

(** [run_sync]; [r_read], [r_init] and [r_sync] are the values that
    [run()] returns for the three coroutines. *)
Definition run_sync (num_shards : Z) (r_read r_init r_sync : Z)
    (rl : RGWRemoteDataLog) : Z * list run_event * RGWRemoteDataLog :=
  let r := r_read in
  let tr := [RunReadDataSyncStatus (source_zone rl)] in
  let '(r, tr) :=
    if r =? - ENOENT
    then (r_init, (tr ++ [RunInitDataSyncStatus (source_zone rl) num_shards])%list)
    else (r, tr) in
  if r <? 0 then (r, tr, rl) else
  let rl1 := RemoteLog (source_zone rl) (Some DataSync.new) in
  let r := r_sync in
  let tr := (tr ++ [RunDataSync (source_zone rl)])%list in
  if r <? 0 then (r, tr, rl1) else
  (0, tr, RemoteLog (source_zone rl) None).

End RemoteDataLog.

(** ** Initialising the zone sync status *)

Definition COOKIE_LEN : nat := 16.

Module InitDataSyncStatus.

Inductive event : Type :=
| EvLock (oid lock_name cookie : string) (duration : Z)
| EvUnlock (oid lock_name cookie : string)
| EvWriteInfo (oid : string) (status : rgw_data_sync_info)
| EvSpawnReadShardInfo (shard_id : Z)
| EvSpawnWriteMarker (oid : string) (m : rgw_data_sync_marker).

Record RGWInitDataSyncStatusCoroutine : Type := InitCR {
  source_zone : string;
  sync_status_oid : string;
  lock_name : string;
  cookie : string;
  status : rgw_data_sync_info;
  shards_info : gmap Z RGWDataChangesLogInfo
}.

(** The constructor. [buf] is what [gen_rand_alphanumeric] left in the
    buffer.  The statement [string cookie = buf;] declares a local
    variable of the constructor, so the member [cookie] keeps the empty
    string it was default-constructed with. *)
Definition new (source_zone : string) (num_shards : Z) (buf : string)
    : RGWInitDataSyncStatusCoroutine :=
  let lock_name := "sync_lock" in
  let status := DataSyncInfo StateInit num_shards in
  let cookie := buf in
  InitCR source_zone (RGWDataSyncStatusManager.sync_status_oid source_zone) lock_name "" status ∅.

Definition set_status (st : rgw_data_sync_info) (c : RGWInitDataSyncStatusCoroutine) :=
  InitCR (source_zone c) (sync_status_oid c) (lock_name c) (cookie c) st (shards_info c).

Definition set_shards_info (m : gmap Z RGWDataChangesLogInfo)
    (c : RGWInitDataSyncStatusCoroutine) :=
  InitCR (source_zone c) (sync_status_oid c) (lock_name c) (cookie c) (status c) m.

(** The statuses delivered to one run: the two locks, the two writes of
    the status object, the unlock, what the spawned reads stored in
    [shards_info], and the values that the successive [collect(&ret)]
    calls returning true stored in [ret]. *)
Record env : Type := Env {
  e_lock1 : Z;
  e_write1 : Z;
  e_lock2 : Z;
  e_infos : gmap Z RGWDataChangesLogInfo;
  e_collect1 : list Z;
  e_write2 : Z;
  e_unlock : Z;
  e_collect2 : list Z
}.

Abbreviation M := (CR.t RGWInitDataSyncStatusCoroutine event).

(** [while (collect(&ret)) { if (ret < 0) return set_state(Error); yield; }] *)
Fixpoint collect_loop (rets : list Z) : M unit :=
  match rets with
  | [] => CR.ret tt
  | r :: rets' => if r <? 0 then CR.exit cr_state_error else collect_loop rets'
  end.

Definition shard_ids (c : RGWInitDataSyncStatusCoroutine) : list Z :=
  RemoteDataLog.upto (RemoteDataLog.to_int (dsi_num_shards (status c))).

Definition initial_marker (info : RGWDataChangesLogInfo) : rgw_data_sync_marker :=
  DataSyncMarker FullSync "" (li_marker info) 0 0 (li_last_update info).

(** [operate()].  Each test of [retcode] after a lock request sits in the
    [yield] block that issues the request: the first one reads the initial
    0, the second one the status of the status write. *)
Definition operate (e : env) : M unit :=
  let lock_duration := 30 in
  c <- CR.get ;;
  CR.call (EvLock (sync_status_oid c) (lock_name c) (cookie c) lock_duration) ;;;
  rc <- CR.get_retcode ;;
  (if rc <? 0 then CR.set_cr_error rc else CR.ret tt) ;;;
  CR.resume (e_lock1 e) ;;;
  CR.call (EvWriteInfo (sync_status_oid c) (status c)) ;;;
  CR.resume (e_write1 e) ;;;
  CR.call (EvLock (sync_status_oid c) (lock_name c) (cookie c) lock_duration) ;;;
  rc <- CR.get_retcode ;;
  (if rc <? 0 then CR.set_cr_error rc else CR.ret tt) ;;;
  CR.resume (e_lock2 e) ;;;
  CR.for_each (shard_ids c) (fun i => CR.spawn (EvSpawnReadShardInfo i)) ;;;
  CR.modify (set_shards_info (e_infos e)) ;;;
  collect_loop (e_collect1 e) ;;;
  c <- CR.get ;;
  CR.for_each (shard_ids c)
    (fun i =>
       let info := default (LogInfo "" 0) (shards_info c !! i) in
       CR.spawn (EvSpawnWriteMarker (RGWDataSyncStatusManager.shard_obj_name (source_zone c) i)
                                    (initial_marker info))) ;;;
  CR.modify (set_status (DataSyncInfo StateBuildingFullSyncMaps
                                      (dsi_num_shards (status c)))) ;;;
  c <- CR.get ;;
  CR.call (EvWriteInfo (sync_status_oid c) (status c)) ;;;
  CR.resume (e_write2 e) ;;;
  CR.call (EvUnlock (sync_status_oid c) (lock_name c) (cookie c)) ;;;
  CR.resume (e_unlock e) ;;;
  collect_loop (e_collect2 e) ;;;
  CR.set_cr_done.

End InitDataSyncStatus.

(** ** Bucket-shard status records *)

Record rgw_obj_key : Type := ObjKey {
  ok_name : string;
  ok_instance : string
}.

Inductive bucket_sync_state : Type :=
| BStateInit | BStateFullSync | BStateIncrementalSync.

Record rgw_bucket_shard_full_sync_marker : Type := FullMarker {
  fm_position : rgw_obj_key;
  fm_count : Z
}.

Record rgw_bucket_shard_inc_sync_marker : Type := IncMarker {
  im_position : string
}.

Record rgw_bucket_shard_sync_info : Type := BucketSyncInfo {
  bs_state : bucket_sync_state;
  bs_full_marker : rgw_bucket_shard_full_sync_marker;
  bs_inc_marker : rgw_bucket_shard_inc_sync_marker
}.

(** The default-constructed status. *)
Definition rgw_bucket_shard_sync_info_default : rgw_bucket_shard_sync_info :=
  BucketSyncInfo BStateInit (FullMarker (ObjKey "" "") 0) (IncMarker "").

Record bucket_index_marker_info : Type := MarkerInfo {
  bucket_ver : string;
  master_ver : string;
  max_marker : string
}.

(** The encoding of one of the three parts of the status; the encodings
    are kept abstract. *)
Inductive attr_val : Type :=
| AttrState (s : bucket_sync_state)
| AttrFullMarker (m : rgw_bucket_shard_full_sync_marker)
| AttrIncMarker (m : rgw_bucket_shard_inc_sync_marker).

(** A [bufferlist] is the sequence of the values encoded into it, oldest
    first; an extended attribute holds one buffer. *)
Definition bufferlist : Type := list attr_val.

(** [::encode(v, attrs[key])]: [attrs[key]] makes an empty buffer for a key
    that is not in the map, and [::encode] appends to the buffer. *)
Definition encode_into (key : string) (v : attr_val)
    (attrs : gmap string bufferlist) : gmap string bufferlist :=
  <[key := (default [] (attrs !! key) ++ [v])%list]> attrs.

Definition encode_state_attr (st : rgw_bucket_shard_sync_info)
    (attrs : gmap string bufferlist) : gmap string bufferlist :=
  encode_into "state" (AttrState (bs_state st)) attrs.

Definition full_marker_encode_attr (m : rgw_bucket_shard_full_sync_marker)
    (attrs : gmap string bufferlist) : gmap string bufferlist :=
  encode_into "full_marker" (AttrFullMarker m) attrs.

Definition inc_marker_encode_attr (m : rgw_bucket_shard_inc_sync_marker)
    (attrs : gmap string bufferlist) : gmap string bufferlist :=
  encode_into "inc_marker" (AttrIncMarker m) attrs.

Definition encode_all_attrs (st : rgw_bucket_shard_sync_info)
    (attrs : gmap string bufferlist) : gmap string bufferlist :=
  inc_marker_encode_attr (bs_inc_marker st)
    (full_marker_encode_attr (bs_full_marker st)
       (encode_state_attr st attrs)).

(** [bucket_name + ":" + bucket_id], followed by [":%d"] of a shard id that
    is not negative. *)
Definition instance_key (bucket_name bucket_id : string) (shard_id : Z) : string :=
  let k := bucket_name +:+ ":" +:+ bucket_id in
  if 0 <=? shard_id then k +:+ snprintf 16 (":" +:+ dec shard_id) else k.

Module RGWBucketSyncStatusManager.
Definition status_oid (source_zone bucket_name bucket_id : string)
    (shard_id : Z) : string :=
  let oid := bucket_status_oid_prefix +:+ "." +:+ source_zone +:+ ":" +:+
             bucket_name +:+ ":" +:+ bucket_id in
  if 0 <=? shard_id then oid +:+ snprintf 16 (":" +:+ dec shard_id) else oid.
End RGWBucketSyncStatusManager.

(** ** Initialising the status of a bucket shard *)

Module InitBucketShardSyncStatus.

Inductive event : Type :=
| EvLock (oid lock_name cookie : string) (duration : Z)
| EvUnlock (oid lock_name cookie : string)
| EvWriteStatus (oid : string) (status : rgw_bucket_shard_sync_info)
| EvReadRemoteBucketIndexLogInfo (instance_key : string)
| EvWriteAttrs (oid : string) (attrs : gmap string bufferlist).

Record RGWInitBucketShardSyncStatusCoroutine : Type := InitCR {
  source_zone : string;
  bucket_name : string;
  bucket_id : string;
  shard_id : Z;
  sync_status_oid : string;
  lock_name : string;
  cookie : string;
  status : rgw_bucket_shard_sync_info;
  info : bucket_index_marker_info
}.

(** The constructor. [buf] is what [gen_rand_alphanumeric] left in the
    buffer; as in the zone-status coroutine, [string cookie = buf;] is a
    local variable and the member [cookie] stays empty. *)
Definition new (source_zone bucket_name bucket_id : string) (shard_id : Z)
    (buf : string) : RGWInitBucketShardSyncStatusCoroutine :=
  let lock_name := "sync_lock" in
  let cookie := buf in
  InitCR source_zone bucket_name bucket_id shard_id
         (RGWBucketSyncStatusManager.status_oid source_zone bucket_name bucket_id shard_id)
         lock_name "" rgw_bucket_shard_sync_info_default (MarkerInfo "" "" "").

Definition set_status (st : rgw_bucket_shard_sync_info)
    (c : RGWInitBucketShardSyncStatusCoroutine) :=
  InitCR (source_zone c) (bucket_name c) (bucket_id c) (shard_id c)
         (sync_status_oid c) (lock_name c) (cookie c) st (info c).

Definition set_info (i : bucket_index_marker_info)
    (c : RGWInitBucketShardSyncStatusCoroutine) :=
  InitCR (source_zone c) (bucket_name c) (bucket_id c) (shard_id c)
         (sync_status_oid c) (lock_name c) (cookie c) (status c) i.

(** The statuses delivered to one run; [e_fetched] is the decoded answer
    of the peer, stored in [info] when the read succeeds. *)
Record env : Type := Env {
  e_lock1 : Z;
  e_write1 : Z;
  e_lock2 : Z;
  e_fetch : Z;
  e_fetched : bucket_index_marker_info;
  e_write_attrs : Z;
  e_unlock : Z
}.

Abbreviation M := (CR.t RGWInitBucketShardSyncStatusCoroutine event).

(** [operate()].  As in the zone-status coroutine, the tests of [retcode]
    after the lock requests read the status of the callee before: the
    initial 0, and the status of the status write.  The status of the fetch
    is tested after its [yield] block. *)
Definition operate (e : env) : M unit :=
  let lock_duration := 30 in
  c <- CR.get ;;
  CR.call (EvLock (sync_status_oid c) (lock_name c) (cookie c) lock_duration) ;;;
  rc <- CR.get_retcode ;;
  (if rc <? 0 then CR.set_cr_error rc else CR.ret tt) ;;;
  CR.resume (e_lock1 e) ;;;
  CR.call (EvWriteStatus (sync_status_oid c) (status c)) ;;;
  CR.resume (e_write1 e) ;;;
  CR.call (EvLock (sync_status_oid c) (lock_name c) (cookie c) lock_duration) ;;;
  rc <- CR.get_retcode ;;
  (if rc <? 0 then CR.set_cr_error rc else CR.ret tt) ;;;
  CR.resume (e_lock2 e) ;;;
  ret <- CR.call (EvReadRemoteBucketIndexLogInfo
                    (instance_key (bucket_name c) (bucket_id c) (shard_id c))) ;;
  (if ret <? 0 then CR.set_cr_error ret else CR.ret tt) ;;;
  CR.resume (e_fetch e) ;;;
  (if e_fetch e <? 0 then CR.ret tt else CR.modify (set_info (e_fetched e))) ;;;
  rc <- CR.get_retcode ;;
  (if (rc <? 0) && negb (rc =? - ENOENT) then CR.set_cr_error rc else CR.ret tt) ;;;
  CR.modify (fun c =>
    set_status (BucketSyncInfo BStateFullSync (bs_full_marker (status c))
                               (IncMarker (max_marker (info c)))) c) ;;;
  c <- CR.get ;;
  CR.call (EvWriteAttrs (sync_status_oid c) (encode_all_attrs (status c) ∅)) ;;;
  CR.resume (e_write_attrs e) ;;;
  CR.call (EvUnlock (sync_status_oid c) (lock_name c) (cookie c)) ;;;
  CR.resume (e_unlock e) ;;;
  CR.set_cr_done.

End InitBucketShardSyncStatus.

(** ** Syncing one bucket shard *)

(** [RGWModifyOp] of cls/rgw/cls_rgw_types.h. *)
Inductive RGWModifyOp : Type :=
| CLS_RGW_OP_ADD
| CLS_RGW_OP_DEL
| CLS_RGW_OP_CANCEL
| CLS_RGW_OP_UNKNOWN
| CLS_RGW_OP_LINK_OLH
| CLS_RGW_OP_LINK_OLH_DM
| CLS_RGW_OP_UNLINK_INSTANCE.

Definition op_eqb (a b : RGWModifyOp) : bool :=
  match a, b with
  | CLS_RGW_OP_ADD, CLS_RGW_OP_ADD
  | CLS_RGW_OP_DEL, CLS_RGW_OP_DEL
  | CLS_RGW_OP_CANCEL, CLS_RGW_OP_CANCEL
  | CLS_RGW_OP_UNKNOWN, CLS_RGW_OP_UNKNOWN
  | CLS_RGW_OP_LINK_OLH, CLS_RGW_OP_LINK_OLH
  | CLS_RGW_OP_LINK_OLH_DM, CLS_RGW_OP_LINK_OLH_DM
  | CLS_RGW_OP_UNLINK_INSTANCE, CLS_RGW_OP_UNLINK_INSTANCE => true
  | _, _ => false
  end.

Record bucket_list_entry : Type := ListEntry {
  le_delete_marker : bool;
  le_key : rgw_obj_key;
  le_is_latest : bool;
  le_mtime : Z;
  le_versioned_epoch : Z
}.

Record bucket_list_result : Type := ListResult {
  lr_is_truncated : bool;
  lr_entries : list bucket_list_entry
}.

Record rgw_bucket_entry_ver : Type := EntryVer {
  ver_pool : Z;
  ver_epoch : Z
}.

Record rgw_bi_log_entry : Type := BiLogEntry {
  bi_id : string;
  bi_object : string;
  bi_instance : string;
  bi_timestamp : Z;
  bi_ver : rgw_bucket_entry_ver;
  bi_op : RGWModifyOp
}.

Definition BUCKET_SYNC_SPAWN_WINDOW : Z := 20.

Module BucketSingleEntry.
Section Worker.
(** The marker type: [rgw_obj_key] in full sync, [string] in incremental
    sync. *)
Context {T : Type}.

Inductive event : Type :=
| EvFetchRemoteObj (source_zone : string) (key : rgw_obj_key)
                   (versioned_epoch : Z) (if_newer : bool)
| EvRemoveObj (source_zone : string) (key : rgw_obj_key)
              (versioned_epoch : Z) (timestamp : Z)
| EvFinish (entry_marker : T).

Record RGWBucketSyncSingleEntryCR : Type := Worker {
  source_zone : string;
  shard_id : Z;
  key : rgw_obj_key;
  versioned_epoch : Z;
  timestamp : Z;
  op : RGWModifyOp;
  entry_marker : T;
  sync_status : Z
}.

Definition new (source_zone : string) (shard_id : Z) (key : rgw_obj_key)
    (versioned_epoch timestamp : Z) (op : RGWModifyOp) (entry_marker : T)
    : RGWBucketSyncSingleEntryCR :=
  Worker source_zone shard_id key versioned_epoch timestamp op entry_marker 0.

Definition set_sync_status (v : Z) (w : RGWBucketSyncSingleEntryCR) :=
  Worker (source_zone w) (shard_id w) (key w) (versioned_epoch w) (timestamp w)
         (op w) (entry_marker w) v.

Abbreviation M := (CR.t RGWBucketSyncSingleEntryCR event).

(** [operate()]; [transfer_status] is the status of the fetch or of the
    removal, [finish_status] the status of the marker update. *)
Definition operate (transfer_status finish_status : Z) : M unit :=
  w <- CR.get ;;
  (if op_eqb (op w) CLS_RGW_OP_ADD || op_eqb (op w) CLS_RGW_OP_LINK_OLH then
     if op_eqb (op w) CLS_RGW_OP_ADD
        && negb (is_empty (ok_instance (key w)))
        && negb (String.eqb (ok_instance (key w)) "null")
     then CR.set_cr_done
     else
       r <- CR.call (EvFetchRemoteObj (source_zone w) (key w) (versioned_epoch w) true) ;;
       if r <? 0 then CR.set_cr_error r else CR.resume transfer_status
   else if op_eqb (op w) CLS_RGW_OP_DEL then
     r <- CR.call (EvRemoveObj (source_zone w) (key w) (versioned_epoch w) (timestamp w)) ;;
     if r <? 0 then CR.set_cr_error r else CR.resume transfer_status
   else CR.ret tt) ;;;
  rc <- CR.get_retcode ;;
  (if (rc <? 0) && negb (rc =? - ENOENT)
   then CR.modify (set_sync_status rc) else CR.ret tt) ;;;
  ret <- CR.call (EvFinish (entry_marker w)) ;;
  w <- CR.get ;;
  (if ret <? 0 then CR.set_cr_error (sync_status w) else CR.ret tt) ;;;
  CR.resume finish_status ;;;
  rc <- CR.get_retcode ;;
  (if sync_status w =? 0 then CR.modify (set_sync_status rc) else CR.ret tt) ;;;
  w <- CR.get ;;
  if sync_status w <? 0 then CR.set_cr_error (sync_status w) else CR.set_cr_done.
End Worker.
Arguments event : clear implicits.
Arguments RGWBucketSyncSingleEntryCR : clear implicits.
End BucketSingleEntry.

(** ** The children of a coroutine *)

Module Children.

(** Modelled from the spec: the scheduler (rgw_coroutine.h) is not part of
    the file.  [spawn] adds a child, [wait_for_child] blocks until some
    child has completed, [collect] removes the completed children, and
    [drain_all] blocks until every child is collected.  [num_spawned] is
    the number of spawned children not yet collected, [waits] counts the
    [wait_for_child] calls, and [hist] keeps every value [num_spawned] has
    taken, oldest first. *)
Record t : Type := Sched {
  num_spawned : nat;
  waits : nat;
  hist : list nat
}.

Definition none : t := Sched 0 0 [0%nat].

Definition spawn (c : t) : t :=
  Sched (Datatypes.S (num_spawned c)) (waits c)
        (hist c ++ [Datatypes.S (num_spawned c)]).

(** After [wait_for_child] at least one child is complete; [completed] is
    how many the environment reports. *)
Definition harvested (completed : nat) (c : t) : nat :=
  Nat.max 1 (Nat.min completed (num_spawned c)).

Definition wait_and_collect (completed : nat) (c : t) : t :=
  let n := (num_spawned c - harvested completed c)%nat in
  Sched n (Datatypes.S (waits c)) (hist c ++ [n]).

Definition drain_all (c : t) : t :=
  Sched 0 (waits c) (hist c ++ [0%nat]).

End Children.

Module BucketShard.
Section Events.
Context {T : Type}.

Inductive event : Type :=
| EvListBucketShard (instance_key : string) (marker : rgw_obj_key)
| EvListBucketIndexLog (instance_key marker : string)
| EvStart (marker : T) (index_pos timestamp : Z)
| EvSpawnSingleEntry (w : BucketSingleEntry.RGWBucketSyncSingleEntryCR T)
| EvWaitForChild
| EvDrainAll
| EvWriteAttrs (oid : string) (attrs : gmap string bufferlist).
End Events.
Arguments event : clear implicits.

(** *** Full sync *)

Record RGWBucketShardFullSyncCR : Type := FullCR {
  f_source_zone : string;
  f_bucket_name : string;
  f_bucket_id : string;
  f_shard_id : Z;
  f_list_result : bucket_list_result;
  f_full_marker : rgw_bucket_shard_full_sync_marker;
  f_spawn_window : Z;
  f_list_marker : rgw_obj_key;
  f_total_entries : Z;
  f_children : Children.t
}.

Definition new_full (source_zone bucket_name bucket_id : string) (shard_id : Z)
    (full_marker : rgw_bucket_shard_full_sync_marker) : RGWBucketShardFullSyncCR :=
  FullCR source_zone bucket_name bucket_id shard_id (ListResult false [])
         full_marker BUCKET_SYNC_SPAWN_WINDOW (ObjKey "" "") 0 Children.none.

Definition f_set_list_result (r : bucket_list_result) (s : RGWBucketShardFullSyncCR) :=
  FullCR (f_source_zone s) (f_bucket_name s) (f_bucket_id s) (f_shard_id s) r
         (f_full_marker s) (f_spawn_window s) (f_list_marker s) (f_total_entries s)
         (f_children s).

Definition f_set_list_marker (k : rgw_obj_key) (s : RGWBucketShardFullSyncCR) :=
  FullCR (f_source_zone s) (f_bucket_name s) (f_bucket_id s) (f_shard_id s)
         (f_list_result s) (f_full_marker s) (f_spawn_window s) k (f_total_entries s)
         (f_children s).

Definition f_set_total_entries (n : Z) (s : RGWBucketShardFullSyncCR) :=
  FullCR (f_source_zone s) (f_bucket_name s) (f_bucket_id s) (f_shard_id s)
         (f_list_result s) (f_full_marker s) (f_spawn_window s) (f_list_marker s) n
         (f_children s).

Definition f_on_children (f : Children.t -> Children.t) (s : RGWBucketShardFullSyncCR) :=
  FullCR (f_source_zone s) (f_bucket_name s) (f_bucket_id s) (f_shard_id s)
         (f_list_result s) (f_full_marker s) (f_spawn_window s) (f_list_marker s)
         (f_total_entries s) (f (f_children s)).

Abbreviation MF := (CR.t RGWBucketShardFullSyncCR (event rgw_obj_key)).

(** [while ((int)num_spawned() > spawn_window) { yield wait_for_child();
    while (collect(&ret)) ...; }]; [completed k] is the number of children
    found complete after the k-th wait.  Every round collects a child, so
    [fuel = num_spawned] rounds are enough. *)
Fixpoint f_throttle (fuel : nat) (completed : nat -> nat) : MF unit :=
  s <- CR.get ;;
  if f_spawn_window s <? Z.of_nat (Children.num_spawned (f_children s)) then
    match fuel with
    | O => CR.exit cr_suspended
    | Datatypes.S fuel' =>
        CR.emit EvWaitForChild ;;;
        CR.modify (f_on_children
          (fun c => Children.wait_and_collect (completed (Children.waits c)) c)) ;;;
        f_throttle fuel' completed
    end
  else CR.ret tt.

(** The worker that full sync starts for a listed entry. *)
Definition full_worker (s : RGWBucketShardFullSyncCR) (entry : bucket_list_entry)
    : BucketSingleEntry.RGWBucketSyncSingleEntryCR rgw_obj_key :=
  let op := if is_empty (ok_instance (le_key entry))
               || String.eqb (ok_instance (le_key entry)) "null"
            then CLS_RGW_OP_ADD else CLS_RGW_OP_LINK_OLH in
  BucketSingleEntry.new (f_source_zone s) (f_shard_id s) (le_key entry)
                        (le_versioned_epoch entry) (le_mtime entry) op (le_key entry).

Definition full_entry (completed : nat -> nat) (entry : bucket_list_entry) : MF unit :=
  s <- CR.get ;;
  let n := f_total_entries s + 1 in
  CR.modify (f_set_total_entries n) ;;;
  CR.emit (EvStart (le_key entry) n 0) ;;;
  CR.modify (f_set_list_marker (le_key entry)) ;;;
  CR.spawn (EvSpawnSingleEntry (full_worker s entry)) ;;;
  CR.modify (f_on_children Children.spawn) ;;;
  s <- CR.get ;;
  f_throttle (Children.num_spawned (f_children s)) completed.

(** The [do ... while (list_result.is_truncated)] loop; a page is the
    status of the listing and the decoded result, stored in [list_result]
    when the listing succeeds. *)
Fixpoint full_pages (completed : nat -> nat)
    (pages : list (Z * bucket_list_result)) : MF unit :=
  s <- CR.get ;;
  r <- CR.call (EvListBucketShard
                  (instance_key (f_bucket_name s) (f_bucket_id s) (f_shard_id s))
                  (f_list_marker s)) ;;
  if r <? 0 then CR.exit (cr_return r) else
  match pages with
  | [] => CR.exit cr_suspended
  | (status, result) :: pages' =>
      CR.resume status ;;;
      (if status <? 0 then CR.ret tt else CR.modify (f_set_list_result result)) ;;;
      rc <- CR.get_retcode ;;
      if (rc <? 0) && negb (rc =? - ENOENT) then CR.set_cr_error rc else
      s <- CR.get ;;
      CR.for_each (lr_entries (f_list_result s)) (full_entry completed) ;;;
      s <- CR.get ;;
      if lr_is_truncated (f_list_result s) then full_pages completed pages'
      else CR.ret tt
  end.

Definition full_operate (completed : nat -> nat)
    (pages : list (Z * bucket_list_result)) (write_status : Z) : MF unit :=
  s <- CR.get ;;
  CR.modify (f_set_list_marker (fm_position (f_full_marker s))) ;;;
  CR.modify (f_set_total_entries (DataSyncShard.to_int (fm_count (f_full_marker s)))) ;;;
  full_pages completed pages ;;;
  CR.emit EvDrainAll ;;;
  CR.modify (f_on_children Children.drain_all) ;;;
  s <- CR.get ;;
  let sync_status :=
    BucketSyncInfo BStateIncrementalSync
                   (bs_full_marker rgw_bucket_shard_sync_info_default)
                   (bs_inc_marker rgw_bucket_shard_sync_info_default) in
  let oid := RGWBucketSyncStatusManager.status_oid
               (f_source_zone s) (f_bucket_name s) (f_bucket_id s) (f_shard_id s) in
  ret <- CR.call (EvWriteAttrs oid (encode_state_attr sync_status ∅)) ;;
  (if ret <? 0 then CR.set_cr_error ret else CR.ret tt) ;;;
  CR.resume write_status ;;;
  rc <- CR.get_retcode ;;
  if rc <? 0 then CR.set_cr_error rc else CR.set_cr_done.

(** *** Incremental sync *)

Record RGWBucketShardIncrementalSyncCR : Type := IncCR {
  i_source_zone : string;
  i_bucket_name : string;
  i_bucket_id : string;
  i_shard_id : Z;
  i_list_result : list rgw_bi_log_entry;
  i_inc_marker : rgw_bucket_shard_inc_sync_marker;
  i_spawn_window : Z;
  i_children : Children.t
}.

Definition new_inc (source_zone bucket_name bucket_id : string) (shard_id : Z)
    (inc_marker : rgw_bucket_shard_inc_sync_marker) : RGWBucketShardIncrementalSyncCR :=
  IncCR source_zone bucket_name bucket_id shard_id [] inc_marker
        BUCKET_SYNC_SPAWN_WINDOW Children.none.

Definition i_set_list_result (r : list rgw_bi_log_entry)
    (s : RGWBucketShardIncrementalSyncCR) :=
  IncCR (i_source_zone s) (i_bucket_name s) (i_bucket_id s) (i_shard_id s) r
        (i_inc_marker s) (i_spawn_window s) (i_children s).

Definition i_set_inc_marker (m : rgw_bucket_shard_inc_sync_marker)
    (s : RGWBucketShardIncrementalSyncCR) :=
  IncCR (i_source_zone s) (i_bucket_name s) (i_bucket_id s) (i_shard_id s)
        (i_list_result s) m (i_spawn_window s) (i_children s).

Definition i_on_children (f : Children.t -> Children.t)
    (s : RGWBucketShardIncrementalSyncCR) :=
  IncCR (i_source_zone s) (i_bucket_name s) (i_bucket_id s) (i_shard_id s)
        (i_list_result s) (i_inc_marker s) (i_spawn_window s) (f (i_children s)).

Abbreviation MI := (CR.t RGWBucketShardIncrementalSyncCR (event string)).

Fixpoint i_throttle (fuel : nat) (completed : nat -> nat) : MI unit :=
  s <- CR.get ;;
  if i_spawn_window s <? Z.of_nat (Children.num_spawned (i_children s)) then
    match fuel with
    | O => CR.exit cr_suspended
    | Datatypes.S fuel' =>
        CR.emit EvWaitForChild ;;;
        CR.modify (i_on_children
          (fun c => Children.wait_and_collect (completed (Children.waits c)) c)) ;;;
        i_throttle fuel' completed
    end
  else CR.ret tt.

(** The worker that incremental sync starts for a bucket-index-log
    entry. *)
Definition inc_worker (s : RGWBucketShardIncrementalSyncCR) (entry : rgw_bi_log_entry)
    : BucketSingleEntry.RGWBucketSyncSingleEntryCR string :=
  let key := ObjKey (bi_object entry) (bi_instance entry) in
  let versioned_epoch :=
    if ver_pool (bi_ver entry) <? 0 then ver_epoch (bi_ver entry) else 0 in
  BucketSingleEntry.new (i_source_zone s) (i_shard_id s) key versioned_epoch
                        (bi_timestamp entry) (bi_op entry) (bi_id entry).

Definition inc_entry (completed : nat -> nat) (entry : rgw_bi_log_entry) : MI unit :=
  s <- CR.get ;;
  CR.emit (EvStart (bi_id entry) 0 (bi_timestamp entry)) ;;;
  CR.modify (i_set_inc_marker (IncMarker (bi_id entry))) ;;;
  CR.spawn (EvSpawnSingleEntry (inc_worker s entry)) ;;;
  CR.modify (i_on_children Children.spawn) ;;;
  s <- CR.get ;;
  i_throttle (Children.num_spawned (i_children s)) completed.

(** The [do ... while (!list_result.empty())] loop. *)
Fixpoint inc_pages (completed : nat -> nat)
    (pages : list (Z * list rgw_bi_log_entry)) : MI unit :=
  s <- CR.get ;;
  r <- CR.call (EvListBucketIndexLog
                  (instance_key (i_bucket_name s) (i_bucket_id s) (i_shard_id s))
                  (im_position (i_inc_marker s))) ;;
  if r <? 0 then CR.exit (cr_return r) else
  match pages with
  | [] => CR.exit cr_suspended
  | (status, result) :: pages' =>
      CR.resume status ;;;
      (if status <? 0 then CR.ret tt else CR.modify (i_set_list_result result)) ;;;
      rc <- CR.get_retcode ;;
      if (rc <? 0) && negb (rc =? - ENOENT) then
        CR.emit EvDrainAll ;;;
        CR.modify (i_on_children Children.drain_all) ;;;
        CR.set_cr_error rc
      else
      s <- CR.get ;;
      CR.for_each (i_list_result s) (inc_entry completed) ;;;
      s <- CR.get ;;
      match i_list_result s with
      | [] => CR.ret tt
      | _ :: _ => inc_pages completed pages'
      end
  end.

Definition inc_operate (completed : nat -> nat)
    (pages : list (Z * list rgw_bi_log_entry)) : MI unit :=
  inc_pages completed pages ;;;
  CR.emit EvDrainAll ;;;
  CR.modify (i_on_children Children.drain_all) ;;;
  CR.set_cr_done.

End BucketShard.

(** ** Driving one bucket shard through its phases *)

Module RunBucketSync.

Inductive event : Type :=
| EvReadBucketSyncStatus (oid : string)
| EvGetBucketInstanceInfo (bucket_name bucket_id : string)
| EvInitBucketShardSyncStatus (source_zone bucket_name bucket_id : string) (shard_id : Z)
| EvBucketShardFullSync (full_marker : rgw_bucket_shard_full_sync_marker)
| EvBucketShardIncrementalSync (inc_marker : rgw_bucket_shard_inc_sync_marker).

Record RGWRunBucketSyncCoroutine : Type := RunCR {
  source_zone : string;
  bucket_name : string;
  bucket_id : string;
  shard_id : Z;
  sync_status : rgw_bucket_shard_sync_info
}.

Definition new (source_zone bucket_name bucket_id : string) (shard_id : Z)
    : RGWRunBucketSyncCoroutine :=
  RunCR source_zone bucket_name bucket_id shard_id rgw_bucket_shard_sync_info_default.

Definition set_sync_status (st : rgw_bucket_shard_sync_info)
    (c : RGWRunBucketSyncCoroutine) :=
  RunCR (source_zone c) (bucket_name c) (bucket_id c) (shard_id c) st.

Definition set_state (st : bucket_sync_state) (c : RGWRunBucketSyncCoroutine) :=
  set_sync_status (BucketSyncInfo st (bs_full_marker (sync_status c))
                                  (bs_inc_marker (sync_status c))) c.

Definition state_eqb (a b : bucket_sync_state) : bool :=
  match a, b with
  | BStateInit, BStateInit
  | BStateFullSync, BStateFullSync
  | BStateIncrementalSync, BStateIncrementalSync => true
  | _, _ => false
  end.

(** The statuses delivered to one run; [e_status] is what the status read
    stored in [sync_status] when it completed without error. *)
Record env : Type := Env {
  e_read : Z;
  e_status : rgw_bucket_shard_sync_info;
  e_bucket_info : Z;
  e_init : Z;
  e_full : Z;
  e_inc : Z
}.

Abbreviation M := (CR.t RGWRunBucketSyncCoroutine event).

(** [operate()]: read the status, read the bucket instance info, and run
    the phases that the state asks for, one after the other. *)
Definition operate (e : env) : M unit :=
  c <- CR.get ;;
  r <- CR.call (EvReadBucketSyncStatus
                  (RGWBucketSyncStatusManager.status_oid
                     (source_zone c) (bucket_name c) (bucket_id c) (shard_id c))) ;;
  (if r <? 0 then CR.exit (cr_return r) else CR.ret tt) ;;;
  CR.resume (e_read e) ;;;
  (if e_read e <? 0 then CR.ret tt else CR.modify (set_sync_status (e_status e))) ;;;
  rc <- CR.get_retcode ;;
  (if (rc <? 0) && negb (rc =? - ENOENT) then CR.set_cr_error rc else CR.ret tt) ;;;
  r <- CR.call (EvGetBucketInstanceInfo (bucket_name c) (bucket_id c)) ;;
  (if r <? 0 then CR.exit (cr_return r) else CR.ret tt) ;;;
  CR.resume (e_bucket_info e) ;;;
  rc <- CR.get_retcode ;;
  (if rc <? 0 then CR.set_cr_error rc else CR.ret tt) ;;;
  c <- CR.get ;;
  (if state_eqb (bs_state (sync_status c)) BStateInit then
     r <- CR.call (EvInitBucketShardSyncStatus (source_zone c) (bucket_name c)
                                               (bucket_id c) (shard_id c)) ;;
     (if r <? 0 then CR.exit (cr_return r) else CR.ret tt) ;;;
     CR.modify (set_state BStateFullSync) ;;;
     CR.resume (e_init e)
   else CR.ret tt) ;;;
  rc <- CR.get_retcode ;;
  (if rc <? 0 then CR.set_cr_error rc else CR.ret tt) ;;;
  c <- CR.get ;;
  (if state_eqb (bs_state (sync_status c)) BStateFullSync then
     r <- CR.call (EvBucketShardFullSync (bs_full_marker (sync_status c))) ;;
     (if r <? 0 then CR.exit (cr_return r) else CR.ret tt) ;;;
     CR.modify (set_state BStateIncrementalSync) ;;;
     CR.resume (e_full e)
   else CR.ret tt) ;;;
  rc <- CR.get_retcode ;;
  (if rc <? 0 then CR.set_cr_error rc else CR.ret tt) ;;;
  c <- CR.get ;;
  (if state_eqb (bs_state (sync_status c)) BStateIncrementalSync then
     r <- CR.call (EvBucketShardIncrementalSync (bs_inc_marker (sync_status c))) ;;
     (if r <? 0 then CR.exit (cr_return r) else CR.ret tt) ;;;
     CR.resume (e_inc e)
   else CR.ret tt) ;;;
  rc <- CR.get_retcode ;;
  (if rc <? 0 then CR.set_cr_error rc else CR.ret tt) ;;;
  CR.set_cr_done.

End RunBucketSync.

(** ** An instance of [strict_strtol] for the examples *)

Definition is_digit (c : ascii) : bool :=
  let n := N_of_ascii c in (48 <=? n)%N && (n <=? 57)%N.

Fixpoint digits_value (s : string) (acc : Z) : option Z :=
  match s with
  | EmptyString => Some acc
  | String c s' =>
      if is_digit c
      then digits_value s' (10 * acc + Z.of_N (N_of_ascii c) - 48)
      else None
  end.

(** A base-10 reader with the interface of [strict_strtol]: an optional
    minus sign followed by digits gives the value and an empty error; any
    other text, or a value outside the range of [int], gives 0 and an error
    text. *)
Definition strtol_dec (s : string) : Z * string :=
  let '(neg, body) :=
    match s with
    | String "-" s' => (true, s')
    | _ => (false, s)
    end in
  match body with
  | EmptyString => (0, "Expected option value to be integer")
  | _ =>
      match digits_value body 0 with
      | None => (0, "The option value seems to be invalid")
      | Some v =>
          let v := if neg then - v else v in
          if (v <=? - 2 ^ 31) || (2 ^ 31 - 1 <=? v)
          then (0, "The option value seems to be invalid")
          else (v, "")
      end
  end.

(** ** Specifications of monadic code *)

(** [triple P m Q X]: started in a context satisfying [P], the program [m]
    either continues with a value and a context related by [Q], or leaves
    the coroutine in a context satisfying [X]. *)
Definition triple {S E A : Type} (P : CR.ctx S E -> Prop) (m : CR.t S E A)
    (Q : A -> CR.ctx S E -> Prop) (X : cr_exit -> CR.ctx S E -> Prop) : Prop :=
  forall c, P c ->
    match m c with
    | (inl a, c') => Q a c'
    | (inr e, c') => X e c'
    end.

(** The events of a datalog shard that neither drain the children nor
    write the shard marker. *)
Definition pumping (e : DataSyncShard.event) : bool :=
  match e with
  | DataSyncShard.EvGetOmapKeys _ _ _ | DataSyncShard.EvSpawnSingleEntry _ _ => true
  | _ => false
  end.

(** The spawn bound that the bucket-shard loops keep at every point. *)
Definition within (bound : nat) (c : Children.t) : Prop :=
  Forall (fun n => (n <= bound)%nat) (Children.hist c).


(** What the full-sync loop of a datalog shard leaves untouched: the
    identity of the shard and all of its marker but [state] and [marker]. *)
Definition same_shard (s0 s : DataSyncShard.RGWDataSyncShardCR) : Prop :=
  DataSyncShard.source_zone s = DataSyncShard.source_zone s0 /\
  DataSyncShard.shard_id s = DataSyncShard.shard_id s0 /\
  DataSyncShard.to_incremental (DataSyncShard.sync_marker s) =
    DataSyncShard.to_incremental (DataSyncShard.sync_marker s0).

(** The state of the full-sync loop between two keys: the last status was
    not an error, and so far the shard has only read pages and spawned
    workers. *)
Definition pumping_state (s0 : DataSyncShard.RGWDataSyncShardCR)
    (c : CR.ctx DataSyncShard.RGWDataSyncShardCR DataSyncShard.event) : Prop :=
  0 <= CR.retcode c /\ forallb pumping (CR.trace c) = true /\ same_shard s0 (CR.self c).

(** The state of a bucket-shard loop between two entries: at most
    [window] children are uncollected, and there never were more than
    [window + 1]. *)
Definition throttled (window : nat) (c : Children.t) : Prop :=
  (Children.num_spawned c <= window)%nat /\ within (Datatypes.S window) c.

(** [keeps J XJ m]: the program [m] keeps the property [J] of the members
    of the coroutine, and leaves them with [XJ] when it exits. *)
Definition keeps {S E A : Type} (J XJ : S -> Prop) (m : CR.t S E A) : Prop :=
  triple (fun c => J (CR.self c)) m
         (fun _ c => J (CR.self c)) (fun _ c => XJ (CR.self c)).

(** The spawn window of the two bucket-shard loops between two entries. *)
Definition full_window (s : BucketShard.RGWBucketShardFullSyncCR) : Prop :=
  BucketShard.f_spawn_window s = BUCKET_SYNC_SPAWN_WINDOW /\
  throttled 20 (BucketShard.f_children s).

Definition inc_window (s : BucketShard.RGWBucketShardIncrementalSyncCR) : Prop :=
  BucketShard.i_spawn_window s = BUCKET_SYNC_SPAWN_WINDOW /\
  throttled 20 (BucketShard.i_children s).

(** ** Reading the status of a bucket shard back *)

(** [decode_attr] for the three attributes.  An attribute that is missing
    gives the default-constructed value.  Otherwise [::decode] reads from
    the front of the buffer; on an empty buffer, or on one that does not
    begin with an encoding of the expected type, it throws, the error is
    logged and the value is left as it was. *)
Definition decode_state_attr (attrs : gmap string bufferlist)
    (val : bucket_sync_state) : bucket_sync_state :=
  match attrs !! "state" with
  | None => BStateInit
  | Some (AttrState s :: _) => s
  | Some _ => val
  end.

Definition decode_full_marker_attr (attrs : gmap string bufferlist)
    (val : rgw_bucket_shard_full_sync_marker) : rgw_bucket_shard_full_sync_marker :=
  match attrs !! "full_marker" with
  | None => FullMarker (ObjKey "" "") 0
  | Some (AttrFullMarker m :: _) => m
  | Some _ => val
  end.

Definition decode_inc_marker_attr (attrs : gmap string bufferlist)
    (val : rgw_bucket_shard_inc_sync_marker) : rgw_bucket_shard_inc_sync_marker :=
  match attrs !! "inc_marker" with
  | None => IncMarker ""
  | Some (AttrIncMarker m :: _) => m
  | Some _ => val
  end.

(** [rgw_bucket_shard_sync_info::decode_from_attrs] *)
Definition decode_from_attrs (attrs : gmap string bufferlist)
    (st : rgw_bucket_shard_sync_info) : rgw_bucket_shard_sync_info :=
  BucketSyncInfo (decode_state_attr attrs (bs_state st))
                 (decode_full_marker_attr attrs (bs_full_marker st))
                 (decode_inc_marker_attr attrs (bs_inc_marker st)).

(** Modelled from the spec: [RGWSimpleRadosWriteAttrsCR] (rgw_cr_rados.h) is
    not part of the file.  The parts of the status are distinct extended
    attributes of the status object, so a write replaces the attributes it
    names and leaves the others of the object as they are. *)
Definition set_attrs (written stored : gmap string bufferlist) : gmap string bufferlist :=
  written ∪ stored.

(** Modelled from the spec: the attributes of the object after a write that
    ended with [status]; a write that failed has changed nothing. *)
Definition attrs_after_write (status : Z) (written stored : gmap string bufferlist)
    : gmap string bufferlist :=
  if status <? 0 then stored else set_attrs written stored.

Module ReadBucketSyncStatus.

Inductive event : Type :=
| EvReadAttrs (oid : string).

Record RGWReadBucketSyncStatusCoroutine : Type := ReadCR {
  oid : string;
  status : rgw_bucket_shard_sync_info;
  attrs : gmap string bufferlist
}.

(** The constructor; [status] is the caller's object that the coroutine
    fills in. *)
Definition new (source_zone bucket_name bucket_id : string) (shard_id : Z)
    (status : rgw_bucket_shard_sync_info) : RGWReadBucketSyncStatusCoroutine :=
  ReadCR (RGWBucketSyncStatusManager.status_oid source_zone bucket_name bucket_id shard_id)
         status ∅.

Definition set_status (st : rgw_bucket_shard_sync_info)
    (c : RGWReadBucketSyncStatusCoroutine) :=
  ReadCR (oid c) st (attrs c).

Definition set_read_attrs (a : gmap string bufferlist)
    (c : RGWReadBucketSyncStatusCoroutine) :=
  ReadCR (oid c) (status c) a.

(** [operate()]; [read_status] is the status of the attribute read and
    [stored] the attributes of the object, which the read stores in [attrs]
    when it succeeds. *)
Definition operate (read_status : Z) (stored : gmap string bufferlist)
    : CR.t RGWReadBucketSyncStatusCoroutine event unit :=
  c <- CR.get ;;
  ret <- CR.call (EvReadAttrs (oid c)) ;;
  (if ret <? 0 then CR.set_cr_error ret else CR.ret tt) ;;;
  CR.resume read_status ;;;
  (if read_status <? 0 then CR.ret tt else CR.modify (set_read_attrs stored)) ;;;
  rc <- CR.get_retcode ;;
  if rc =? - ENOENT then
    CR.modify (set_status rgw_bucket_shard_sync_info_default) ;;;
    CR.set_cr_done
  else if rc <? 0 then CR.set_cr_error rc
  else
    CR.modify (fun c => set_status (decode_from_attrs (attrs c) (status c)) c) ;;;
    CR.set_cr_done.

End ReadBucketSyncStatus.

(** ** The marker writes of the trackers *)

(** [RGWDataSyncShardMarkerTrack::store_marker]: the marker of the tracker
    after the call; it is the value that goes into the write. *)
Definition data_store_marker (new_marker : string) (index_pos timestamp : Z)
    (sync_marker : rgw_data_sync_marker) : rgw_data_sync_marker :=
  DataSyncMarker (dsm_state sync_marker) new_marker (dsm_next_step_marker sync_marker)
                 (dsm_total_entries sync_marker) index_pos (dsm_timestamp sync_marker).

(** [RGWBucketFullSyncShardMarkerTrack::store_marker]: the marker of the
    tracker after the call and the attributes that are written. *)
Definition full_store_marker (new_marker : rgw_obj_key) (index_pos timestamp : Z)
    (sync_marker : rgw_bucket_shard_full_sync_marker)
    : rgw_bucket_shard_full_sync_marker * gmap string bufferlist :=
  let m := FullMarker new_marker index_pos in
  (m, full_marker_encode_attr m ∅).

(** [RGWBucketIncSyncShardMarkerTrack::store_marker] *)
Definition inc_store_marker (new_marker : string) (index_pos timestamp : Z)
    (sync_marker : rgw_bucket_shard_inc_sync_marker)
    : rgw_bucket_shard_inc_sync_marker * gmap string bufferlist :=
  let m := IncMarker new_marker in
  (m, inc_marker_encode_attr m ∅).

(** ** The phases of a datalog shard, one after the other *)

Module DataSyncShardRun.

(** [RGWDataSyncShardCR::operate()] chooses the phase by the state of the
    marker each time the coroutine is resumed.  Full sync yields with the
    write of the marker that switches the state, so the resumption after
    that write enters [incremental_sync()]; the test of [retcode] that
    follows the write in [full_sync()] is not reached. *)
Definition operate (pages : list (Z * list string)) (write_status : Z)
    (rounds : list DataSyncShard.round)
    : CR.t DataSyncShard.RGWDataSyncShardCR DataSyncShard.event unit :=
  s <- CR.get ;;
  match dsm_state (DataSyncShard.sync_marker s) with
  | FullSync =>
      CR.modify (DataSyncShard.set_oid
                   (full_data_sync_index_shard_oid (DataSyncShard.source_zone s)
                                                   (DataSyncShard.shard_id s))) ;;;
      CR.modify (DataSyncShard.set_marker_tracker MarkerTrack.empty) ;;;
      CR.modify (DataSyncShard.set_total_entries
                   (DataSyncShard.to_int (dsm_pos (DataSyncShard.sync_marker s)))) ;;;
      DataSyncShard.full_sync_pages pages ;;;
      CR.emit DataSyncShard.EvDrainAll ;;;
      CR.modify (fun s => DataSyncShard.set_sync_marker
                            (DataSyncShard.to_incremental (DataSyncShard.sync_marker s)) s) ;;;
      s <- CR.get ;;
      CR.call (DataSyncShard.EvWriteMarker
                 (RGWDataSyncStatusManager.shard_obj_name (DataSyncShard.source_zone s)
                                                          (DataSyncShard.shard_id s))
                 (DataSyncShard.sync_marker s)) ;;;
      CR.resume write_status ;;;
      DataSyncShard.incremental_sync rounds
  | IncrementalSync => DataSyncShard.incremental_sync rounds
  end.

End DataSyncShardRun.

(** ** Reading traces *)

(** The workers a datalog shard has spawned, as (key, entry marker), oldest
    first. *)
Fixpoint spawned_entries (tr : list DataSyncShard.event) : list (string * string) :=
  match tr with
  | [] => []
  | DataSyncShard.EvSpawnSingleEntry k m :: tr' => (k, m) :: spawned_entries tr'
  | _ :: tr' => spawned_entries tr'
  end.

(** The workers a bucket shard has spawned, oldest first. *)
Fixpoint spawned_workers {T : Type} (tr : list (BucketShard.event T))
    : list (BucketSingleEntry.RGWBucketSyncSingleEntryCR T) :=
  match tr with
  | [] => []
  | BucketShard.EvSpawnSingleEntry w :: tr' => w :: spawned_workers tr'
  | _ :: tr' => spawned_workers tr'
  end.

(** The two indexes of a tracker are inverse to each other. *)
Definition indexes_inverse (mt : MarkerTrack.RGWDataSyncShardMarkerTrack) : Prop :=
  forall k m,
    MarkerTrack.key_to_marker mt !! k = Some m <->
    MarkerTrack.marker_to_key mt !! m = Some k.

(** [contains c s]: the character occurs in the string. *)
Fixpoint contains (c : ascii) (s : string) : bool :=
  match s with
  | EmptyString => false
  | String a s' => Ascii.eqb a c || contains c s'
  end.

(** What the page loop of full sync leaves as it was: the index object,
    the identity of the shard and all of its marker but [state] and
    [marker]. *)
Definition full_sync_frame
    (c c' : CR.ctx DataSyncShard.RGWDataSyncShardCR DataSyncShard.event) : Prop :=
  DataSyncShard.oid (CR.self c') = DataSyncShard.oid (CR.self c) /\
  DataSyncShard.source_zone (CR.self c') = DataSyncShard.source_zone (CR.self c) /\
  DataSyncShard.shard_id (CR.self c') = DataSyncShard.shard_id (CR.self c) /\
  DataSyncShard.to_incremental (DataSyncShard.sync_marker (CR.self c')) =
    DataSyncShard.to_incremental (DataSyncShard.sync_marker (CR.self c)).

(** What the loops of bucket-shard full sync leave as they were: the
    identity of the shard and the spawn window. *)
Definition same_full_shard (s s' : BucketShard.RGWBucketShardFullSyncCR) : Prop :=
  BucketShard.f_source_zone s' = BucketShard.f_source_zone s /\
  BucketShard.f_bucket_name s' = BucketShard.f_bucket_name s /\
  BucketShard.f_bucket_id s' = BucketShard.f_bucket_id s /\
  BucketShard.f_shard_id s' = BucketShard.f_shard_id s /\
  BucketShard.f_spawn_window s' = BucketShard.f_spawn_window s.

(** The same for bucket-shard incremental sync. *)
Definition same_inc_shard (s s' : BucketShard.RGWBucketShardIncrementalSyncCR) : Prop :=
  BucketShard.i_source_zone s' = BucketShard.i_source_zone s /\
  BucketShard.i_bucket_name s' = BucketShard.i_bucket_name s /\
  BucketShard.i_bucket_id s' = BucketShard.i_bucket_id s /\
  BucketShard.i_shard_id s' = BucketShard.i_shard_id s /\
  BucketShard.i_spawn_window s' = BucketShard.i_spawn_window s.

(** * Properties *)

Local Open Scope list_scope.

(** [cr_unfold] unfolds a run of monadic code; [cr_cases] splits on every
    test that is left in the goal. *)
Ltac cr_unfold :=
  unfold CR.run, CR.bind, CR.get, CR.put, CR.modify, CR.call, CR.spawn, CR.emit,
    CR.ret, CR.exit, CR.set_cr_done, CR.set_cr_error, CR.resume, CR.get_retcode,
    CR.init; simpl.

Ltac cr_cases :=
  repeat (simpl;
          match goal with
          | |- context [if ?b then _ else _] => destruct b eqn:?
          end);
  simpl.

(** ** The wake-up bridge *)

Lemma datasync_wakeup_unregistered shard_id keys (cr : DataSync.RGWDataSyncCR) :
  DataSync.shard_crs cr !! shard_id = None ->
  DataSync.wakeup shard_id keys cr = cr.
Proof. intros H. unfold DataSync.wakeup. now rewrite H. Qed.

(** C10: [wakeup] called while no data-sync coroutine is running, or for a
    shard id that is not in [shard_crs], leaves the whole state as it was:
    no [modified_shards] set changes and no shard is signalled. *)
Theorem wakeup_without_target_changes_nothing
    (rl : RemoteDataLog.RGWRemoteDataLog) (shard_id : Z) (keys : gset string) :
  RemoteDataLog.data_sync_cr rl = None \/
  (exists cr, RemoteDataLog.data_sync_cr rl = Some cr /\
              DataSync.shard_crs cr !! shard_id = None) ->
  RemoteDataLog.wakeup shard_id keys rl = rl.
Proof.
  intros [Hnone | (cr & Hcr & Hshard)]; destruct rl as [zone dcr]; simpl in *.
  - subst dcr. reflexivity.
  - subst dcr. unfold RemoteDataLog.wakeup. simpl.
    now rewrite (datasync_wakeup_unregistered _ _ _ Hshard).
Qed.

Lemma wakeup_without_target_changes_nothing_witness :
  let shard := DataSyncShard.new "us-east" 2 rgw_data_sync_marker_default in
  let rl := RemoteDataLog.RemoteLog "us-east"
              (Some (DataSync.DataSyncCR {[ 2 := shard ]})) in
  RemoteDataLog.wakeup 7 {[ "b2:B:0" ]} rl = rl.
Proof.
  intros shard rl.
  apply (wakeup_without_target_changes_nothing rl 7 {[ "b2:B:0" ]}).
  right. exists (DataSync.DataSyncCR {[ 2 := shard ]}).
  split; [reflexivity | vm_compute; reflexivity].
Defined.

(** A registered shard does receive the keys and the signal. *)
Lemma wakeup_registered_shard shard_id keys zone cr s :
  DataSync.shard_crs cr !! shard_id = Some s ->
  RemoteDataLog.wakeup shard_id keys (RemoteDataLog.RemoteLog zone (Some cr)) =
  RemoteDataLog.RemoteLog zone
    (Some (DataSync.DataSyncCR
             (<[shard_id := DataSyncShard.wakeup
                              (DataSyncShard.append_modified_shards keys s)]>
                (DataSync.shard_crs cr)))).
Proof. intros H. unfold RemoteDataLog.wakeup, DataSync.wakeup. simpl. now rewrite H. Qed.

(** ** The absent zone status *)

(** C9: when the read of the zone status returns [-ENOENT], [run_sync]
    runs the initialisation; the value it returns is the failure of the
    initialisation, or else what running the sync gives, never the
    [-ENOENT] of the read.  [handle_data] passes [-ENOENT] on without
    spawning the per-shard reads. *)
Theorem run_sync_absent_status_initialises
    (num_shards r_init r_sync : Z) (rl : RemoteDataLog.RGWRemoteDataLog)
    (data : rgw_data_sync_info) :
  let zone := RemoteDataLog.source_zone rl in
  RemoteDataLog.run_sync num_shards (- ENOENT) r_init r_sync rl =
    (if r_init <? 0 then
       (r_init,
        [RemoteDataLog.RunReadDataSyncStatus zone;
         RemoteDataLog.RunInitDataSyncStatus zone num_shards],
        rl)
     else if r_sync <? 0 then
       (r_sync,
        [RemoteDataLog.RunReadDataSyncStatus zone;
         RemoteDataLog.RunInitDataSyncStatus zone num_shards;
         RemoteDataLog.RunDataSync zone],
        RemoteDataLog.RemoteLog zone (Some DataSync.new))
     else
       (0,
        [RemoteDataLog.RunReadDataSyncStatus zone;
         RemoteDataLog.RunInitDataSyncStatus zone num_shards;
         RemoteDataLog.RunDataSync zone],
        RemoteDataLog.RemoteLog zone None))
  /\ RemoteDataLog.handle_data zone (- ENOENT) data = (- ENOENT, []).
Proof.
  intros zone. split.
  - unfold RemoteDataLog.run_sync. rewrite Z.eqb_refl. fold zone.
    destruct (r_init <? 0); [reflexivity |].
    destruct (r_sync <? 0); reflexivity.
  - unfold RemoteDataLog.handle_data. now rewrite Z.eqb_refl.
Qed.

(** Any other failure of the read is returned as it is, without
    initialising. *)
Lemma run_sync_read_failure num_shards r_read r_init r_sync rl :
  r_read < 0 -> r_read <> - ENOENT ->
  RemoteDataLog.run_sync num_shards r_read r_init r_sync rl =
    (r_read, [RemoteDataLog.RunReadDataSyncStatus (RemoteDataLog.source_zone rl)], rl).
Proof.
  intros Hneg Hne. unfold RemoteDataLog.run_sync.
  destruct (r_read =? - ENOENT) eqn:E; [apply Z.eqb_eq in E; contradiction |].
  apply Z.ltb_lt in Hneg. now rewrite Hneg.
Qed.

(** ** The bucket single-entry worker *)

Lemma is_empty_false (s : string) : s <> "" -> is_empty s = false.
Proof. intros H. unfold is_empty. now apply String.eqb_neq. Qed.

(** C2: a worker whose operation is Add and whose key carries a version
    instance other than the empty one and "null" issues no fetch and ends
    with [set_cr_done()]; it returns from inside the first block, so the
    call of [finish] on its entry marker is not reached either. *)
Theorem versioned_add_returns_before_finish {T : Type}
    (w : BucketSingleEntry.RGWBucketSyncSingleEntryCR T)
    (transfer_status finish_status : Z) :
  BucketSingleEntry.op w = CLS_RGW_OP_ADD ->
  ok_instance (BucketSingleEntry.key w) <> "" ->
  ok_instance (BucketSingleEntry.key w) <> "null" ->
  CR.run (BucketSingleEntry.operate transfer_status finish_status) w = (cr_done, [], w).
Proof.
  intros Hop Hne Hnull.
  unfold CR.run, BucketSingleEntry.operate, CR.bind, CR.get, CR.init. simpl.
  rewrite Hop. simpl.
  rewrite (is_empty_false _ Hne).
  apply String.eqb_neq in Hnull. rewrite Hnull. reflexivity.
Qed.

Lemma versioned_add_returns_before_finish_witness :
  let w := BucketSingleEntry.new "us-east" 0 (ObjKey "o" "v1") 3 1000
                                 CLS_RGW_OP_ADD (ObjKey "o" "v1") in
  CR.run (BucketSingleEntry.operate 0 0) w = (cr_done, [], w).
Proof.
  intros w.
  apply (versioned_add_returns_before_finish w 0 0);
    [reflexivity | discriminate | discriminate].
Defined.

(** On every other path of the worker the marker is finished: an
    unversioned Add fetches and then finishes. *)
Lemma plain_add_fetches_and_finishes {T : Type}
    (w : BucketSingleEntry.RGWBucketSyncSingleEntryCR T) :
  BucketSingleEntry.op w = CLS_RGW_OP_ADD ->
  ok_instance (BucketSingleEntry.key w) = "" ->
  BucketSingleEntry.sync_status w = 0 ->
  CR.run (BucketSingleEntry.operate 0 0) w =
    (cr_done,
     [BucketSingleEntry.EvFetchRemoteObj (BucketSingleEntry.source_zone w)
        (BucketSingleEntry.key w) (BucketSingleEntry.versioned_epoch w) true;
      BucketSingleEntry.EvFinish (BucketSingleEntry.entry_marker w)],
     w).
Proof.
  intros Hop Hinst Hst.
  unfold CR.run, BucketSingleEntry.operate, CR.bind, CR.get, CR.init. simpl.
  rewrite Hop, Hinst. simpl. rewrite Hst. simpl.
  destruct w; simpl in *. subst. reflexivity.
Qed.

(** Full sync itself never starts a worker on the skipping path: it turns
    every versioned key into a LinkOLH. *)
Lemma full_worker_add_is_unversioned s entry :
  BucketSingleEntry.op (BucketShard.full_worker s entry) = CLS_RGW_OP_ADD ->
  ok_instance (le_key entry) = "" \/ ok_instance (le_key entry) = "null".
Proof.
  unfold BucketShard.full_worker. simpl.
  destruct (is_empty (ok_instance (le_key entry))) eqn:E1; simpl.
  - intros _. left. unfold is_empty in E1. now apply String.eqb_eq in E1.
  - destruct (String.eqb (ok_instance (le_key entry)) "null") eqn:E2.
    + intros _. right. now apply String.eqb_eq in E2.
    + discriminate.
Qed.

Lemma i_throttle_extends fuel completed
    (c : CR.ctx BucketShard.RGWBucketShardIncrementalSyncCR (BucketShard.event string)) :
  exists rest,
    CR.trace (snd (BucketShard.i_throttle fuel completed c)) = CR.trace c ++ rest.
Proof.
  revert c. induction fuel as [| fuel IH]; intros c; simpl.
  - cr_unfold. destruct (_ <? _); simpl; exists []; now rewrite app_nil_r.
  - unfold CR.bind at 1. unfold CR.get at 1.
    destruct (_ <? _).
    + unfold CR.bind at 1. unfold CR.emit at 1.
      unfold CR.bind at 1. unfold CR.modify at 1. cbv beta iota.
      match goal with
      | |- context [BucketShard.i_throttle fuel completed ?c1] =>
          destruct (IH c1) as [rest Hrest]; rewrite Hrest
      end.
      simpl. eexists. now rewrite <- app_assoc.
    + exists []. simpl. now rewrite app_nil_r.
Qed.

Lemma inc_entry_spawns_inc_worker completed entry
    (c : CR.ctx BucketShard.RGWBucketShardIncrementalSyncCR (BucketShard.event string)) :
  exists rest,
    CR.trace (snd (BucketShard.inc_entry completed entry c)) =
      CR.trace c ++
      [BucketShard.EvStart (bi_id entry) 0 (bi_timestamp entry);
       BucketShard.EvSpawnSingleEntry (BucketShard.inc_worker (CR.self c) entry)] ++ rest.
Proof.
  unfold BucketShard.inc_entry.
  unfold CR.bind at 1. unfold CR.get at 1.
  unfold CR.bind at 1. unfold CR.emit at 1.
  unfold CR.bind at 1. unfold CR.modify at 1.
  unfold CR.bind at 1. unfold CR.spawn, CR.emit at 1.
  unfold CR.bind at 1. unfold CR.modify at 1.
  unfold CR.bind at 1. unfold CR.get at 1. cbv beta iota.
  match goal with
  | |- context [BucketShard.i_throttle ?f completed ?c1] =>
      destruct (i_throttle_extends f completed c1) as [rest Hrest]; rewrite Hrest
  end.
  simpl. exists rest. now rewrite <- !app_assoc.
Qed.

(** C8: for a bucket-index-log entry, incremental sync starts the marker
    and spawns a worker whose [versioned_epoch] is [ver.epoch] when
    [ver.pool < 0] and 0 otherwise; for a Delete entry that worker issues
    the removal with that epoch and then finishes the entry's marker. *)
Theorem inc_worker_versioned_epoch_and_delete
    (c : CR.ctx BucketShard.RGWBucketShardIncrementalSyncCR (BucketShard.event string))
    (entry : rgw_bi_log_entry) (completed : nat -> nat)
    (transfer_status finish_status : Z) :
  let w := BucketShard.inc_worker (CR.self c) entry in
  (exists rest,
     CR.trace (snd (BucketShard.inc_entry completed entry c)) =
       CR.trace c ++
       [BucketShard.EvStart (bi_id entry) 0 (bi_timestamp entry);
        BucketShard.EvSpawnSingleEntry w] ++ rest)
  /\ BucketSingleEntry.versioned_epoch w =
       (if ver_pool (bi_ver entry) <? 0 then ver_epoch (bi_ver entry) else 0)
  /\ (bi_op entry = CLS_RGW_OP_DEL ->
      snd (fst (CR.run (BucketSingleEntry.operate transfer_status finish_status) w)) =
        [BucketSingleEntry.EvRemoveObj (BucketShard.i_source_zone (CR.self c))
           (ObjKey (bi_object entry) (bi_instance entry))
           (BucketSingleEntry.versioned_epoch w) (bi_timestamp entry);
         BucketSingleEntry.EvFinish (bi_id entry)]).
Proof.
  intros w. split; [apply inc_entry_spawns_inc_worker |].
  split; [reflexivity |].
  intros Hop.
  unfold CR.run, BucketSingleEntry.operate, CR.bind, CR.get, CR.init. simpl.
  rewrite Hop. cr_cases; reflexivity.
Qed.

Lemma inc_worker_versioned_epoch_and_delete_witness :
  let s := BucketShard.new_inc "us-east" "b1" "inst-A" 0 (IncMarker "") in
  let entry := BiLogEntry "00000123.1" "o" "v1" 1000 (EntryVer (-1) 7) CLS_RGW_OP_DEL in
  snd (fst (CR.run (BucketSingleEntry.operate 0 0) (BucketShard.inc_worker s entry))) =
    [BucketSingleEntry.EvRemoveObj "us-east" (ObjKey "o" "v1") 7 1000;
     BucketSingleEntry.EvFinish "00000123.1"].
Proof.
  intros s entry.
  exact (proj2 (proj2 (inc_worker_versioned_epoch_and_delete
                         (CR.init s) entry (fun _ => 1%nat) 0 0)) eq_refl).
Defined.

(** ** Rules for specifications of monadic code *)

Section TripleRules.
Context {S E : Type}.
Implicit Types (P : CR.ctx S E -> Prop) (X : cr_exit -> CR.ctx S E -> Prop).

Lemma triple_ret {A} (a : A) (Q : A -> CR.ctx S E -> Prop) X :
  triple (Q a) (CR.ret a) Q X.
Proof. intros c H. exact H. Qed.

Lemma triple_bind {A B} P (m : CR.t S E A) (k : A -> CR.t S E B)
    (R : A -> CR.ctx S E -> Prop) (Q : B -> CR.ctx S E -> Prop) X :
  triple P m R X -> (forall a, triple (R a) (k a) Q X) -> triple P (CR.bind m k) Q X.
Proof.
  intros Hm Hk c Hc. unfold CR.bind. specialize (Hm c Hc).
  destruct (m c) as [[a | e] c']; [exact (Hk a c' Hm) | exact Hm].
Qed.

Lemma triple_for_each {A} (I : CR.ctx S E -> Prop) (l : list A)
    (body : A -> CR.t S E unit) X :
  (forall a, In a l -> triple I (body a) (fun _ => I) X) ->
  triple I (CR.for_each l body) (fun _ => I) X.
Proof.
  induction l as [| a l IH]; intros Hbody; simpl.
  - apply (triple_ret tt (fun _ => I)).
  - eapply triple_bind.
    + apply Hbody. now left.
    + intros u. apply IH. intros b Hb. apply Hbody. now right.
Qed.

End TripleRules.

(** ** Loops that only spawn or only collect *)

Lemma for_each_spawn {S E A : Type} (f : A -> E) (l : list A) (c : CR.ctx S E) :
  CR.for_each l (fun a => CR.spawn (f a)) c =
    (inl tt, CR.Ctx (CR.retcode c) (CR.trace c ++ map f l) (CR.self c)).
Proof.
  revert c. induction l as [| a l IH]; intros c; simpl.
  - rewrite app_nil_r. now destruct c.
  - unfold CR.bind. unfold CR.spawn at 1. unfold CR.emit. rewrite IH. simpl.
    now rewrite <- app_assoc.
Qed.

Lemma collect_loop_eq (rets : list Z)
    (c : CR.ctx InitDataSyncStatus.RGWInitDataSyncStatusCoroutine InitDataSyncStatus.event) :
  InitDataSyncStatus.collect_loop rets c =
    (if existsb (fun r => r <? 0) rets then inr cr_state_error else inl tt, c).
Proof.
  induction rets as [| r rets IH]; simpl; [reflexivity |].
  destruct (r <? 0); simpl; [reflexivity | exact IH].
Qed.

(** ** The lock cookie of the two initialisations *)

(** C4: both initialisations take the lock for 30 seconds, but with the
    empty cookie, whatever random text was generated: the constructors
    assign the text to a local variable, and the member that [operate()]
    passes to the lock stays empty. *)
Theorem init_lock_cookie_is_empty
    (zone bucket_name bucket_id buf : string) (num_shards shard_id : Z)
    (ze : InitDataSyncStatus.env) (be : InitBucketShardSyncStatus.env) :
  let zc := InitDataSyncStatus.new zone num_shards buf in
  let bc := InitBucketShardSyncStatus.new zone bucket_name bucket_id shard_id buf in
  InitDataSyncStatus.cookie zc = ""
  /\ InitBucketShardSyncStatus.cookie bc = ""
  /\ head (snd (fst (CR.run (InitDataSyncStatus.operate ze) zc))) =
       Some (InitDataSyncStatus.EvLock
               (RGWDataSyncStatusManager.sync_status_oid zone) "sync_lock" "" 30)
  /\ head (snd (fst (CR.run (InitBucketShardSyncStatus.operate be) bc))) =
       Some (InitBucketShardSyncStatus.EvLock
               (RGWBucketSyncStatusManager.status_oid zone bucket_name bucket_id shard_id)
               "sync_lock" "" 30).
Proof.
  intros zc bc. repeat split.
  - unfold CR.run, InitDataSyncStatus.operate.
    unfold CR.bind, CR.get, CR.call, CR.emit, CR.ret, CR.resume, CR.get_retcode,
      CR.modify, CR.init, CR.set_cr_error, CR.set_cr_done, CR.exit.
    simpl.
    destruct (InitDataSyncStatus.e_write1 ze <? 0); simpl; [reflexivity |].
    rewrite for_each_spawn. simpl. rewrite collect_loop_eq. simpl.
    destruct (existsb _ (InitDataSyncStatus.e_collect1 ze)); simpl; [reflexivity |].
    rewrite for_each_spawn. simpl. rewrite collect_loop_eq. simpl.
    destruct (existsb _ (InitDataSyncStatus.e_collect2 ze)); reflexivity.
  - unfold InitBucketShardSyncStatus.operate. cr_unfold. cr_cases; reflexivity.
Qed.

(** The text that the constructor was given is as long as [COOKIE_LEN]; the
    cookie of the lock is not. *)
Lemma init_lock_cookie_example :
  let buf := "abcdefghijklmnop" in
  String.length buf = COOKIE_LEN /\
  String.length (InitDataSyncStatus.cookie (InitDataSyncStatus.new "us-east" 3 buf)) = 0%nat /\
  String.length (InitBucketShardSyncStatus.cookie
                   (InitBucketShardSyncStatus.new "us-east" "b1" "inst-A" 0 buf)) = 0%nat.
Proof. repeat split. Qed.

(** ** A datalog key that does not parse *)

(** [parse_bucket_shard] fails exactly when the key has a second colon
    whose tail [strict_strtol] rejects, and then with [-EINVAL]. *)
Lemma parse_bucket_shard_ret strict_strtol raw_key :
  SingleEntry.p_ret (SingleEntry.parse_bucket_shard strict_strtol raw_key) = 0 \/
  SingleEntry.p_ret (SingleEntry.parse_bucket_shard strict_strtol raw_key) = - EINVAL.
Proof.
  unfold SingleEntry.parse_bucket_shard.
  destruct (0 <=? _); [| now left].
  destruct (strict_strtol _) as [v err].
  destruct (negb (is_empty err)); [now right | now left].
Qed.

(** C3: when [parse_bucket_shard] fails on the key of a single-entry
    worker, the worker calls no bucket sync and finishes no marker, leaves
    the tracker as it was, and ends with the error [-EIO].  The error does
    not reach the shard that dispatched the key: in full sync and in
    incremental sync the shard's step for that key spawns the worker and
    goes on to the next key with its own status unchanged. *)
Theorem unparsable_key_fails_with_eio
    (strict_strtol : string -> Z * string)
    (w : SingleEntry.RGWDataSyncSingleEntryCR)
    (ds : list (SingleEntry.delivery)) (finish_status : Z) :
  SingleEntry.p_ret (SingleEntry.parse_bucket_shard strict_strtol (SingleEntry.raw_key w)) < 0 ->
  (let '(e, tr, w') := CR.run (SingleEntry.operate strict_strtol ds finish_status) w in
   e = cr_error (- EIO) /\ tr = [] /\
   SingleEntry.marker_tracker w' = SingleEntry.marker_tracker w /\
   SingleEntry.sync_status w' = SingleEntry.sync_status w)
  /\ (forall c : CR.ctx DataSyncShard.RGWDataSyncShardCR DataSyncShard.event,
        0 <= CR.retcode c ->
        exists c',
          DataSyncShard.full_sync_entry (SingleEntry.raw_key w) c = (inl tt, c') /\
          CR.trace c' = CR.trace c ++
            [DataSyncShard.EvSpawnSingleEntry (SingleEntry.raw_key w) (SingleEntry.raw_key w)] /\
          CR.retcode c' = CR.retcode c)
  /\ (forall meanwhile i entry
             (c : CR.ctx DataSyncShard.RGWDataSyncShardCR DataSyncShard.event),
        entry_key entry = SingleEntry.raw_key w ->
        0 <= CR.retcode c ->
        exists c',
          DataSyncShard.incremental_entry meanwhile (i, entry) c = (inl tt, c') /\
          CR.retcode c' = CR.retcode c).
Proof.
  intros Hneg. split; [| split].
  - apply Z.ltb_lt in Hneg.
    unfold CR.run, SingleEntry.operate, CR.bind.
    destruct ds as [| d ds]; simpl; unfold CR.bind, CR.get, CR.modify, CR.init; simpl;
      rewrite Hneg; simpl; auto.
  - intros c Hrc. apply Z.ltb_ge in Hrc.
    unfold DataSyncShard.full_sync_entry. cr_unfold. rewrite Hrc.
    eexists. split; [reflexivity |]. split; reflexivity.
  - intros meanwhile i entry c _ Hrc. apply Z.ltb_ge in Hrc.
    unfold DataSyncShard.incremental_entry, MarkerTrack.index_key_to_marker. cr_unfold.
    destruct (MarkerTrack.key_to_marker _ !! log_id entry); simpl.
    + eexists. split; reflexivity.
    + rewrite Hrc. eexists. split; reflexivity.
Qed.

Lemma unparsable_key_fails_with_eio_witness :
  let w := SingleEntry.new "us-east" "b1:A:x" "1_1" MarkerTrack.empty in
  SingleEntry.p_ret (SingleEntry.parse_bucket_shard strtol_dec "b1:A:x") = - EINVAL /\
  fst (fst (CR.run (SingleEntry.operate strtol_dec [] 0) w)) = cr_error (- EIO).
Proof.
  intros w. split; [reflexivity |].
  assert (Hneg : SingleEntry.p_ret
                   (SingleEntry.parse_bucket_shard strtol_dec (SingleEntry.raw_key w)) < 0)
    by (vm_compute; reflexivity).
  pose proof (proj1 (unparsable_key_fails_with_eio strtol_dec w [] 0 Hneg)) as H.
  vm_compute in H. destruct H as [H _]. vm_compute. exact H.
Defined.

(** The parser reports [-EINVAL], the error of the worker is a different
    one; and full sync of a shard whose page holds the key that does not
    parse ends as for any other key: it spawns the worker, drains, writes
    its marker and returns without error. *)
Lemma unparsable_key_is_eio_and_shard_goes_on :
  let w := SingleEntry.new "us-east" "b1:A:x" "1_1" MarkerTrack.empty in
  let s := DataSyncShard.new "us-east" 1 (DataSyncMarker FullSync "" "1_5" 0 0 77) in
  SingleEntry.p_ret (SingleEntry.parse_bucket_shard strtol_dec (SingleEntry.raw_key w))
    = - EINVAL /\
  fst (fst (CR.run (SingleEntry.operate strtol_dec [] 0) w)) <> cr_error (- EINVAL) /\
  fst (CR.run (DataSyncShard.full_sync [(0, ["b1:A:x"])] 0) s) =
    (cr_return 0,
     [DataSyncShard.EvGetOmapKeys "data.full-sync.index.us-east.1" "" 100;
      DataSyncShard.EvSpawnSingleEntry "b1:A:x" "b1:A:x";
      DataSyncShard.EvDrainAll;
      DataSyncShard.EvWriteMarker "datalog.sync-status.shard.us-east.1"
        (DataSyncMarker IncrementalSync "1_5" "" 0 0 77)]).
Proof.
  intros w s. split; [reflexivity |]. split; [vm_compute; discriminate |].
  vm_compute. reflexivity.
Qed.

(** A key that parses runs the bucket sync and finishes its marker. *)
Lemma parsable_key_example :
  let w := SingleEntry.new "us-east" "b1:A:3" "1_1" MarkerTrack.empty in
  let '(e, tr, _) := CR.run (SingleEntry.operate strtol_dec [(0, fun mt => mt)] 0) w in
  e = cr_done /\
  tr = [SingleEntry.EvRunBucketSync "us-east" "b1" "A" 3; SingleEntry.EvFinish "1_1"].
Proof. vm_compute. split; reflexivity. Qed.

(** ** Initialising a bucket shard *)


(** The whole behaviour of the initialisation: it stops after the second
    lock request when the first status write failed, it stops after the
    fetch when the fetch failed with anything but [-ENOENT], and otherwise
    it writes the attributes and unlocks. *)
Lemma init_bucket_shard_run
    (zone bucket_name bucket_id buf : string) (shard_id : Z)
    (e : InitBucketShardSyncStatus.env) :
  let c := InitBucketShardSyncStatus.new zone bucket_name bucket_id shard_id buf in
  let oid := RGWBucketSyncStatusManager.status_oid zone bucket_name bucket_id shard_id in
  let info := if InitBucketShardSyncStatus.e_fetch e <? 0
              then MarkerInfo "" "" "" else InitBucketShardSyncStatus.e_fetched e in
  let st := BucketSyncInfo BStateFullSync (FullMarker (ObjKey "" "") 0)
                           (IncMarker (max_marker info)) in
  let start :=
    [InitBucketShardSyncStatus.EvLock oid "sync_lock" "" 30;
     InitBucketShardSyncStatus.EvWriteStatus oid rgw_bucket_shard_sync_info_default;
     InitBucketShardSyncStatus.EvLock oid "sync_lock" "" 30] in
  let fetch :=
    InitBucketShardSyncStatus.EvReadRemoteBucketIndexLogInfo
      (instance_key bucket_name bucket_id shard_id) in
  fst (CR.run (InitBucketShardSyncStatus.operate e) c) =
    if InitBucketShardSyncStatus.e_write1 e <? 0 then
      (cr_error (InitBucketShardSyncStatus.e_write1 e), start)
    else if (InitBucketShardSyncStatus.e_fetch e <? 0)
            && negb (InitBucketShardSyncStatus.e_fetch e =? - ENOENT) then
      (cr_error (InitBucketShardSyncStatus.e_fetch e), start ++ [fetch])
    else
      (cr_done,
       start ++ [fetch;
                 InitBucketShardSyncStatus.EvWriteAttrs oid (encode_all_attrs st ∅);
                 InitBucketShardSyncStatus.EvUnlock oid "sync_lock" ""]).
Proof.
  intros c oid info st start fetch. subst info st.
  unfold InitBucketShardSyncStatus.operate. cr_unfold.
  destruct (InitBucketShardSyncStatus.e_write1 e <? 0); simpl; [reflexivity |].
  destruct (InitBucketShardSyncStatus.e_fetch e <? 0) eqn:Ef; simpl;
    rewrite ?Ef; simpl.
  - destruct (InitBucketShardSyncStatus.e_fetch e =? - ENOENT); simpl;
      rewrite ?Ef; reflexivity.
  - reflexivity.
Qed.





(** ** Deduplication of datalog entries *)

(** Called with a key that has a marker in flight, [index_key_to_marker]
    answers false, keeps both indexes and puts the key in the retry set. *)
Lemma index_key_to_marker_busy key marker m (mt : MarkerTrack.RGWDataSyncShardMarkerTrack) :
  MarkerTrack.key_to_marker mt !! key = Some m ->
  let '(fresh, mt') := MarkerTrack.index_key_to_marker key marker mt in
  fresh = false /\
  key ∈ MarkerTrack.need_retry_set mt' /\
  MarkerTrack.key_to_marker mt' = MarkerTrack.key_to_marker mt /\
  MarkerTrack.marker_to_key mt' = MarkerTrack.marker_to_key mt.
Proof.
  intros H. unfold MarkerTrack.index_key_to_marker. rewrite H. simpl.
  repeat split. set_solver.
Qed.

(** Called with a key that has no marker in flight, it answers true and
    binds the key and the marker to each other. *)
Lemma index_key_to_marker_free key marker (mt : MarkerTrack.RGWDataSyncShardMarkerTrack) :
  MarkerTrack.key_to_marker mt !! key = None ->
  let '(fresh, mt') := MarkerTrack.index_key_to_marker key marker mt in
  fresh = true /\
  MarkerTrack.key_to_marker mt' !! key = Some marker /\
  MarkerTrack.marker_to_key mt' !! marker = Some key.
Proof.
  intros H. unfold MarkerTrack.index_key_to_marker. rewrite H. simpl.
  repeat split; apply lookup_insert_eq.
Qed.

(** The incremental loop passes the log id where the key is expected: the
    tracker is asked about [log_id], so an entry with a log id that is not
    indexed is started whatever its bucket-shard key is. *)
Lemma incremental_entry_spawns_on_fresh_log_id
    (meanwhile : nat -> MarkerTrack.RGWDataSyncShardMarkerTrack ->
                 MarkerTrack.RGWDataSyncShardMarkerTrack)
    (i : nat) (e : rgw_data_change_log_entry)
    (c : CR.ctx DataSyncShard.RGWDataSyncShardCR DataSyncShard.event) :
  MarkerTrack.key_to_marker (meanwhile i (DataSyncShard.marker_tracker (CR.self c)))
    !! log_id e = None ->
  0 <= CR.retcode c ->
  CR.trace (snd (DataSyncShard.incremental_entry meanwhile (i, e) c)) =
    CR.trace c ++ [DataSyncShard.EvSpawnSingleEntry (entry_key e) (log_id e)].
Proof.
  intros Hfree Hrc. apply Z.ltb_ge in Hrc.
  unfold DataSyncShard.incremental_entry, MarkerTrack.index_key_to_marker.
  cr_unfold. rewrite Hfree. simpl. rewrite Hrc. reflexivity.
Qed.

(** C1: a page of the datalog with two entries for the bucket shard
    "b1:A:0" under different log ids starts two single-entry workers for
    that key, the second while the first is still running; nothing is
    skipped and the retry set stays empty. *)
Theorem same_key_entries_both_spawned :
  let l1 := LogEntry "1_1" 10 "b1:A:0" in
  let l2 := LogEntry "1_2" 11 "b1:A:0" in
  let r := DataSyncShard.Round ∅ 0 (LogInfo "1_2" 11) 0 "1_2" [l1; l2] false
                               (fun _ mt => mt) in
  let s := DataSyncShard.new "us-east" 0 (DataSyncMarker IncrementalSync "1_0" "" 0 0 0) in
  let '(e, tr, s') := CR.run (DataSyncShard.incremental_sync [r]) s in
  tr = [DataSyncShard.EvReadRemoteDataLogShardInfo 0;
        DataSyncShard.EvReadRemoteDataLogShard 0 "1_0";
        DataSyncShard.EvSpawnSingleEntry "b1:A:0" "1_1";
        DataSyncShard.EvSpawnSingleEntry "b1:A:0" "1_2";
        DataSyncShard.EvWait 20]
  /\ MarkerTrack.need_retry "b1:A:0" (DataSyncShard.marker_tracker s') = false
  /\ MarkerTrack.key_to_marker (DataSyncShard.marker_tracker s') !! "b1:A:0" = None
  /\ MarkerTrack.key_to_marker (DataSyncShard.marker_tracker s') !! "1_2" = Some "b1:A:0".
Proof. vm_compute. repeat split. Qed.

(** ** Full sync of a datalog shard *)

Lemma full_sync_entry_pumps s0 key :
  triple (pumping_state s0) (DataSyncShard.full_sync_entry key)
         (fun _ => pumping_state s0) (fun _ _ => False).
Proof.
  intros c (Hrc & Htr & Hz & Hid & Hm).
  unfold DataSyncShard.full_sync_entry. cr_unfold.
  apply Z.ltb_ge in Hrc. rewrite Hrc. simpl.
  repeat split; simpl; auto.
  - now apply Z.ltb_ge.
  - rewrite forallb_app, Htr. reflexivity.
Qed.

Lemma to_int_small x : 0 <= x < 2 ^ 31 -> DataSyncShard.to_int x = x.
Proof.
  intros H. unfold DataSyncShard.to_int.
  rewrite Z.mod_small by lia.
  destruct (2 ^ 31 <=? x) eqn:E; [apply Z.leb_le in E; lia | reflexivity].
Qed.

Lemma full_sync_page_loop s0 st (es : list string)
    (c : CR.ctx DataSyncShard.RGWDataSyncShardCR DataSyncShard.event) :
  0 <= st ->
  forallb pumping (CR.trace c) = true -> same_shard s0 (CR.self c) ->
  exists c2,
    CR.for_each es DataSyncShard.full_sync_entry
      (CR.Ctx st
         (CR.trace c ++
          [DataSyncShard.EvGetOmapKeys (DataSyncShard.oid (CR.self c))
             (dsm_marker (DataSyncShard.sync_marker (CR.self c)))
             DataSyncShard.OMAP_GET_MAX_ENTRIES])
         (CR.self c)) = (inl tt, c2)
    /\ pumping_state s0 c2.
Proof.
  intros Hst Htr Hsame.
  match goal with
  | |- context [CR.for_each es DataSyncShard.full_sync_entry ?c1] =>
      pose proof (triple_for_each (pumping_state s0) es DataSyncShard.full_sync_entry
                    (fun _ _ => False)
                    (fun a _ => full_sync_entry_pumps s0 a) c1) as Hloop;
      destruct (CR.for_each es DataSyncShard.full_sync_entry c1) as [[[] | x] c2]
  end.
  - exists c2. split; [reflexivity |]. apply Hloop.
    repeat split; simpl; try apply Hsame; [exact Hst |].
    rewrite forallb_app, Htr. reflexivity.
  - exfalso. apply Hloop.
    repeat split; simpl; try apply Hsame; [exact Hst |].
    rewrite forallb_app, Htr. reflexivity.
Qed.

Lemma full_sync_pages_pump s0 (full : list (Z * list string)) (last : Z * list string) :
  Forall (fun p => 0 <= fst p /\ length (snd p) = 100%nat) full ->
  0 <= fst last -> (length (snd last) < 100)%nat ->
  triple (fun c => forallb pumping (CR.trace c) = true /\ same_shard s0 (CR.self c))
         (DataSyncShard.full_sync_pages (full ++ [last]))
         (fun _ => pumping_state s0) (fun _ _ => False).
Proof.
  intros Hfull Hst Hlen.
  induction Hfull as [| [st es] full [Hp Hl] _ IH]; intros c (Htr & Hsame).
  - destruct last as [st es]. simpl in *.
    unfold CR.bind at 1. unfold CR.get at 1.
    unfold CR.bind at 1.
    unfold CR.call, CR.bind, CR.emit, CR.ret, CR.resume, CR.get_retcode. simpl.
    destruct (full_sync_page_loop s0 st es c Hst Htr Hsame) as (c2 & Heq & Hc2).
    apply Z.ltb_ge in Hst. rewrite Hst. rewrite Heq.
    rewrite to_int_small by (unfold DataSyncShard.OMAP_GET_MAX_ENTRIES; lia).
    destruct (Z.of_nat (length es) =? DataSyncShard.OMAP_GET_MAX_ENTRIES) eqn:E.
    + apply Z.eqb_eq in E. unfold DataSyncShard.OMAP_GET_MAX_ENTRIES in E. lia.
    + exact Hc2.
  - simpl in *.
    unfold CR.bind at 1. unfold CR.get at 1.
    unfold CR.bind at 1.
    unfold CR.call, CR.bind, CR.emit, CR.ret, CR.resume, CR.get_retcode. simpl.
    destruct (full_sync_page_loop s0 st es c Hp Htr Hsame) as (c2 & Heq & Hc2).
    apply Z.ltb_ge in Hp. rewrite Hp. rewrite Heq.
    rewrite Hl. change (DataSyncShard.to_int (Z.of_nat 100) =? DataSyncShard.OMAP_GET_MAX_ENTRIES) with true.
    cbv iota. apply IH. split; apply Hc2.
Qed.

(** C5: when the enumeration of the full-sync index is exhausted (every
    page read succeeded and the last page is short), the shard drains its
    children and then issues one write of the shard marker, in which the
    state is IncrementalSync, [marker] is the [next_step_marker] the shard
    started with and [next_step_marker] is empty; before the drain it only
    read pages and spawned workers. *)
Theorem full_sync_exhaustion_switches_to_incremental
    (s : DataSyncShard.RGWDataSyncShardCR)
    (full : list (Z * list string)) (last : Z * list string) (write_status : Z) :
  Forall (fun p => 0 <= fst p /\ length (snd p) = 100%nat) full ->
  0 <= fst last ->
  (length (snd last) < 100)%nat ->
  let m := DataSyncShard.sync_marker s in
  let m' := DataSyncMarker IncrementalSync (dsm_next_step_marker m) ""
                           (dsm_total_entries m) (dsm_pos m) (dsm_timestamp m) in
  let '(e, tr, s') := CR.run (DataSyncShard.full_sync (full ++ [last]) write_status) s in
  exists pre,
    tr = pre ++ [DataSyncShard.EvDrainAll;
                 DataSyncShard.EvWriteMarker
                   (RGWDataSyncStatusManager.shard_obj_name
                      (DataSyncShard.source_zone s) (DataSyncShard.shard_id s)) m']
    /\ forallb pumping pre = true
    /\ DataSyncShard.sync_marker s' = m'
    /\ e = (if write_status <? 0 then cr_error write_status else cr_return 0).
Proof.
  intros Hfull Hst Hlen m m'.
  unfold CR.run, DataSyncShard.full_sync.
  unfold CR.bind at 1. unfold CR.get at 1.
  unfold CR.bind at 1. unfold CR.modify at 1.
  unfold CR.bind at 1. unfold CR.modify at 1.
  unfold CR.bind at 1. unfold CR.modify at 1.
  unfold CR.bind at 1. simpl.
  match goal with
  | |- context [DataSyncShard.full_sync_pages _ ?c1] =>
      pose proof (full_sync_pages_pump s full last Hfull Hst Hlen c1) as Hpages;
      destruct (DataSyncShard.full_sync_pages (full ++ [last]) c1) as [[[] | x] c2]
  end.
  2:{ exfalso. apply Hpages. repeat split. }
  destruct Hpages as (Hrc & Htr & Hz & Hid & Hm); [repeat split |].
  cr_unfold. rewrite Hz, Hid, Hm.
  change (DataSyncShard.to_incremental (DataSyncShard.sync_marker s)) with m'.
  destruct (write_status <? 0); simpl;
    (exists (CR.trace c2); split; [now rewrite <- app_assoc | auto]).
Qed.

Lemma full_sync_exhaustion_switches_to_incremental_witness :
  let s := DataSyncShard.new "us-east" 1 (DataSyncMarker FullSync "" "1_5" 2 0 77) in
  let '(e, tr, s') := CR.run (DataSyncShard.full_sync ([] ++ [(0, ["b1:A:0"; "b2:B"])]) 0) s in
  exists pre,
    tr = pre ++ [DataSyncShard.EvDrainAll;
                 DataSyncShard.EvWriteMarker "datalog.sync-status.shard.us-east.1"
                   (DataSyncMarker IncrementalSync "1_5" "" 2 0 77)]
    /\ forallb pumping pre = true
    /\ DataSyncShard.sync_marker s' = DataSyncMarker IncrementalSync "1_5" "" 2 0 77
    /\ e = cr_return 0.
Proof.
  intros s.
  apply (full_sync_exhaustion_switches_to_incremental s [] (0, ["b1:A:0"; "b2:B"]) 0);
    [constructor | simpl; lia | simpl; lia].
Defined.

(** The same run, evaluated. *)
Lemma full_sync_example :
  let s := DataSyncShard.new "us-east" 1 (DataSyncMarker FullSync "" "1_5" 2 0 77) in
  snd (fst (CR.run (DataSyncShard.full_sync [(0, ["b1:A:0"; "b2:B"])] 0) s)) =
    [DataSyncShard.EvGetOmapKeys "data.full-sync.index.us-east.1" "" 100;
     DataSyncShard.EvSpawnSingleEntry "b1:A:0" "b1:A:0";
     DataSyncShard.EvSpawnSingleEntry "b2:B" "b2:B";
     DataSyncShard.EvDrainAll;
     DataSyncShard.EvWriteMarker "datalog.sync-status.shard.us-east.1"
       (DataSyncMarker IncrementalSync "1_5" "" 2 0 77)].
Proof. vm_compute. reflexivity. Qed.

(** ** Programs that keep a property of the members *)

Section Keeps.
Context {S E : Type} (J XJ : S -> Prop).
Hypothesis J_exit : forall s, J s -> XJ s.

Lemma keeps_bind {A B} (m : CR.t S E A) (k : A -> CR.t S E B) :
  keeps J XJ m -> (forall a, keeps J XJ (k a)) -> keeps J XJ (CR.bind m k).
Proof. intros Hm Hk. eapply triple_bind; [exact Hm | exact Hk]. Qed.

Lemma keeps_ret {A} (a : A) : keeps J XJ (CR.ret (S := S) (E := E) a).
Proof. intros c H. exact H. Qed.

Lemma keeps_get : keeps J XJ (CR.get (S := S) (E := E)).
Proof. intros c H. exact H. Qed.

Lemma keeps_get_retcode : keeps J XJ (CR.get_retcode (S := S) (E := E)).
Proof. intros c H. exact H. Qed.

Lemma keeps_emit (e : E) : keeps J XJ (CR.emit (S := S) e).
Proof. intros c H. exact H. Qed.

Lemma keeps_call (e : E) : keeps J XJ (CR.call (S := S) e).
Proof. intros c H. exact H. Qed.

Lemma keeps_resume (status : Z) : keeps J XJ (CR.resume (S := S) (E := E) status).
Proof. intros c H. exact H. Qed.

Lemma keeps_exit {A} (e : cr_exit) : keeps J XJ (CR.exit (S := S) (E := E) (A := A) e).
Proof. intros c H. apply J_exit. exact H. Qed.

Lemma keeps_modify (f : S -> S) :
  (forall s, J s -> J (f s)) -> keeps J XJ (CR.modify (E := E) f).
Proof. intros Hf c H. apply Hf. exact H. Qed.

Lemma keeps_if {A} (b : bool) (m1 m2 : CR.t S E A) :
  keeps J XJ m1 -> keeps J XJ m2 -> keeps J XJ (if b then m1 else m2).
Proof. destruct b; auto. Qed.

Lemma keeps_for_each {A} (l : list A) (body : A -> CR.t S E unit) :
  (forall a, keeps J XJ (body a)) -> keeps J XJ (CR.for_each l body).
Proof.
  intros Hbody. apply triple_for_each. intros a _. apply Hbody.
Qed.
End Keeps.

Ltac keeps_step :=
  lazymatch goal with
  | |- keeps _ _ (CR.bind _ _) => apply keeps_bind; [| intros ?]
  | |- keeps _ _ (CR.ret _) => apply keeps_ret
  | |- keeps _ _ CR.get => apply keeps_get
  | |- keeps _ _ CR.get_retcode => apply keeps_get_retcode
  | |- keeps _ _ (CR.emit _) => apply keeps_emit
  | |- keeps _ _ (CR.spawn _) => apply keeps_emit
  | |- keeps _ _ (CR.call _) => apply keeps_call
  | |- keeps _ _ (CR.resume _) => apply keeps_resume
  | |- keeps _ _ (CR.exit _) => apply keeps_exit
  | |- keeps _ _ (CR.set_cr_error _) => apply keeps_exit
  | |- keeps _ _ CR.set_cr_done => apply keeps_exit
  | |- keeps _ _ (if _ then _ else _) => apply keeps_if
  end.

(** ** The spawn window of a bucket shard *)

Lemma within_snoc bound n (c : list nat) :
  Forall (fun k => (k <= bound)%nat) c -> (n <= bound)%nat ->
  Forall (fun k => (k <= bound)%nat) (c ++ [n]).
Proof. intros H Hn. apply Forall_app. split; [exact H | repeat constructor; exact Hn]. Qed.

Lemma spawn_throttled window (c : Children.t) :
  throttled window c ->
  (Children.num_spawned (Children.spawn c) <= Datatypes.S window)%nat /\
  within (Datatypes.S window) (Children.spawn c).
Proof.
  intros [Hn Hh]. split; simpl; [lia |].
  unfold within. simpl. apply within_snoc; [exact Hh | lia].
Qed.

Lemma wait_and_collect_within bound completed (c : Children.t) :
  (Children.num_spawned c <= Datatypes.S bound)%nat -> within (Datatypes.S bound) c ->
  (Children.num_spawned (Children.wait_and_collect completed c) <= bound)%nat /\
  within (Datatypes.S bound) (Children.wait_and_collect completed c).
Proof.
  intros Hn Hh. unfold Children.wait_and_collect, Children.harvested, within. simpl.
  split; [lia |]. apply within_snoc; [exact Hh | lia].
Qed.

Lemma drain_all_within bound (c : Children.t) :
  within bound c -> within bound (Children.drain_all c).
Proof. intros H. unfold within. simpl. apply within_snoc; [exact H | lia]. Qed.

Lemma throttled_exit (c : Children.t) : throttled 20 c -> within 21 c.
Proof. intros [_ H]. exact H. Qed.

(** The throttling loop brings the number of children back under the
    window, having started from at most one more. *)
Lemma f_throttle_spec fuel completed :
  triple (fun c => BucketShard.f_spawn_window (CR.self c) = BUCKET_SYNC_SPAWN_WINDOW /\
                   (Children.num_spawned (BucketShard.f_children (CR.self c)) <= 21)%nat /\
                   within 21 (BucketShard.f_children (CR.self c)))
         (BucketShard.f_throttle fuel completed)
         (fun _ c => full_window (CR.self c))
         (fun _ c => within 21 (BucketShard.f_children (CR.self c))).
Proof.
  unfold full_window, BUCKET_SYNC_SPAWN_WINDOW.
  induction fuel as [| fuel IH]; intros c (Hw & Hn & Hh).
  - simpl. cr_unfold. rewrite Hw.
    destruct (20 <? _) eqn:E; simpl; [exact Hh |].
    apply Z.ltb_ge in E. repeat split; [exact Hw | lia | exact Hh].
  - simpl. unfold CR.bind at 1. unfold CR.get at 1. rewrite Hw.
    destruct (20 <? _) eqn:E.
    + unfold CR.bind at 1. unfold CR.emit at 1.
      unfold CR.bind at 1. unfold CR.modify at 1. simpl.
      apply IH. simpl.
      destruct (wait_and_collect_within 20
                  (completed (Children.waits (BucketShard.f_children (CR.self c))))
                  _ Hn Hh) as [Hn' Hh'].
      repeat split; [exact Hw | lia | exact Hh'].
    + apply Z.ltb_ge in E. simpl. repeat split; [exact Hw | lia | exact Hh].
Qed.

Lemma full_entry_keeps completed entry :
  keeps full_window (fun s => within 21 (BucketShard.f_children s))
        (BucketShard.full_entry completed entry).
Proof.
  intros c (Hw & Hth). unfold BucketShard.full_entry.
  unfold CR.bind at 1. unfold CR.get at 1.
  unfold CR.bind at 1. unfold CR.modify at 1.
  unfold CR.bind at 1. unfold CR.emit at 1.
  unfold CR.bind at 1. unfold CR.modify at 1.
  unfold CR.bind at 1. unfold CR.spawn, CR.emit at 1.
  unfold CR.bind at 1. unfold CR.modify at 1.
  unfold CR.bind at 1. unfold CR.get at 1. cbv beta iota.
  apply f_throttle_spec. simpl.
  destruct (spawn_throttled 20 _ Hth) as [Hn Hh].
  repeat split; [exact Hw | exact Hn | exact Hh].
Qed.

Lemma full_pages_keeps completed pages :
  keeps full_window (fun s => within 21 (BucketShard.f_children s))
        (BucketShard.full_pages completed pages).
Proof.
  assert (Hexit : forall s, full_window s -> within 21 (BucketShard.f_children s))
    by (intros s [_ H]; now apply throttled_exit).
  induction pages as [| [status result] pages IH]; simpl.
  - repeat (keeps_step; auto).
  - repeat (keeps_step; auto).
    + apply keeps_modify. intros s H. exact H.
    + apply keeps_for_each. apply full_entry_keeps.
Qed.

Lemma i_throttle_spec fuel completed :
  triple (fun c => BucketShard.i_spawn_window (CR.self c) = BUCKET_SYNC_SPAWN_WINDOW /\
                   (Children.num_spawned (BucketShard.i_children (CR.self c)) <= 21)%nat /\
                   within 21 (BucketShard.i_children (CR.self c)))
         (BucketShard.i_throttle fuel completed)
         (fun _ c => inc_window (CR.self c))
         (fun _ c => within 21 (BucketShard.i_children (CR.self c))).
Proof.
  unfold inc_window, BUCKET_SYNC_SPAWN_WINDOW.
  induction fuel as [| fuel IH]; intros c (Hw & Hn & Hh).
  - simpl. cr_unfold. rewrite Hw.
    destruct (20 <? _) eqn:E; simpl; [exact Hh |].
    apply Z.ltb_ge in E. repeat split; [exact Hw | lia | exact Hh].
  - simpl. unfold CR.bind at 1. unfold CR.get at 1. rewrite Hw.
    destruct (20 <? _) eqn:E.
    + unfold CR.bind at 1. unfold CR.emit at 1.
      unfold CR.bind at 1. unfold CR.modify at 1. simpl.
      apply IH. simpl.
      destruct (wait_and_collect_within 20
                  (completed (Children.waits (BucketShard.i_children (CR.self c))))
                  _ Hn Hh) as [Hn' Hh'].
      repeat split; [exact Hw | lia | exact Hh'].
    + apply Z.ltb_ge in E. simpl. repeat split; [exact Hw | lia | exact Hh].
Qed.

Lemma inc_entry_keeps completed entry :
  keeps inc_window (fun s => within 21 (BucketShard.i_children s))
        (BucketShard.inc_entry completed entry).
Proof.
  intros c (Hw & Hth). unfold BucketShard.inc_entry.
  unfold CR.bind at 1. unfold CR.get at 1.
  unfold CR.bind at 1. unfold CR.emit at 1.
  unfold CR.bind at 1. unfold CR.modify at 1.
  unfold CR.bind at 1. unfold CR.spawn, CR.emit at 1.
  unfold CR.bind at 1. unfold CR.modify at 1.
  unfold CR.bind at 1. unfold CR.get at 1. cbv beta iota.
  apply i_throttle_spec. simpl.
  destruct (spawn_throttled 20 _ Hth) as [Hn Hh].
  repeat split; [exact Hw | exact Hn | exact Hh].
Qed.

Lemma inc_pages_keeps completed pages :
  keeps inc_window (fun s => within 21 (BucketShard.i_children s))
        (BucketShard.inc_pages completed pages).
Proof.
  assert (Hexit : forall s, inc_window s -> within 21 (BucketShard.i_children s))
    by (intros s [_ H]; now apply throttled_exit).
  induction pages as [| [status result] pages IH]; simpl.
  - repeat (keeps_step; auto).
  - repeat (keeps_step; auto).
    + apply keeps_modify. intros s H. exact H.
    + apply keeps_modify. intros s [Hw [Hn Hh]].
      split; [exact Hw |]. split; simpl; [lia | now apply drain_all_within].
    + apply keeps_for_each. apply inc_entry_keeps.
    + match goal with
      | |- keeps _ _ (match ?l with [] => _ | _ :: _ => _ end) => destruct l
      end; [apply keeps_ret | exact IH].
Qed.

(** C7: in every run of bucket-shard full sync and of bucket-shard
    incremental sync, started without children and with the spawn window
    20, the number of spawned, uncollected single-entry workers is at most
    21 at every point; it is at most 20 whenever the loop moves on to the
    next entry. *)
Theorem bucket_shard_spawn_bound
    (source_zone bucket_name bucket_id : string) (shard_id : Z)
    (full_marker : rgw_bucket_shard_full_sync_marker)
    (inc_marker : rgw_bucket_shard_inc_sync_marker)
    (completed : nat -> nat)
    (full_listing : list (Z * bucket_list_result)) (write_status : Z)
    (inc_listing : list (Z * list rgw_bi_log_entry)) :
  within 21 (BucketShard.f_children
               (snd (CR.run (BucketShard.full_operate completed full_listing write_status)
                            (BucketShard.new_full source_zone bucket_name bucket_id
                                                  shard_id full_marker))))
  /\ within 21 (BucketShard.i_children
                  (snd (CR.run (BucketShard.inc_operate completed inc_listing)
                               (BucketShard.new_inc source_zone bucket_name bucket_id
                                                    shard_id inc_marker))))
  /\ (forall entry,
        keeps full_window (fun s => within 21 (BucketShard.f_children s))
              (BucketShard.full_entry completed entry))
  /\ (forall entry,
        keeps inc_window (fun s => within 21 (BucketShard.i_children s))
              (BucketShard.inc_entry completed entry)).
Proof.
  split; [| split; [| split; [apply full_entry_keeps | apply inc_entry_keeps]]].
  - set (s := BucketShard.new_full _ _ _ _ _).
    assert (Hs : full_window s).
    { split; [reflexivity |]. split; simpl; [lia |]. repeat constructor. }
    assert (Hexit : forall s, full_window s -> within 21 (BucketShard.f_children s))
      by (intros s' [_ H]; now apply throttled_exit).
    assert (Hk : keeps full_window (fun s => within 21 (BucketShard.f_children s))
                       (BucketShard.full_operate completed full_listing write_status)).
    { unfold BucketShard.full_operate.
      repeat (keeps_step; auto).
      - apply keeps_modify. intros s' H. exact H.
      - apply keeps_modify. intros s' H. exact H.
      - apply full_pages_keeps.
      - apply keeps_modify. intros s' [Hw [Hn Hh]].
        split; [exact Hw |]. split; simpl; [lia | now apply drain_all_within]. }
    unfold CR.run. specialize (Hk (CR.init s) Hs).
    destruct (BucketShard.full_operate _ _ _ (CR.init s)) as [[[] | e] c]; simpl;
      [apply Hexit |]; exact Hk.
  - set (s := BucketShard.new_inc _ _ _ _ _).
    assert (Hs : inc_window s).
    { split; [reflexivity |]. split; simpl; [lia |]. repeat constructor. }
    assert (Hexit : forall s, inc_window s -> within 21 (BucketShard.i_children s))
      by (intros s' [_ H]; now apply throttled_exit).
    assert (Hk : keeps inc_window (fun s => within 21 (BucketShard.i_children s))
                       (BucketShard.inc_operate completed inc_listing)).
    { unfold BucketShard.inc_operate.
      repeat (keeps_step; auto).
      - apply inc_pages_keeps.
      - apply keeps_modify. intros s' [Hw [Hn Hh]].
        split; [exact Hw |]. split; simpl; [lia | now apply drain_all_within]. }
    unfold CR.run. specialize (Hk (CR.init s) Hs).
    destruct (BucketShard.inc_operate _ _ (CR.init s)) as [[[] | e] c]; simpl;
      [apply Hexit |]; exact Hk.
Qed.

(** With 21 listed objects and no child collected before the first wait,
    21 workers are spawned and uncollected at once: the bound 20 of the
    spawn window is exceeded by one. *)
Lemma bucket_shard_window_exceeded :
  let entries := map (fun i => ListEntry false (ObjKey (dec (Z.of_nat i)) "") true 0 0)
                     (seq 0 21) in
  Exists (fun n => (20 < n)%nat)
    (Children.hist
       (BucketShard.f_children
          (snd (CR.run (BucketShard.full_operate (fun _ => 1%nat)
                                                 [(0, ListResult false entries)] 0)
                       (BucketShard.new_full "us-east" "b1" "inst-A" 0
                                             (FullMarker (ObjKey "" "") 0))))))
  /\ ~ within 20
        (BucketShard.f_children
           (snd (CR.run (BucketShard.full_operate (fun _ => 1%nat)
                                                  [(0, ListResult false entries)] 0)
                        (BucketShard.new_full "us-east" "b1" "inst-A" 0
                                              (FullMarker (ObjKey "" "") 0))))).
Proof.
  intros entries.
  assert (Hex : Exists (fun n => (20 < n)%nat)
            (Children.hist
               (BucketShard.f_children
                  (snd (CR.run (BucketShard.full_operate (fun _ => 1%nat)
                                                         [(0, ListResult false entries)] 0)
                               (BucketShard.new_full "us-east" "b1" "inst-A" 0
                                                     (FullMarker (ObjKey "" "") 0))))))).
  { apply List.Exists_exists. exists 21%nat. split; [vm_compute; tauto | lia]. }
  split; [exact Hex |].
  intros H. apply List.Exists_exists in Hex. destruct Hex as (n & Hin & Hn).
  pose proof (proj1 (List.Forall_forall _ _) H n Hin) as Hle. simpl in Hle. lia.
Qed.

(** * Further properties of the code *)

(** ** The indexes and the retry set of the tracker *)

Lemma need_retry_true key (mt : MarkerTrack.RGWDataSyncShardMarkerTrack) :
  MarkerTrack.need_retry key mt = true <-> key ∈ MarkerTrack.need_retry_set mt.
Proof. unfold MarkerTrack.need_retry. apply bool_decide_eq_true. Qed.

Lemma need_retry_false key (mt : MarkerTrack.RGWDataSyncShardMarkerTrack) :
  MarkerTrack.need_retry key mt = false <-> key ∉ MarkerTrack.need_retry_set mt.
Proof. unfold MarkerTrack.need_retry. apply bool_decide_eq_false. Qed.

Lemma empty_indexes_inverse : indexes_inverse MarkerTrack.empty.
Proof.
  intros k m. unfold MarkerTrack.empty. cbn [MarkerTrack.key_to_marker MarkerTrack.marker_to_key].
  rewrite !lookup_empty. split; intros H; discriminate H.
Qed.

Lemma first_binding_indexes_inverse key marker :
  indexes_inverse (snd (MarkerTrack.index_key_to_marker key marker MarkerTrack.empty)).
Proof.
  intros k m. unfold MarkerTrack.index_key_to_marker, MarkerTrack.empty.
  cbn [MarkerTrack.key_to_marker MarkerTrack.marker_to_key MarkerTrack.pending
       MarkerTrack.need_retry_set snd].
  rewrite lookup_empty.
  cbn [MarkerTrack.key_to_marker MarkerTrack.marker_to_key snd].
  rewrite !lookup_insert_Some, !lookup_empty.
  split; intros [[<- <-] | [_ H]]; auto; discriminate H.
Qed.

(** X1: the two indexes of the tracker stay inverse to each other: under
    [handle_finish] and [reset_need_retry] always, and under
    [index_key_to_marker] when the marker is not indexed yet (a rejected
    call changes no index at all). *)
Theorem tracker_indexes_stay_inverse
    (mt : MarkerTrack.RGWDataSyncShardMarkerTrack) (key marker : string) :
  indexes_inverse mt ->
  indexes_inverse MarkerTrack.empty
  /\ indexes_inverse (MarkerTrack.handle_finish marker mt)
  /\ indexes_inverse (MarkerTrack.reset_need_retry key mt)
  /\ (MarkerTrack.marker_to_key mt !! marker = None ->
      indexes_inverse (snd (MarkerTrack.index_key_to_marker key marker mt))).
Proof.
  intros Hinv. split; [| split; [| split]].
  - apply empty_indexes_inverse.
  - unfold MarkerTrack.handle_finish.
    destruct (MarkerTrack.marker_to_key mt !! marker) as [k0 |] eqn:Hk0; [| exact Hinv].
    intros k m. simpl. rewrite !lookup_delete_Some. split.
    + intros [Hne Hkm]. split; [| now apply Hinv].
      intros ->. apply Hinv in Hkm. congruence.
    + intros [Hne Hmk]. split; [| now apply Hinv].
      intros ->. apply Hinv in Hk0. apply Hinv in Hmk. congruence.
  - exact Hinv.
  - intros Hfresh. unfold MarkerTrack.index_key_to_marker.
    destruct (MarkerTrack.key_to_marker mt !! key) as [m0 |] eqn:Hkey; [exact Hinv |].
    intros k m. simpl. rewrite !lookup_insert_Some. split.
    + intros [[-> ->] | [Hne Hkm]]; [now left |].
      right. split; [| now apply Hinv].
      intros ->. apply Hinv in Hkm. congruence.
    + intros [[-> ->] | [Hne Hmk]]; [now left |].
      right. split; [| now apply Hinv].
      intros ->. apply Hinv in Hmk. congruence.
Qed.

Lemma tracker_indexes_stay_inverse_witness :
  indexes_inverse
    (MarkerTrack.handle_finish "1_1"
       (snd (MarkerTrack.index_key_to_marker "b1:A:0" "1_1" MarkerTrack.empty))).
Proof.
  pose proof (tracker_indexes_stay_inverse MarkerTrack.empty "b1:A:0" "1_1"
                empty_indexes_inverse) as (_ & _ & _ & Hidx).
  specialize (Hidx eq_refl).
  exact (proj1 (proj2 (tracker_indexes_stay_inverse _ "b1:A:0" "1_1" Hidx))).
Defined.

(** X2: binding a free key to a marker that is not indexed and then
    finishing that marker gives back both indexes as they were; the retry
    set only loses the marker. *)
Theorem index_then_finish_restores_indexes
    (mt : MarkerTrack.RGWDataSyncShardMarkerTrack) (key marker : string) :
  MarkerTrack.key_to_marker mt !! key = None ->
  MarkerTrack.marker_to_key mt !! marker = None ->
  let mt' := MarkerTrack.handle_finish marker
               (snd (MarkerTrack.index_key_to_marker key marker mt)) in
  fst (MarkerTrack.index_key_to_marker key marker mt) = true /\
  MarkerTrack.key_to_marker mt' = MarkerTrack.key_to_marker mt /\
  MarkerTrack.marker_to_key mt' = MarkerTrack.marker_to_key mt /\
  MarkerTrack.need_retry_set mt' = MarkerTrack.need_retry_set mt ∖ {[marker]} /\
  MarkerTrack.pending mt' = MarkerTrack.pending mt.
Proof.
  intros Hkey Hmarker. unfold MarkerTrack.index_key_to_marker, MarkerTrack.handle_finish.
  rewrite Hkey. simpl. rewrite lookup_insert_eq. simpl.
  repeat split; now apply delete_insert_id.
Qed.

Lemma index_then_finish_restores_indexes_witness :
  let mt := snd (MarkerTrack.index_key_to_marker "b2:B" "1_7" MarkerTrack.empty) in
  MarkerTrack.key_to_marker
    (MarkerTrack.handle_finish "1_8"
       (snd (MarkerTrack.index_key_to_marker "b1:A:0" "1_8" mt)))
  = MarkerTrack.key_to_marker mt.
Proof.
  intros mt.
  exact (proj1 (proj2 (index_then_finish_restores_indexes mt "b1:A:0" "1_8"
                         eq_refl eq_refl))).
Defined.

(** X3: a call of [index_key_to_marker] for a key that is in flight flags
    the key for retry.  [handle_finish] erases the finished marker, not its
    key, from the retry set: when the in-flight marker of the key is
    finished the key is free again and, unless key and marker are the same
    text, still flagged.  [reset_need_retry] clears the flag. *)
Theorem retry_flag_survives_finish
    (mt : MarkerTrack.RGWDataSyncShardMarkerTrack) (key m marker : string) :
  indexes_inverse mt ->
  MarkerTrack.key_to_marker mt !! key = Some m ->
  m <> key ->
  let rejected := MarkerTrack.index_key_to_marker key marker mt in
  let finished := MarkerTrack.handle_finish m (snd rejected) in
  fst rejected = false /\
  MarkerTrack.need_retry key (snd rejected) = true /\
  MarkerTrack.key_to_marker finished !! key = None /\
  MarkerTrack.need_retry key finished = true /\
  MarkerTrack.need_retry key (MarkerTrack.reset_need_retry key finished) = false.
Proof.
  intros Hinv Hkey Hne rejected finished.
  subst finished rejected.
  unfold MarkerTrack.index_key_to_marker. rewrite Hkey. simpl.
  assert (Hmk : MarkerTrack.marker_to_key mt !! m = Some key) by now apply Hinv.
  unfold MarkerTrack.handle_finish. simpl. rewrite Hmk. simpl.
  split; [reflexivity |]. split; [apply need_retry_true; set_solver |].
  split; [apply lookup_delete_eq |].
  split.
  - apply need_retry_true. simpl. apply elem_of_difference. split.
    + apply elem_of_union_r. now apply elem_of_singleton.
    + rewrite elem_of_singleton. congruence.
  - apply need_retry_false. simpl. rewrite elem_of_difference, elem_of_singleton.
    intros [_ H]. now apply H.
Qed.

Lemma retry_flag_survives_finish_witness :
  let mt := snd (MarkerTrack.index_key_to_marker "b1:A:0" "1_1" MarkerTrack.empty) in
  MarkerTrack.need_retry "b1:A:0"
    (MarkerTrack.handle_finish "1_1"
       (snd (MarkerTrack.index_key_to_marker "b1:A:0" "1_2" mt))) = true.
Proof.
  intros mt.
  exact (proj1 (proj2 (proj2 (proj2
           (retry_flag_survives_finish mt "b1:A:0" "1_1" "1_2"
              (first_binding_indexes_inverse "b1:A:0" "1_1") eq_refl
              ltac:(discriminate)))))).
Defined.

(** ** The attributes of the bucket-shard status *)

Ltac attr_lookups :=
  unfold decode_from_attrs, decode_state_attr, decode_full_marker_attr,
    decode_inc_marker_attr, set_attrs, full_store_marker, inc_store_marker,
    encode_all_attrs, inc_marker_encode_attr, full_marker_encode_attr,
    encode_state_attr, encode_into;
  cbn [fst snd];
  repeat first
    [ rewrite lookup_union_r by
        (repeat first [ rewrite lookup_insert_ne by discriminate
                      | apply lookup_empty ])
    | rewrite lookup_insert_eq
    | rewrite lookup_insert_ne by discriminate
    | rewrite lookup_empty
    | erewrite lookup_union_Some_l by
        (repeat first [ apply lookup_insert_eq
                      | rewrite lookup_insert_ne by discriminate ]) ].

(** X4: what [encode_all_attrs] encodes into a map whose three attribute
    buffers are absent or empty, as the fresh map of every caller is,
    [decode_from_attrs] reads back, whatever the object that is decoded
    into held.  The encoders append: encoded into a map that already holds
    an encoded state, the new state lands behind the old one and the old
    one is decoded.  From a map without attributes the default status is
    read. *)
Theorem status_attrs_round_trip
    (st cur : rgw_bucket_shard_sync_info) (stored : gmap string bufferlist) :
  (default [] (stored !! "state") = [] ->
   default [] (stored !! "full_marker") = [] ->
   default [] (stored !! "inc_marker") = [] ->
   decode_from_attrs (encode_all_attrs st stored) cur = st)
  /\ (forall old rest,
        stored !! "state" = Some (AttrState old :: rest) ->
        bs_state (decode_from_attrs (encode_all_attrs st stored) cur) = old)
  /\ decode_from_attrs ∅ cur = rgw_bucket_shard_sync_info_default.
Proof.
  split; [| split].
  - intros Hs Hf Hi. attr_lookups. unfold bufferlist in *.
    rewrite Hs, Hf, Hi. simpl. now destruct st.
  - intros old rest Hold. attr_lookups. unfold bufferlist in *.
    rewrite Hold. reflexivity.
  - attr_lookups. reflexivity.
Qed.

Lemma status_attrs_round_trip_witness :
  let st := BucketSyncInfo BStateFullSync (FullMarker (ObjKey "o5" "") 5)
                           (IncMarker "00000009.1") in
  decode_from_attrs (encode_all_attrs st ∅) rgw_bucket_shard_sync_info_default = st
  /\ bs_state (decode_from_attrs
                 (encode_all_attrs st {[ "state" := [AttrState BStateIncrementalSync] ]})
                 rgw_bucket_shard_sync_info_default) = BStateIncrementalSync.
Proof.
  intros st. split.
  - apply (proj1 (status_attrs_round_trip st rgw_bucket_shard_sync_info_default ∅));
      reflexivity.
  - apply (proj1 (proj2 (status_attrs_round_trip st rgw_bucket_shard_sync_info_default
                           {[ "state" := [AttrState BStateIncrementalSync] ]}))
             BStateIncrementalSync []).
    reflexivity.
Defined.

(** X5: the three parts of the status are committed independently: after
    a write of the state alone, of the full marker alone (by the full-sync
    tracker) or of the incremental marker alone (by the incremental
    tracker), the status that is read back differs from the one stored
    before in that part only. *)
Theorem status_parts_commit_independently
    (st st' cur : rgw_bucket_shard_sync_info)
    (key : rgw_obj_key) (pos timestamp : Z) (id : string)
    (fm : rgw_bucket_shard_full_sync_marker) (im : rgw_bucket_shard_inc_sync_marker) :
  let stored := encode_all_attrs st ∅ in
  decode_from_attrs (set_attrs (encode_state_attr st' ∅) stored) cur =
    BucketSyncInfo (bs_state st') (bs_full_marker st) (bs_inc_marker st)
  /\ decode_from_attrs (set_attrs (snd (full_store_marker key pos timestamp fm)) stored) cur =
       BucketSyncInfo (bs_state st) (FullMarker key pos) (bs_inc_marker st)
  /\ decode_from_attrs (set_attrs (snd (inc_store_marker id pos timestamp im)) stored) cur =
       BucketSyncInfo (bs_state st) (bs_full_marker st) (IncMarker id).
Proof.
  intros stored. subst stored. repeat split; attr_lookups; reflexivity.
Qed.

(** ** Reading back what the initialisation wrote *)

(** X6: a bucket-shard initialisation whose first status write, fetch and
    attribute write succeed leaves attributes on the status object from
    which a later, successful read of that object decodes the state
    FullSync, the empty full marker and the fetched [max_marker] as
    incremental position, whatever the object and the caller's status held
    before.  A read that finds no object gives the default status (state
    Init) without error. *)
Theorem read_after_init_decodes_remote_head
    (zone bucket_name bucket_id buf : string) (shard_id : Z)
    (e : InitBucketShardSyncStatus.env)
    (stored : gmap string bufferlist) (status0 : rgw_bucket_shard_sync_info) :
  0 <= InitBucketShardSyncStatus.e_write1 e ->
  0 <= InitBucketShardSyncStatus.e_fetch e ->
  0 <= InitBucketShardSyncStatus.e_write_attrs e ->
  let oid := RGWBucketSyncStatusManager.status_oid zone bucket_name bucket_id shard_id in
  let reader := ReadBucketSyncStatus.new zone bucket_name bucket_id shard_id status0 in
  (exists written,
     In (InitBucketShardSyncStatus.EvWriteAttrs oid written)
        (snd (fst (CR.run (InitBucketShardSyncStatus.operate e)
                          (InitBucketShardSyncStatus.new zone bucket_name bucket_id
                                                         shard_id buf)))) /\
     let '(x, tr, r) :=
       CR.run (ReadBucketSyncStatus.operate 0
                 (attrs_after_write (InitBucketShardSyncStatus.e_write_attrs e)
                                    written stored))
              reader in
     x = cr_done /\
     tr = [ReadBucketSyncStatus.EvReadAttrs oid] /\
     ReadBucketSyncStatus.status r =
       BucketSyncInfo BStateFullSync (FullMarker (ObjKey "" "") 0)
         (IncMarker (max_marker (InitBucketShardSyncStatus.e_fetched e))))
  /\ (let '(x, tr, r) :=
        CR.run (ReadBucketSyncStatus.operate (- ENOENT) stored) reader in
      x = cr_done /\
      ReadBucketSyncStatus.status r = rgw_bucket_shard_sync_info_default).
Proof.
  intros Hw Hf Ha oid reader. split.
  - pose proof (init_bucket_shard_run zone bucket_name bucket_id buf shard_id e) as Hrun.
    simpl in Hrun. fold oid in Hrun.
    assert (Ew : (InitBucketShardSyncStatus.e_write1 e <? 0) = false)
      by (apply Z.ltb_ge; lia).
    assert (Ef : (InitBucketShardSyncStatus.e_fetch e <? 0) = false)
      by (apply Z.ltb_ge; lia).
    assert (Ea : (InitBucketShardSyncStatus.e_write_attrs e <? 0) = false)
      by (apply Z.ltb_ge; lia).
    rewrite Ew, Ef in Hrun. simpl in Hrun.
    eexists. split.
    + destruct (CR.run _ _) as [[x tr] c]. simpl in Hrun. injection Hrun as _ ->.
      simpl. do 4 right. left. reflexivity.
    + unfold attrs_after_write. rewrite Ea.
      unfold ReadBucketSyncStatus.operate. cr_unfold. repeat split.
      attr_lookups. reflexivity.
  - unfold ReadBucketSyncStatus.operate. cr_unfold. split; reflexivity.
Qed.

Lemma read_after_init_decodes_remote_head_witness :
  let e := InitBucketShardSyncStatus.Env 0 0 0 0 (MarkerInfo "1" "1" "00000123.1") 0 0 in
  let oid := RGWBucketSyncStatusManager.status_oid "us-east" "b1" "inst-A" 0 in
  let reader := ReadBucketSyncStatus.new "us-east" "b1" "inst-A" 0
                  rgw_bucket_shard_sync_info_default in
  exists written,
    In (InitBucketShardSyncStatus.EvWriteAttrs oid written)
       (snd (fst (CR.run (InitBucketShardSyncStatus.operate e)
                         (InitBucketShardSyncStatus.new "us-east" "b1" "inst-A" 0
                                                        "abcdefghijklmnop")))) /\
    let '(x, tr, r) :=
      CR.run (ReadBucketSyncStatus.operate 0 (attrs_after_write 0 written ∅)) reader in
    x = cr_done /\
    tr = [ReadBucketSyncStatus.EvReadAttrs oid] /\
    ReadBucketSyncStatus.status r =
      BucketSyncInfo BStateFullSync (FullMarker (ObjKey "" "") 0) (IncMarker "00000123.1").
Proof.
  intros e oid reader.
  refine (proj1 (read_after_init_decodes_remote_head
                   "us-east" "b1" "inst-A" "abcdefghijklmnop" 0 e ∅
                   rgw_bucket_shard_sync_info_default _ _ _)); simpl; lia.
Defined.

(** X7: when a bucket-shard initialisation ends with an error, it has not
    released the lock: the unlock is issued only by a run that completes. *)
Theorem failed_bucket_init_keeps_lock
    (zone bucket_name bucket_id buf : string) (shard_id : Z)
    (e : InitBucketShardSyncStatus.env) :
  let run := CR.run (InitBucketShardSyncStatus.operate e)
               (InitBucketShardSyncStatus.new zone bucket_name bucket_id shard_id buf) in
  let unlock := InitBucketShardSyncStatus.EvUnlock
                  (RGWBucketSyncStatusManager.status_oid zone bucket_name bucket_id shard_id)
                  "sync_lock" "" in
  In unlock (snd (fst run)) <-> fst (fst run) = cr_done.
Proof.
  intros run unlock. subst run.
  pose proof (init_bucket_shard_run zone bucket_name bucket_id buf shard_id e) as Hrun.
  simpl in Hrun.
  destruct (CR.run _ _) as [[x tr] c]. simpl in *.
  destruct (InitBucketShardSyncStatus.e_write1 e <? 0).
  - injection Hrun as -> ->. split.
    + intros H. simpl in H. repeat (destruct H as [H | H]; [discriminate H |]). destruct H.
    + discriminate.
  - destruct ((InitBucketShardSyncStatus.e_fetch e <? 0) && _).
    + injection Hrun as -> ->. split.
      * intros H. simpl in H. repeat (destruct H as [H | H]; [discriminate H |]). destruct H.
      * discriminate.
    + injection Hrun as -> ->. split; [reflexivity |].
      intros _. simpl. do 5 right. left. reflexivity.
Qed.

(** ** What the bucket single-entry worker reports *)

(** Turns the outcomes of integer tests into facts for [lia]. *)
Ltac zfacts :=
  repeat match goal with
         | H : (_ <? _) = true |- _ => apply Z.ltb_lt in H
         | H : (_ <? _) = false |- _ => apply Z.ltb_ge in H
         | H : (_ =? _) = true |- _ => apply Z.eqb_eq in H
         | H : (_ =? _) = false |- _ => apply Z.eqb_neq in H
         end.

(** X8: a worker for a LinkOLH or a Delete entry issues the transfer and
    then finishes the marker in any case.  A transfer status of [-ENOENT]
    counts as success; any other negative transfer status is the error of
    the worker, after the marker was finished; otherwise the status of the
    marker update decides. *)
Theorem transfer_failure_still_finishes_marker {T : Type}
    (zone : string) (shard_id : Z) (key : rgw_obj_key) (versioned_epoch timestamp : Z)
    (op : RGWModifyOp) (marker : T) (transfer_status finish_status : Z) :
  op = CLS_RGW_OP_LINK_OLH \/ op = CLS_RGW_OP_DEL ->
  let w := BucketSingleEntry.new zone shard_id key versioned_epoch timestamp op marker in
  let transfer :=
    match op with
    | CLS_RGW_OP_DEL => BucketSingleEntry.EvRemoveObj zone key versioned_epoch timestamp
    | _ => BucketSingleEntry.EvFetchRemoteObj zone key versioned_epoch true
    end in
  fst (CR.run (BucketSingleEntry.operate transfer_status finish_status) w) =
    (if (transfer_status <? 0) && negb (transfer_status =? - ENOENT)
     then cr_error transfer_status
     else if finish_status <? 0 then cr_error finish_status else cr_done,
     [transfer; BucketSingleEntry.EvFinish marker]).
Proof.
  intros [-> | ->] w transfer; subst w transfer;
    unfold BucketSingleEntry.operate; cr_unfold;
    destruct (transfer_status <? 0) eqn:E1;
    destruct (transfer_status =? - ENOENT) eqn:E2;
    destruct (finish_status <? 0) eqn:E3;
    destruct (transfer_status =? 0) eqn:E4;
    repeat (progress (simpl; rewrite ?E1, ?E2, ?E3, ?E4)); try reflexivity;
    zfacts; unfold ENOENT in *; lia.
Qed.

Lemma transfer_failure_still_finishes_marker_witness :
  fst (CR.run (BucketSingleEntry.operate (- EIO) 0)
              (BucketSingleEntry.new "us-east" 0 (ObjKey "o" "v1") 7 1000
                                     CLS_RGW_OP_DEL "00000123.1")) =
    (cr_error (- EIO),
     [BucketSingleEntry.EvRemoveObj "us-east" (ObjKey "o" "v1") 7 1000;
      BucketSingleEntry.EvFinish "00000123.1"]).
Proof.
  apply (transfer_failure_still_finishes_marker "us-east" 0 (ObjKey "o" "v1") 7 1000
           CLS_RGW_OP_DEL "00000123.1" (- EIO) 0).
  now right.
Defined.

(** X9: for an entry whose operation is neither Add, LinkOLH nor Delete
    (Cancel, Unknown, LinkOLH-DM, UnlinkInstance) the worker transfers
    nothing: it only finishes the marker, and the status of that update is
    its result. *)
Theorem other_ops_only_finish_marker {T : Type}
    (zone : string) (shard_id : Z) (key : rgw_obj_key) (versioned_epoch timestamp : Z)
    (op : RGWModifyOp) (marker : T) (transfer_status finish_status : Z) :
  op <> CLS_RGW_OP_ADD -> op <> CLS_RGW_OP_LINK_OLH -> op <> CLS_RGW_OP_DEL ->
  fst (CR.run (BucketSingleEntry.operate transfer_status finish_status)
              (BucketSingleEntry.new zone shard_id key versioned_epoch timestamp op marker)) =
    (if finish_status <? 0 then cr_error finish_status else cr_done,
     [BucketSingleEntry.EvFinish marker]).
Proof.
  intros Ha Hl Hd.
  destruct op; try contradiction;
    unfold BucketSingleEntry.operate; cr_unfold;
    destruct (finish_status <? 0); reflexivity.
Qed.

Lemma other_ops_only_finish_marker_witness :
  fst (CR.run (BucketSingleEntry.operate 0 0)
              (BucketSingleEntry.new "us-east" 0 (ObjKey "o" "v1") 7 1000
                                     CLS_RGW_OP_LINK_OLH_DM "00000124.1")) =
    (cr_done, [BucketSingleEntry.EvFinish "00000124.1"]).
Proof.
  apply (other_ops_only_finish_marker "us-east" 0 (ObjKey "o" "v1") 7 1000
           CLS_RGW_OP_LINK_OLH_DM "00000124.1" 0 0); discriminate.
Defined.

(** X10: whatever the listing says about an object (a version instance, a
    delete marker), the worker that bucket full sync starts for it fetches
    the object with the listed [versioned_epoch] and then finishes the
    marker, which is the key itself; full sync never removes an object and
    never takes the skipping path of the worker. *)
Theorem full_sync_worker_fetches_and_finishes
    (s : BucketShard.RGWBucketShardFullSyncCR) (entry : bucket_list_entry)
    (transfer_status finish_status : Z) :
  snd (fst (CR.run (BucketSingleEntry.operate transfer_status finish_status)
                   (BucketShard.full_worker s entry))) =
    [BucketSingleEntry.EvFetchRemoteObj (BucketShard.f_source_zone s) (le_key entry)
       (le_versioned_epoch entry) true;
     BucketSingleEntry.EvFinish (le_key entry)].
Proof.
  unfold BucketShard.full_worker, BucketSingleEntry.operate.
  destruct (is_empty (ok_instance (le_key entry))) eqn:E1; simpl.
  - cr_unfold. rewrite E1. simpl. cr_cases; reflexivity.
  - destruct (String.eqb (ok_instance (le_key entry)) "null") eqn:E2; simpl.
    + cr_unfold. rewrite E1, E2. simpl. cr_cases; reflexivity.
    + cr_unfold. cr_cases; reflexivity.
Qed.

(** ** The retry loop of the datalog single-entry worker *)

(** The loop runs the bucket sync once for every delivery: the deliveries
    [ds] leave the key flagged for retry, the delivery [last] leaves it
    unflagged. *)
Lemma retry_loop_spec (strict_strtol : string -> Z * string)
    (ds : list SingleEntry.delivery) (last : SingleEntry.delivery) :
  forall c : CR.ctx SingleEntry.RGWDataSyncSingleEntryCR SingleEntry.event,
  let w := CR.self c in
  let p := SingleEntry.parse_bucket_shard strict_strtol (SingleEntry.raw_key w) in
  SingleEntry.p_ret p = 0 ->
  Forall (fun d => forall mt, MarkerTrack.need_retry (SingleEntry.raw_key w) (snd d mt) = true) ds ->
  (forall mt, MarkerTrack.need_retry (SingleEntry.raw_key w) mt = false ->
              MarkerTrack.need_retry (SingleEntry.raw_key w) (snd last mt) = false) ->
  exists c',
    SingleEntry.retry_loop strict_strtol (ds ++ [last]) c = (inl tt, c') /\
    CR.trace c' = CR.trace c ++
      repeat (SingleEntry.EvRunBucketSync (SingleEntry.source_zone w)
                (SingleEntry.p_bucket_name p) (SingleEntry.p_bucket_instance p)
                (SingleEntry.p_shard_id p))
             (Datatypes.S (length ds)) /\
    CR.retcode c' = fst last /\
    SingleEntry.raw_key (CR.self c') = SingleEntry.raw_key w /\
    SingleEntry.entry_marker (CR.self c') = SingleEntry.entry_marker w /\
    SingleEntry.source_zone (CR.self c') = SingleEntry.source_zone w /\
    SingleEntry.sync_status (CR.self c') = SingleEntry.sync_status w.
Proof.
  induction ds as [| [st mw] ds IH]; intros c w p Hp Hds Hlast.
  - destruct last as [st mw]. simpl. cr_unfold. fold w. fold p. rewrite Hp. simpl.
    rewrite Hlast.
    + eexists. split; [reflexivity |]. simpl. repeat split.
    + apply need_retry_false. simpl. rewrite elem_of_difference, elem_of_singleton.
      intros [_ H]. now apply H.
  - inversion Hds as [| d ds' Hd Hds']; subst. simpl in Hd.
    simpl app. simpl SingleEntry.retry_loop. cr_unfold. fold w. fold p.
    rewrite Hp. simpl. rewrite Hd.
    match goal with
    | |- context [SingleEntry.retry_loop strict_strtol (ds ++ [last]) ?c1] =>
        destruct (IH c1) as (c' & Heq & Htr & Hrc & Hk & Hm & Hz & Hs);
          [exact Hp | exact Hds' | exact Hlast |]
    end.
    exists c'. split; [exact Heq |].
    simpl in Htr, Hk, Hm, Hz, Hs.
    repeat split; try assumption.
    rewrite Htr. rewrite <- app_assoc. reflexivity.
Qed.

Lemma finish_clears_pending marker mt :
  MarkerTrack.pending (MarkerTrack.finish marker mt) !! marker = None.
Proof.
  unfold MarkerTrack.finish, MarkerTrack.handle_finish. simpl.
  destruct (MarkerTrack.marker_to_key mt !! marker); simpl; apply lookup_delete_eq.
Qed.

(** The whole run of the worker on a key that parses. *)
Lemma single_entry_run (strict_strtol : string -> Z * string)
    (w : SingleEntry.RGWDataSyncSingleEntryCR)
    (ds : list SingleEntry.delivery) (last : SingleEntry.delivery)
    (finish_status : Z) :
  let p := SingleEntry.parse_bucket_shard strict_strtol (SingleEntry.raw_key w) in
  SingleEntry.p_ret p = 0 ->
  Forall (fun d => forall mt, MarkerTrack.need_retry (SingleEntry.raw_key w) (snd d mt) = true) ds ->
  (forall mt, MarkerTrack.need_retry (SingleEntry.raw_key w) mt = false ->
              MarkerTrack.need_retry (SingleEntry.raw_key w) (snd last mt) = false) ->
  let '(e, tr, w') :=
    CR.run (SingleEntry.operate strict_strtol (ds ++ [last]) finish_status) w in
  tr = repeat (SingleEntry.EvRunBucketSync (SingleEntry.source_zone w)
                 (SingleEntry.p_bucket_name p) (SingleEntry.p_bucket_instance p)
                 (SingleEntry.p_shard_id p))
              (Datatypes.S (length ds)) ++
       (if is_empty (SingleEntry.entry_marker w) then []
        else [SingleEntry.EvFinish (SingleEntry.entry_marker w)]) /\
  e = (if is_empty (SingleEntry.entry_marker w)
       then if fst last <? 0 then cr_error (fst last) else cr_done
       else if (fst last <? 0) || ((fst last =? 0) && (finish_status <? 0))
            then cr_error finish_status else cr_done) /\
  (is_empty (SingleEntry.entry_marker w) = false ->
   MarkerTrack.pending (SingleEntry.marker_tracker w') !! SingleEntry.entry_marker w = None).
Proof.
  intros p Hp Hds Hlast.
  destruct (retry_loop_spec strict_strtol ds last (CR.init w) Hp Hds Hlast)
    as (c' & Heq & Htr & Hrc & Hk & Hm & Hz & Hs).
  unfold CR.run, SingleEntry.operate. unfold CR.bind at 1. rewrite Heq.
  destruct c' as [rc tr w']. simpl in Htr, Hrc, Hk, Hm, Hz, Hs. subst rc tr.
  cr_unfold. rewrite Hm.
  destruct (is_empty (SingleEntry.entry_marker w)) eqn:Hem; simpl.
  - destruct (fst last =? 0) eqn:E0; simpl.
    + apply Z.eqb_eq in E0. rewrite E0. simpl. rewrite app_nil_r.
      split; [reflexivity |]. split; [reflexivity | discriminate].
    + destruct (fst last <? 0) eqn:E1; simpl; rewrite app_nil_r;
        (split; [reflexivity |]; split; [reflexivity | discriminate]).
  - destruct (fst last =? 0) eqn:E0; simpl.
    + apply Z.eqb_eq in E0. rewrite E0. simpl.
      destruct (finish_status <? 0) eqn:E2; simpl;
        (split; [reflexivity |]; split; [reflexivity |]; intros _;
         apply finish_clears_pending).
    + destruct (fst last <? 0) eqn:E1; simpl;
        (split; [reflexivity |]; split; [reflexivity |]; intros _;
         apply finish_clears_pending).
Qed.

(** X11: on a key that parses, the datalog worker calls the bucket sync
    once for every time the key is found flagged for retry after a run plus
    once, always for the same bucket shard, and afterwards updates the
    marker exactly when its entry marker is not empty. *)
Theorem bucket_sync_runs_once_per_retry_flag
    (strict_strtol : string -> Z * string)
    (w : SingleEntry.RGWDataSyncSingleEntryCR)
    (ds : list SingleEntry.delivery) (last : SingleEntry.delivery)
    (finish_status : Z) :
  let p := SingleEntry.parse_bucket_shard strict_strtol (SingleEntry.raw_key w) in
  SingleEntry.p_ret p = 0 ->
  Forall (fun d => forall mt, MarkerTrack.need_retry (SingleEntry.raw_key w) (snd d mt) = true) ds ->
  (forall mt, MarkerTrack.need_retry (SingleEntry.raw_key w) mt = false ->
              MarkerTrack.need_retry (SingleEntry.raw_key w) (snd last mt) = false) ->
  snd (fst (CR.run (SingleEntry.operate strict_strtol (ds ++ [last]) finish_status) w)) =
    repeat (SingleEntry.EvRunBucketSync (SingleEntry.source_zone w)
              (SingleEntry.p_bucket_name p) (SingleEntry.p_bucket_instance p)
              (SingleEntry.p_shard_id p))
           (Datatypes.S (length ds)) ++
    (if is_empty (SingleEntry.entry_marker w) then []
     else [SingleEntry.EvFinish (SingleEntry.entry_marker w)]).
Proof.
  intros p Hp Hds Hlast.
  pose proof (single_entry_run strict_strtol w ds last finish_status Hp Hds Hlast) as H.
  destruct (CR.run _ w) as [[e tr] w']. simpl. apply H.
Qed.

Lemma bucket_sync_runs_once_per_retry_flag_witness :
  let w := SingleEntry.new "us-east" "b1:A:3" "1_1" MarkerTrack.empty in
  let flag := fun mt => snd (MarkerTrack.index_key_to_marker "b1:A:3" "1_2"
                               (snd (MarkerTrack.index_key_to_marker "b1:A:3" "1_1" mt))) in
  snd (fst (CR.run (SingleEntry.operate strtol_dec ([(0, flag); (0, flag)] ++ [(0, fun mt => mt)]) 0) w)) =
    [SingleEntry.EvRunBucketSync "us-east" "b1" "A" 3;
     SingleEntry.EvRunBucketSync "us-east" "b1" "A" 3;
     SingleEntry.EvRunBucketSync "us-east" "b1" "A" 3;
     SingleEntry.EvFinish "1_1"].
Proof.
  intros w flag.
  apply (bucket_sync_runs_once_per_retry_flag strtol_dec w [(0, flag); (0, flag)]
           (0, fun mt => mt) 0).
  - reflexivity.
  - assert (Hflag : forall mt, MarkerTrack.need_retry "b1:A:3" (flag mt) = true).
    { intros mt. apply need_retry_true. unfold flag, MarkerTrack.index_key_to_marker.
      destruct (MarkerTrack.key_to_marker mt !! "b1:A:3") eqn:E1; simpl.
      - rewrite E1. simpl. apply elem_of_union_r, elem_of_singleton. reflexivity.
      - rewrite lookup_insert_eq. simpl. apply elem_of_union_r, elem_of_singleton.
        reflexivity. }
    repeat constructor; intros mt; apply Hflag.
  - intros mt H. exact H.
Defined.

(** X12: when the bucket sync of a log entry fails, the datalog worker
    still takes the entry's marker out of the in-flight set, and the error
    it ends with is the status of the marker update, not the status of the
    failed bucket sync. *)
Theorem failed_bucket_sync_ends_with_marker_status
    (strict_strtol : string -> Z * string)
    (w : SingleEntry.RGWDataSyncSingleEntryCR)
    (status : Z) (meanwhile : MarkerTrack.RGWDataSyncShardMarkerTrack ->
                              MarkerTrack.RGWDataSyncShardMarkerTrack)
    (finish_status : Z) :
  SingleEntry.p_ret (SingleEntry.parse_bucket_shard strict_strtol (SingleEntry.raw_key w)) = 0 ->
  SingleEntry.entry_marker w <> "" ->
  status < 0 ->
  (forall mt, MarkerTrack.need_retry (SingleEntry.raw_key w) mt = false ->
              MarkerTrack.need_retry (SingleEntry.raw_key w) (meanwhile mt) = false) ->
  let '(e, tr, w') :=
    CR.run (SingleEntry.operate strict_strtol [(status, meanwhile)] finish_status) w in
  e = cr_error finish_status /\
  last tr = Some (SingleEntry.EvFinish (SingleEntry.entry_marker w)) /\
  MarkerTrack.pending (SingleEntry.marker_tracker w') !! SingleEntry.entry_marker w = None.
Proof.
  intros Hp Hne Hst Hm.
  pose proof (single_entry_run strict_strtol w [] (status, meanwhile) finish_status
                Hp (List.Forall_nil _) Hm) as H.
  simpl app in H.
  destruct (CR.run _ w) as [[e tr] w'].
  destruct H as (Htr & He & Hpend).
  rewrite (is_empty_false _ Hne) in *. simpl in He.
  apply Z.ltb_lt in Hst. rewrite Hst in He. simpl in He.
  split; [exact He |]. split; [rewrite Htr; reflexivity | now apply Hpend].
Qed.

Lemma failed_bucket_sync_ends_with_marker_status_witness :
  let w := SingleEntry.new "us-east" "b1:A:3" "1_1"
             (MarkerTrack.start "1_1" 0 0 MarkerTrack.empty) in
  let '(e, tr, w') :=
    CR.run (SingleEntry.operate strtol_dec [(-5, fun mt => mt)] (-2)) w in
  e = cr_error (-2) /\
  last tr = Some (SingleEntry.EvFinish "1_1") /\
  MarkerTrack.pending (SingleEntry.marker_tracker w') !! "1_1" = None.
Proof.
  intros w.
  apply (failed_bucket_sync_ends_with_marker_status strtol_dec w (-5) (fun mt => mt) (-2)).
  - reflexivity.
  - discriminate.
  - lia.
  - intros mt H. exact H.
Defined.

(** ** Keys of bucket shards: building and parsing *)

Lemma string_length_app (a b : string) :
  String.length (a +:+ b) = (String.length a + String.length b)%nat.
Proof. induction a as [| c a IH]; simpl; [reflexivity | now rewrite IH]. Qed.

Lemma string_app_assoc (a b c : string) : (a +:+ b) +:+ c = a +:+ (b +:+ c).
Proof.
  induction a as [| x a IH]; [reflexivity |].
  change (String x ((a +:+ b) +:+ c) = String x (a +:+ (b +:+ c))).
  f_equal. exact IH.
Qed.

Lemma substring_whole (s : string) (n : nat) :
  (String.length s <= n)%nat -> substring 0 n s = s.
Proof.
  revert n. induction s as [| c s IH]; intros n Hn.
  - destruct n; reflexivity.
  - destruct n; simpl in *; [lia |]. rewrite IH; [reflexivity | lia].
Qed.

Lemma substring_prefix (a b : string) :
  substring 0 (String.length a) (a +:+ b) = a.
Proof.
  induction a as [| c a IH]; simpl.
  - destruct b; reflexivity.
  - now rewrite IH.
Qed.

Lemma substring_skip (a b : string) (n : nat) :
  substring (String.length a) n (a +:+ b) = substring 0 n b.
Proof. induction a as [| c a IH]; simpl; [reflexivity | exact IH]. Qed.

Lemma snprintf_fits (size : nat) (s : string) :
  (String.length s < size)%nat -> snprintf size s = s.
Proof. intros H. unfold snprintf. apply substring_whole. lia. Qed.

Lemma find_from_absent (c : ascii) (s : string) (i : Z) :
  contains c s = false -> find_from c s i = npos.
Proof.
  revert i. induction s as [| a s IH]; intros i H; simpl in *; [reflexivity |].
  apply orb_false_iff in H. destruct H as [Ha Hs]. rewrite Ha. now apply IH.
Qed.

Lemma find_from_first (c : ascii) (a b : string) (i : Z) :
  contains c a = false ->
  find_from c (a +:+ String c b) i = i + Z.of_nat (String.length a).
Proof.
  revert i. induction a as [| x a IH]; intros i H; simpl in *.
  - rewrite Ascii.eqb_refl. lia.
  - apply orb_false_iff in H. destruct H as [Hx Ha]. rewrite Hx.
    rewrite IH by exact Ha. lia.
Qed.

Lemma substr_prefix (a b : string) :
  substr (a +:+ b) 0 (Z.of_nat (String.length a)) = a.
Proof.
  unfold substr. rewrite string_length_app.
  replace (Z.to_nat (Z.min _ _)) with (String.length a) by lia.
  apply substring_prefix.
Qed.

Lemma substr_suffix (a b : string) :
  Z.of_nat (String.length a + String.length b) < 2 ^ 63 ->
  substr (a +:+ b) (Z.of_nat (String.length a)) npos = b.
Proof.
  intros H. unfold substr, npos. rewrite string_length_app.
  rewrite Nat2Z.id.
  replace (Z.to_nat (Z.min _ _)) with (String.length b) by lia.
  rewrite substring_skip. apply substring_whole. lia.
Qed.

Lemma to_ssize_t_small (n : Z) : 0 <= n < 2 ^ 63 -> to_ssize_t n = n.
Proof.
  intros H. unfold to_ssize_t. destruct (2 ^ 63 <=? n) eqn:E; [| reflexivity].
  apply Z.leb_le in E. lia.
Qed.

Lemma to_size_t_small (n : Z) : 0 <= n < 2 ^ 63 -> to_size_t n = n.
Proof. intros H. unfold to_size_t. apply Z.mod_small. lia. Qed.

(** Splitting [a:b] at the first colon. *)
Lemma split_at_colon (a b : string) :
  contains ":" a = false ->
  Z.of_nat (String.length a + String.length b) < 2 ^ 62 ->
  let raw := a +:+ ":" +:+ b in
  let pos := to_ssize_t (find ":" raw) in
  pos = Z.of_nat (String.length a) /\
  substr raw 0 (to_size_t pos) = a /\
  substr raw (to_size_t (pos + 1)) npos = b.
Proof.
  intros Ha Hlen raw pos.
  assert (Hpos : pos = Z.of_nat (String.length a)).
  { unfold pos, raw, find. change (":" +:+ b) with (String ":" b).
    rewrite find_from_first by exact Ha. apply to_ssize_t_small. lia. }
  split; [exact Hpos |]. rewrite Hpos.
  rewrite !to_size_t_small by lia. split.
  - apply substr_prefix.
  - unfold raw. rewrite <- string_app_assoc.
    assert (Hl : Z.of_nat (String.length a) + 1 = Z.of_nat (String.length (a +:+ ":"))).
    { rewrite string_length_app. simpl. lia. }
    rewrite Hl. apply substr_suffix. rewrite string_length_app. simpl. lia.
Qed.

(** X13: parsing inverts key building: the key that [instance_key] builds
    for a bucket name and a bucket id without colons and a shard id that is
    not negative is parsed back by [parse_bucket_shard] into the same name,
    id and shard, without error. *)
Theorem parse_bucket_shard_inverts_instance_key
    (strict_strtol : string -> Z * string)
    (bucket_name bucket_id : string) (shard_id : Z) :
  contains ":" bucket_name = false ->
  contains ":" bucket_id = false ->
  Z.of_nat (String.length bucket_name + String.length bucket_id) < 2 ^ 61 ->
  0 <= shard_id ->
  (String.length (dec shard_id) <= 14)%nat ->
  strict_strtol (dec shard_id) = (shard_id, "") ->
  SingleEntry.parse_bucket_shard strict_strtol (instance_key bucket_name bucket_id shard_id)
    = SingleEntry.Parsed 0 bucket_name bucket_id shard_id.
Proof.
  intros Hn Hi Hlen Hs Hd Hstr.
  unfold instance_key. apply Z.leb_le in Hs. rewrite Hs.
  rewrite snprintf_fits by (rewrite string_length_app; simpl; lia).
  set (d := dec shard_id) in *.
  assert (Hkey : (bucket_name +:+ ":" +:+ bucket_id) +:+ (":" +:+ d)
                 = bucket_name +:+ ":" +:+ (bucket_id +:+ ":" +:+ d)).
  { now rewrite !string_app_assoc. }
  rewrite Hkey.
  assert (Hl2 : Z.of_nat (String.length bucket_id + String.length d) < 2 ^ 62) by lia.
  assert (Hl1 : Z.of_nat (String.length bucket_name +
                          String.length (bucket_id +:+ ":" +:+ d)) < 2 ^ 62).
  { rewrite !string_length_app. simpl. lia. }
  destruct (split_at_colon bucket_name (bucket_id +:+ ":" +:+ d) Hn Hl1)
    as (_ & Hname & Hinst).
  destruct (split_at_colon bucket_id d Hi Hl2) as (Hpos & Hid & Hshard).
  unfold SingleEntry.parse_bucket_shard.
  cbv zeta. rewrite Hname, Hinst, Hshard, Hid, Hpos.
  destruct (0 <=? Z.of_nat (String.length bucket_id)) eqn:E;
    [| apply Z.leb_gt in E; lia].
  rewrite Hstr. reflexivity.
Qed.

Lemma parse_bucket_shard_inverts_instance_key_witness :
  SingleEntry.parse_bucket_shard strtol_dec (instance_key "photos" "zone1.4123.2" 7)
    = SingleEntry.Parsed 0 "photos" "zone1.4123.2" 7.
Proof.
  apply (parse_bucket_shard_inverts_instance_key strtol_dec "photos" "zone1.4123.2" 7).
  - reflexivity.
  - reflexivity.
  - vm_compute. reflexivity.
  - lia.
  - vm_compute. lia.
  - reflexivity.
Defined.

(** X14: a key without a shard part, as [instance_key] builds it for a
    negative shard id, is parsed without error into the bucket name, the
    bucket id and the shard id -1; the number parser is not consulted. *)
Theorem unsharded_key_parses_to_minus_one
    (strict_strtol : string -> Z * string)
    (bucket_name bucket_id : string) (shard_id : Z) :
  contains ":" bucket_name = false ->
  contains ":" bucket_id = false ->
  Z.of_nat (String.length bucket_name + String.length bucket_id) < 2 ^ 61 ->
  shard_id < 0 ->
  SingleEntry.parse_bucket_shard strict_strtol (instance_key bucket_name bucket_id shard_id)
    = SingleEntry.Parsed 0 bucket_name bucket_id (-1).
Proof.
  intros Hn Hi Hlen Hs.
  unfold instance_key. apply Z.leb_gt in Hs. rewrite Hs.
  assert (Hl1 : Z.of_nat (String.length bucket_name + String.length bucket_id) < 2 ^ 62)
    by lia.
  destruct (split_at_colon bucket_name bucket_id Hn Hl1) as (_ & Hname & Hinst).
  unfold SingleEntry.parse_bucket_shard.
  cbv zeta. rewrite Hname, Hinst.
  unfold find. rewrite (find_from_absent _ _ _ Hi).
  reflexivity.
Qed.

Lemma unsharded_key_parses_to_minus_one_witness :
  SingleEntry.parse_bucket_shard (fun _ => (0, "unused"))
      (instance_key "photos" "zone1.4123.2" (-1))
    = SingleEntry.Parsed 0 "photos" "zone1.4123.2" (-1).
Proof.
  apply (unsharded_key_parses_to_minus_one (fun _ => (0, "unused"))
           "photos" "zone1.4123.2" (-1)).
  - reflexivity.
  - reflexivity.
  - vm_compute. reflexivity.
  - lia.
Defined.

(** ** Names of the status objects *)

Lemma to_int_not_nil (z : Z) :
  Z.to_int z <> Decimal.Pos Decimal.Nil /\ Z.to_int z <> Decimal.Neg Decimal.Nil.
Proof.
  destruct z as [| p | p]; simpl; split; try discriminate;
    intros H; injection H as H; exact (DecimalPos.Unsigned.to_uint_nonnil p H).
Qed.

(** [%d] prints different numbers differently. *)
Lemma dec_inj (z1 z2 : Z) : dec z1 = dec z2 -> z1 = z2.
Proof.
  unfold dec. intros H. apply DecimalZ.to_int_inj.
  destruct (to_int_not_nil z1) as [Hp1 Hn1].
  destruct (to_int_not_nil z2) as [Hp2 Hn2].
  pose proof (NilZero.isi _ Hp1 Hn1) as H1.
  pose proof (NilZero.isi _ Hp2 Hn2) as H2.
  rewrite H in H1. rewrite H1 in H2. now injection H2.
Qed.

Lemma string_app_inv_head (a b c : string) : a +:+ b = a +:+ c -> b = c.
Proof.
  induction a as [| x a IH]; intros H; [exact H |].
  change (String x (a +:+ b) = String x (a +:+ c)) in H.
  injection H as H. now apply IH.
Qed.

Lemma substring_app_long (n : nat) (a b : string) :
  (n <= String.length a)%nat -> substring 0 n (a +:+ b) = substring 0 n a.
Proof.
  revert n. induction a as [| x a IH]; intros n Hn.
  - simpl in Hn. assert (n = 0%nat) as -> by lia. destruct b; reflexivity.
  - destruct n as [| n]; [reflexivity |].
    change (String x a +:+ b) with (String x (a +:+ b)). simpl.
    rewrite IH; [reflexivity | simpl in Hn; lia].
Qed.

(** X15: the status objects of different datalog shards of one source zone
    have different names, as long as the printed shard id has at most 13
    characters (as that of every [int] has). *)
Theorem shard_obj_name_injective (source_zone : string) (s1 s2 : Z) :
  (String.length (dec s1) <= 13)%nat ->
  (String.length (dec s2) <= 13)%nat ->
  RGWDataSyncStatusManager.shard_obj_name source_zone s1 =
  RGWDataSyncStatusManager.shard_obj_name source_zone s2 ->
  s1 = s2.
Proof.
  intros H1 H2 H. unfold RGWDataSyncStatusManager.shard_obj_name in H.
  rewrite !snprintf_fits in H by (rewrite !string_length_app; simpl; lia).
  do 4 apply string_app_inv_head in H.
  now apply dec_inj.
Qed.

Lemma shard_obj_name_injective_witness :
  RGWDataSyncStatusManager.shard_obj_name "us-east" 12 =
  RGWDataSyncStatusManager.shard_obj_name "us-east" (4 * 3) /\ 12 = 4 * 3.
Proof.
  split; [reflexivity |].
  apply (shard_obj_name_injective "us-east" 12 (4 * 3)).
  - vm_compute. lia.
  - vm_compute. lia.
  - reflexivity.
Defined.

(** X16: the name of the full-sync index object is cut to the length of
    its prefix plus 15 characters, so for a source zone whose name has 14
    characters or more the shard id does not reach the name: all shards of
    that zone share one index object name. *)
Theorem full_sync_index_oid_drops_shard_of_long_zone
    (source_zone : string) (s1 s2 : Z) :
  (14 <= String.length source_zone)%nat ->
  full_data_sync_index_shard_oid source_zone s1 =
  full_data_sync_index_shard_oid source_zone s2.
Proof.
  intros H. unfold full_data_sync_index_shard_oid, snprintf.
  rewrite <- !string_app_assoc.
  rewrite !(substring_app_long _ _ (dec _))
    by (rewrite !string_length_app; simpl; lia).
  reflexivity.
Qed.

Lemma full_sync_index_oid_drops_shard_of_long_zone_witness :
  full_data_sync_index_shard_oid "us-east-1-zone" 0 =
  full_data_sync_index_shard_oid "us-east-1-zone" 7.
Proof.
  apply (full_sync_index_oid_drops_shard_of_long_zone "us-east-1-zone" 0 7).
  vm_compute. lia.
Defined.

(** ** One round of incremental sync of a datalog shard *)

Lemma string_ltb_irrefl (s : string) : String.ltb s s = false.
Proof.
  unfold String.ltb. pose proof (String.compare_antisym s s) as H.
  destruct (String.compare s s); simpl in H; try reflexivity; discriminate.
Qed.

(** The order in which the wake-up keys are visited: every key of the set
    once, in ascending order. *)
Lemma insert_sorted_elem (k x : string) (l : list string) :
  x ∈ insert_sorted k l <-> x = k \/ x ∈ l.
Proof.
  induction l as [| y l IH]; simpl.
  - rewrite list_elem_of_singleton. split; [auto | intros [H | H]; [exact H | inversion H]].
  - destruct (String.leb k y).
    + rewrite elem_of_cons. reflexivity.
    + rewrite !elem_of_cons, IH. tauto.
Qed.

Lemma insert_sorted_sorted (k : string) (l : list string) :
  Sorted.Sorted (fun a b => String.leb a b = true) l ->
  Sorted.Sorted (fun a b => String.leb a b = true) (insert_sorted k l).
Proof.
  induction 1 as [| y l Hs IH Hhd]; simpl.
  - repeat constructor.
  - destruct (String.leb k y) eqn:E.
    + constructor; [constructor; assumption | constructor; exact E].
    + constructor; [exact IH |].
      assert (Hyk : String.leb y k = true).
      { destruct (String.leb_total k y) as [H | H]; [congruence | exact H]. }
      destruct l as [| z l]; simpl.
      * constructor. exact Hyk.
      * destruct (String.leb k z); constructor; [exact Hyk |].
        inversion Hhd; assumption.
Qed.

Lemma in_key_order_elem (keys : gset string) (k : string) :
  k ∈ in_key_order keys <-> k ∈ keys.
Proof.
  unfold in_key_order. rewrite <- (elem_of_elements keys).
  induction (elements keys) as [| x l IH]; simpl.
  - reflexivity.
  - rewrite insert_sorted_elem, elem_of_cons, IH. reflexivity.
Qed.

Lemma in_key_order_sorted (keys : gset string) :
  Sorted.Sorted (fun a b => String.leb a b = true) (in_key_order keys).
Proof.
  unfold in_key_order.
  induction (elements keys) as [| x l IH]; simpl.
  - constructor.
  - now apply insert_sorted_sorted.
Qed.

(** X17: a round of incremental sync that finds the remote log head equal
    to the shard's marker first starts a worker with an empty entry marker
    for every key that wake-ups have left, in ascending key order, then
    reads the shard info, reads no log, and waits 20 seconds; the set of
    wake-up keys is empty afterwards and the marker is unchanged. *)
Theorem idle_round_dispatches_wakeups_and_waits
    (r : DataSyncShard.round)
    (c : CR.ctx DataSyncShard.RGWDataSyncShardCR DataSyncShard.event) :
  let s := CR.self c in
  0 <= DataSyncShard.r_info_status r ->
  li_marker (DataSyncShard.r_info r) = dsm_marker (DataSyncShard.sync_marker s) ->
  let '(res, c') := DataSyncShard.incremental_round r c in
  res = inl tt /\
  CR.trace c' = CR.trace c ++
    map (fun k => DataSyncShard.EvSpawnSingleEntry k "")
        (in_key_order (DataSyncShard.modified_shards s ∪ DataSyncShard.r_arrivals r)) ++
    [DataSyncShard.EvReadRemoteDataLogShardInfo (DataSyncShard.shard_id s);
     DataSyncShard.EvWait 20] /\
  DataSyncShard.modified_shards (CR.self c') = ∅ /\
  DataSyncShard.sync_marker (CR.self c') = DataSyncShard.sync_marker s.
Proof.
  intros s Hst Hhead. apply Z.ltb_ge in Hst.
  unfold DataSyncShard.incremental_round.
  unfold CR.bind at 1. unfold CR.modify at 1.
  unfold CR.bind at 1. unfold CR.modify at 1.
  unfold CR.bind at 1. unfold CR.get at 1.
  unfold CR.bind at 1. rewrite for_each_spawn.
  cr_unfold. rewrite Hst. simpl. rewrite Hst. simpl.
  fold s. rewrite Hhead. rewrite string_ltb_irrefl, String.eqb_refl. simpl.
  rewrite <- !app_assoc. repeat split.
Qed.

Lemma idle_round_dispatches_wakeups_and_waits_witness :
  let s := DataSyncShard.append_modified_shards {["b1:A:3"]}
             (DataSyncShard.new "us-east" 4
                (DataSyncMarker IncrementalSync "1_7" "" 0 0 0)) in
  let r := DataSyncShard.Round {["b1:A:0"]} 0 (LogInfo "1_7" 0) 0 "" [] false
                               (fun _ mt => mt) in
  let '(res, c') := DataSyncShard.incremental_round r (CR.init s) in
  res = inl tt /\
  CR.trace c' =
    [DataSyncShard.EvSpawnSingleEntry "b1:A:0" "";
     DataSyncShard.EvSpawnSingleEntry "b1:A:3" "";
     DataSyncShard.EvReadRemoteDataLogShardInfo 4;
     DataSyncShard.EvWait 20] /\
  DataSyncShard.modified_shards (CR.self c') = ∅ /\
  DataSyncShard.sync_marker (CR.self c') = DataSyncMarker IncrementalSync "1_7" "" 0 0 0.
Proof.
  intros s r.
  assert (H1 : 0 <= DataSyncShard.r_info_status r) by (simpl; lia).
  assert (H2 : li_marker (DataSyncShard.r_info r) =
               dsm_marker (DataSyncShard.sync_marker s))
    by reflexivity.
  exact (idle_round_dispatches_wakeups_and_waits r (CR.init s) H1 H2).
Defined.

(** X18: when reading the shard info of the remote log fails, the round
    ends the coroutine with that status right after the read: the wake-up
    keys have been dispatched, in ascending key order, no log is read and
    nothing is waited for. *)
Theorem failed_shard_info_read_ends_incremental_sync
    (r : DataSyncShard.round)
    (c : CR.ctx DataSyncShard.RGWDataSyncShardCR DataSyncShard.event) :
  let s := CR.self c in
  DataSyncShard.r_info_status r < 0 ->
  let '(res, c') := DataSyncShard.incremental_round r c in
  res = inr (cr_error (DataSyncShard.r_info_status r)) /\
  CR.trace c' = CR.trace c ++
    map (fun k => DataSyncShard.EvSpawnSingleEntry k "")
        (in_key_order (DataSyncShard.modified_shards s ∪ DataSyncShard.r_arrivals r)) ++
    [DataSyncShard.EvReadRemoteDataLogShardInfo (DataSyncShard.shard_id s)] /\
  DataSyncShard.shard_info (CR.self c') = DataSyncShard.shard_info s.
Proof.
  intros s Hst. apply Z.ltb_lt in Hst.
  unfold DataSyncShard.incremental_round.
  unfold CR.bind at 1. unfold CR.modify at 1.
  unfold CR.bind at 1. unfold CR.modify at 1.
  unfold CR.bind at 1. unfold CR.get at 1.
  unfold CR.bind at 1. rewrite for_each_spawn.
  cr_unfold. rewrite Hst. simpl. rewrite Hst. simpl.
  rewrite <- !app_assoc. repeat split.
Qed.

Lemma failed_shard_info_read_ends_incremental_sync_witness :
  let s := DataSyncShard.append_modified_shards {["b2:B:1"; "b1:A:3"]}
             (DataSyncShard.new "us-east" 4
                (DataSyncMarker IncrementalSync "1_7" "" 0 0 0)) in
  let r := DataSyncShard.Round {["b1:A:0"]} (-5) (LogInfo "1_9" 0) 0 "" [] false
                               (fun _ mt => mt) in
  let '(res, c') := DataSyncShard.incremental_round r (CR.init s) in
  res = inr (cr_error (-5)) /\
  CR.trace c' =
    [DataSyncShard.EvSpawnSingleEntry "b1:A:0" "";
     DataSyncShard.EvSpawnSingleEntry "b1:A:3" "";
     DataSyncShard.EvSpawnSingleEntry "b2:B:1" "";
     DataSyncShard.EvReadRemoteDataLogShardInfo 4] /\
  DataSyncShard.shard_info (CR.self c') = LogInfo "" 0.
Proof.
  intros s r.
  assert (H1 : DataSyncShard.r_info_status r < 0) by (simpl; lia).
  exact (failed_shard_info_read_ends_incremental_sync r (CR.init s) H1).
Defined.

(** The [for] loop over a page of log entries whose ids are all free in
    the tracker and pairwise different. *)
Lemma incremental_entries_all_fresh
    (meanwhile : nat -> MarkerTrack.RGWDataSyncShardMarkerTrack ->
                 MarkerTrack.RGWDataSyncShardMarkerTrack)
    (Hm : forall i mt x, MarkerTrack.key_to_marker mt !! x = None ->
                         MarkerTrack.key_to_marker (meanwhile i mt) !! x = None)
    (l : list rgw_data_change_log_entry) :
  forall (k : nat) (c : CR.ctx DataSyncShard.RGWDataSyncShardCR DataSyncShard.event),
  NoDup (map log_id l) ->
  (forall e, In e l ->
     MarkerTrack.key_to_marker (DataSyncShard.marker_tracker (CR.self c)) !! log_id e = None) ->
  0 <= CR.retcode c ->
  exists c',
    CR.for_each (combine (seq k (length l)) l) (DataSyncShard.incremental_entry meanwhile) c
      = (inl tt, c') /\
    CR.trace c' = CR.trace c ++
      map (fun e => DataSyncShard.EvSpawnSingleEntry (entry_key e) (log_id e)) l /\
    CR.retcode c' = CR.retcode c /\
    DataSyncShard.datalog_marker (CR.self c') = DataSyncShard.datalog_marker (CR.self c) /\
    DataSyncShard.sync_marker (CR.self c') = DataSyncShard.sync_marker (CR.self c).
Proof.
  induction l as [| e l IH]; intros k c Hnd Hfree Hrc.
  - exists c. simpl. rewrite app_nil_r. repeat split.
  - assert (Hunf :
      CR.for_each (combine (seq k (length (e :: l))) (e :: l))
                  (DataSyncShard.incremental_entry meanwhile) c =
      match DataSyncShard.incremental_entry meanwhile (k, e) c with
      | (inl _, c1) =>
          CR.for_each (combine (seq (Datatypes.S k) (length l)) l)
                      (DataSyncShard.incremental_entry meanwhile) c1
      | (inr x, c1) => (inr x, c1)
      end) by reflexivity.
    rewrite Hunf. clear Hunf.
    assert (He : MarkerTrack.key_to_marker
                   (meanwhile k (DataSyncShard.marker_tracker (CR.self c))) !! log_id e = None).
    { apply Hm, Hfree. now left. }
    assert (Hstep : exists c1,
      DataSyncShard.incremental_entry meanwhile (k, e) c = (inl tt, c1) /\
      CR.trace c1 = CR.trace c ++ [DataSyncShard.EvSpawnSingleEntry (entry_key e) (log_id e)] /\
      CR.retcode c1 = CR.retcode c /\
      DataSyncShard.datalog_marker (CR.self c1) = DataSyncShard.datalog_marker (CR.self c) /\
      DataSyncShard.sync_marker (CR.self c1) = DataSyncShard.sync_marker (CR.self c) /\
      MarkerTrack.key_to_marker (DataSyncShard.marker_tracker (CR.self c1)) =
        <[log_id e := entry_key e]>
          (MarkerTrack.key_to_marker (meanwhile k (DataSyncShard.marker_tracker (CR.self c))))).
    { unfold DataSyncShard.incremental_entry, MarkerTrack.index_key_to_marker.
      cr_unfold. rewrite He. simpl.
      apply Z.ltb_ge in Hrc. rewrite Hrc.
      eexists. split; [reflexivity |]. simpl. repeat split. }
    destruct Hstep as (c1 & Heq & Htr & Hrc1 & Hdm & Hsm & Hk).
    rewrite Heq.
    inversion Hnd as [| x xs Hnotin Hnd']; subst.
    destruct (IH (Datatypes.S k) c1 Hnd') as (c' & Heq' & Htr' & Hrc' & Hdm' & Hsm').
    + intros e' Hin. rewrite Hk.
      rewrite lookup_insert_ne.
      * apply Hm, Hfree. now right.
      * intros Heqid. apply Hnotin. rewrite Heqid.
        apply list_elem_of_In. now apply in_map.
    + lia.
    + exists c'. split; [exact Heq' |].
      rewrite Htr', Htr, Hrc', Hrc1, Hdm', Hdm, Hsm', Hsm.
      rewrite <- app_assoc. repeat split.
Qed.

(** X19: a round of incremental sync that finds the remote log head ahead
    of the shard's marker dispatches the wake-up keys in ascending key
    order, reads the shard info and then reads the log from the shard's
    marker.  When that read succeeds, the log ids of the page are pairwise
    different and none of them is indexed in the tracker, it starts one
    worker per entry, in log order, each with the entry's key and its log
    id as marker; the shard's marker moves to the one the read returned,
    and the round waits only if that is the head. *)
Theorem busy_round_dispatches_every_log_entry
    (r : DataSyncShard.round)
    (c : CR.ctx DataSyncShard.RGWDataSyncShardCR DataSyncShard.event) :
  let s := CR.self c in
  0 <= DataSyncShard.r_info_status r ->
  0 <= DataSyncShard.r_log_status r ->
  String.ltb (dsm_marker (DataSyncShard.sync_marker s))
             (li_marker (DataSyncShard.r_info r)) = true ->
  NoDup (map log_id (DataSyncShard.r_log_entries r)) ->
  (forall e, In e (DataSyncShard.r_log_entries r) ->
     MarkerTrack.key_to_marker (DataSyncShard.marker_tracker s) !! log_id e = None) ->
  (forall i mt x, MarkerTrack.key_to_marker mt !! x = None ->
     MarkerTrack.key_to_marker (DataSyncShard.r_meanwhile r i mt) !! x = None) ->
  let '(res, c') := DataSyncShard.incremental_round r c in
  res = inl tt /\
  CR.trace c' = CR.trace c ++
    map (fun k => DataSyncShard.EvSpawnSingleEntry k "")
        (in_key_order (DataSyncShard.modified_shards s ∪ DataSyncShard.r_arrivals r)) ++
    [DataSyncShard.EvReadRemoteDataLogShardInfo (DataSyncShard.shard_id s);
     DataSyncShard.EvReadRemoteDataLogShard (DataSyncShard.shard_id s)
       (dsm_marker (DataSyncShard.sync_marker s))] ++
    map (fun e => DataSyncShard.EvSpawnSingleEntry (entry_key e) (log_id e))
        (DataSyncShard.r_log_entries r) ++
    (if String.eqb (li_marker (DataSyncShard.r_info r)) (DataSyncShard.r_log_marker r)
     then [DataSyncShard.EvWait 20] else []) /\
  dsm_marker (DataSyncShard.sync_marker (CR.self c')) = DataSyncShard.r_log_marker r.
Proof.
  intros s Hst Hlog Hlt Hnd Hfree Hm.
  apply Z.ltb_ge in Hst. pose proof Hlog as Hlog'. apply Z.ltb_ge in Hlog.
  unfold DataSyncShard.incremental_round.
  unfold CR.bind at 1. unfold CR.modify at 1.
  unfold CR.bind at 1. unfold CR.modify at 1.
  unfold CR.bind at 1. unfold CR.get at 1.
  unfold CR.bind at 1. rewrite for_each_spawn.
  cr_unfold. rewrite Hst. simpl. rewrite Hst. simpl.
  fold s. rewrite Hlt. simpl. rewrite Hlog. simpl.
  match goal with
  | |- context [CR.for_each _ _ ?c1] =>
      destruct (incremental_entries_all_fresh (DataSyncShard.r_meanwhile r) Hm
                  (DataSyncShard.r_log_entries r) 0%nat c1 Hnd)
        as (c' & Heq & Htr & Hrc & Hdm & Hsm);
        [exact Hfree | exact Hlog' |]
  end.
  rewrite Heq. simpl in Htr, Hdm, Hsm.
  rewrite Hdm, Hsm. simpl.
  destruct (String.eqb (li_marker (DataSyncShard.r_info r)) (DataSyncShard.r_log_marker r));
    simpl; rewrite Htr, ?app_nil_r, <- ?app_assoc; simpl; repeat split;
    rewrite Hsm; reflexivity.
Qed.

Lemma busy_round_dispatches_every_log_entry_witness :
  let s := DataSyncShard.append_modified_shards {["b1:A:3"; "b1:A:0"]}
             (DataSyncShard.new "us-east" 4
                (DataSyncMarker IncrementalSync "1_7" "" 0 0 0)) in
  let es := [LogEntry "1_8" 100 "b1:A:3"; LogEntry "1_9" 101 "b2:B:0"] in
  let r := DataSyncShard.Round ∅ 0 (LogInfo "1_9" 0) 0 "1_9" es false (fun _ mt => mt) in
  let '(res, c') := DataSyncShard.incremental_round r (CR.init s) in
  res = inl tt /\
  CR.trace c' =
    [DataSyncShard.EvSpawnSingleEntry "b1:A:0" "";
     DataSyncShard.EvSpawnSingleEntry "b1:A:3" "";
     DataSyncShard.EvReadRemoteDataLogShardInfo 4;
     DataSyncShard.EvReadRemoteDataLogShard 4 "1_7";
     DataSyncShard.EvSpawnSingleEntry "b1:A:3" "1_8";
     DataSyncShard.EvSpawnSingleEntry "b2:B:0" "1_9";
     DataSyncShard.EvWait 20] /\
  dsm_marker (DataSyncShard.sync_marker (CR.self c')) = "1_9".
Proof.
  intros s es r.
  assert (H1 : 0 <= DataSyncShard.r_info_status r) by (simpl; lia).
  assert (H2 : 0 <= DataSyncShard.r_log_status r) by (simpl; lia).
  assert (H3 : String.ltb (dsm_marker (DataSyncShard.sync_marker s))
                          (li_marker (DataSyncShard.r_info r)) = true) by reflexivity.
  assert (H4 : NoDup (map log_id (DataSyncShard.r_log_entries r)))
    by (apply (bool_decide_unpack _); vm_compute; exact I).
  assert (H5 : forall e, In e (DataSyncShard.r_log_entries r) ->
                 MarkerTrack.key_to_marker
                   (DataSyncShard.marker_tracker s) !! log_id e = None)
    by (intros e _; reflexivity).
  assert (H6 : forall i mt x, MarkerTrack.key_to_marker mt !! x = None ->
                 MarkerTrack.key_to_marker (DataSyncShard.r_meanwhile r i mt) !! x = None)
    by (intros i mt x H; exact H).
  exact (busy_round_dispatches_every_log_entry r (CR.init s) H1 H2 H3 H4 H5 H6).
Defined.

(** ** Full sync of a datalog shard: what is dispatched, and read failures *)

Lemma spawned_entries_app (a b : list DataSyncShard.event) :
  spawned_entries (a ++ b) = spawned_entries a ++ spawned_entries b.
Proof.
  induction a as [| e a IH]; [reflexivity |].
  destruct e; simpl; rewrite IH; reflexivity.
Qed.

Lemma spawned_entries_spawns (f : string -> string) (l : list string) :
  spawned_entries (map (fun k => DataSyncShard.EvSpawnSingleEntry k (f k)) l) =
  map (fun k => (k, f k)) l.
Proof. induction l as [| k l IH]; simpl; [reflexivity | now rewrite IH]. Qed.

Lemma full_sync_frame_refl c : full_sync_frame c c.
Proof. repeat split. Qed.

Lemma full_sync_frame_trans c1 c2 c3 :
  full_sync_frame c1 c2 -> full_sync_frame c2 c3 -> full_sync_frame c1 c3.
Proof.
  intros (A1 & A2 & A3 & A4) (B1 & B2 & B3 & B4).
  repeat split; congruence.
Qed.

(** The [for] loop over the keys of one page, entered with a status that
    is no error. *)
Lemma full_sync_entries_run (es : list string) :
  forall c : CR.ctx DataSyncShard.RGWDataSyncShardCR DataSyncShard.event,
  0 <= CR.retcode c ->
  exists c',
    CR.for_each es DataSyncShard.full_sync_entry c = (inl tt, c') /\
    CR.trace c' = CR.trace c ++ map (fun k => DataSyncShard.EvSpawnSingleEntry k k) es /\
    CR.retcode c' = CR.retcode c /\
    DataSyncShard.total_entries (CR.self c') =
      DataSyncShard.total_entries (CR.self c) + Z.of_nat (length es) /\
    full_sync_frame c c'.
Proof.
  induction es as [| k es IH]; intros c Hrc.
  - exists c. simpl. rewrite app_nil_r. repeat split. lia.
  - assert (Hunf :
      CR.for_each (k :: es) DataSyncShard.full_sync_entry c =
      match DataSyncShard.full_sync_entry k c with
      | (inl _, c1) => CR.for_each es DataSyncShard.full_sync_entry c1
      | (inr x, c1) => (inr x, c1)
      end) by reflexivity.
    rewrite Hunf. clear Hunf.
    unfold DataSyncShard.full_sync_entry at 1. cr_unfold.
    pose proof Hrc as Hrc'. apply Z.ltb_ge in Hrc'. rewrite Hrc'.
    match goal with
    | |- context [CR.for_each es _ ?c1] =>
        destruct (IH c1 Hrc) as (c' & Heq & Htr & Hr & Htot & Hfr)
    end.
    exists c'. split; [exact Heq |]. simpl in Htr, Hr, Htot.
    rewrite Htr, Hr, Htot. rewrite <- app_assoc.
    repeat split; try apply Hfr. simpl length. lia.
Qed.

(** The page loop over pages that were all read and full, followed by
    further pages. *)
Lemma full_sync_full_pages (full rest : list (Z * list string)) :
  Forall (fun p => 0 <= fst p /\ length (snd p) = 100%nat) full ->
  forall c : CR.ctx DataSyncShard.RGWDataSyncShardCR DataSyncShard.event,
  exists c',
    DataSyncShard.full_sync_pages (full ++ rest) c = DataSyncShard.full_sync_pages rest c' /\
    spawned_entries (CR.trace c') =
      spawned_entries (CR.trace c) ++ map (fun k => (k, k)) (concat (map snd full)) /\
    (forallb pumping (CR.trace c) = true -> forallb pumping (CR.trace c') = true) /\
    DataSyncShard.total_entries (CR.self c') =
      DataSyncShard.total_entries (CR.self c) + Z.of_nat (length (concat (map snd full))) /\
    full_sync_frame c c'.
Proof.
  induction 1 as [| [st es] full [Hp Hl] _ IH]; intros c.
  - exists c. simpl. rewrite app_nil_r. repeat split; [auto | lia].
  - simpl in Hp, Hl. simpl app. simpl DataSyncShard.full_sync_pages.
    unfold CR.bind at 1. unfold CR.get at 1.
    unfold CR.bind at 1.
    unfold CR.call, CR.bind, CR.emit, CR.ret, CR.resume, CR.get_retcode. simpl.
    pose proof Hp as Hp'. apply Z.ltb_ge in Hp'. rewrite Hp'.
    match goal with
    | |- context [CR.for_each es _ ?c1] =>
        destruct (full_sync_entries_run es c1 Hp) as (c2 & Heq & Htr & Hr & Htot & Hfr)
    end.
    rewrite Heq. rewrite Hl.
    change (DataSyncShard.to_int (Z.of_nat 100) =? DataSyncShard.OMAP_GET_MAX_ENTRIES)
      with true.
    cbv iota.
    destruct (IH c2) as (c' & Heq' & Hsp & Hpump & Htot' & Hfr').
    exists c'. split; [exact Heq' |]. simpl in Htr, Htot.
    split; [| split; [| split]].
    + rewrite Hsp, Htr. rewrite !spawned_entries_app.
      rewrite (spawned_entries_spawns (fun k => k)). simpl.
      rewrite map_app, app_nil_r, <- app_assoc. reflexivity.
    + intros Hpc. apply Hpump. rewrite Htr, !forallb_app, Hpc. simpl.
      clear. induction es; simpl; auto.
    + rewrite Htot', Htot. simpl. rewrite length_app. lia.
    + eapply full_sync_frame_trans; [| exact Hfr']. exact Hfr.
Qed.

(** X20: when a page read of full sync fails, the shard ends with the
    status of that read; the keys of the pages read before have been
    dispatched, and the shard has neither drained its workers nor written
    its marker. *)
Theorem full_sync_page_read_failure_ends_full_sync
    (s : DataSyncShard.RGWDataSyncShardCR)
    (full : list (Z * list string)) (st : Z) (es : list string)
    (rest : list (Z * list string)) (write_status : Z) :
  Forall (fun p => 0 <= fst p /\ length (snd p) = 100%nat) full ->
  st < 0 ->
  let '(e, tr, s') :=
    CR.run (DataSyncShard.full_sync (full ++ (st, es) :: rest) write_status) s in
  e = cr_error st /\
  forallb pumping tr = true /\
  spawned_entries tr = map (fun k => (k, k)) (concat (map snd full)).
Proof.
  intros Hfull Hst.
  unfold CR.run, DataSyncShard.full_sync.
  unfold CR.bind at 1. unfold CR.get at 1.
  unfold CR.bind at 1. unfold CR.modify at 1.
  unfold CR.bind at 1. unfold CR.modify at 1.
  unfold CR.bind at 1. unfold CR.modify at 1.
  unfold CR.bind at 1. simpl.
  match goal with
  | |- context [DataSyncShard.full_sync_pages _ ?c1] =>
      destruct (full_sync_full_pages full ((st, es) :: rest) Hfull c1)
        as (c' & Heq & Hsp & Hpump & _ & _)
  end.
  rewrite Heq. simpl in Hsp, Hpump.
  simpl DataSyncShard.full_sync_pages. cr_unfold.
  apply Z.ltb_lt in Hst. rewrite Hst.
  split; [reflexivity |]. simpl. split.
  - rewrite forallb_app, Hpump; reflexivity.
  - rewrite spawned_entries_app, Hsp. simpl. now rewrite app_nil_r.
Qed.

Lemma full_sync_page_read_failure_ends_full_sync_witness :
  let s := DataSyncShard.new "us-east" 1 (DataSyncMarker FullSync "" "1_5" 2 0 77) in
  let '(e, tr, s') :=
    CR.run (DataSyncShard.full_sync ([] ++ (-5, ["b1:A:0"]) :: []) 0) s in
  e = cr_error (-5) /\
  forallb pumping tr = true /\
  spawned_entries tr = map (fun k => (k, k)) (concat (map snd (@nil (Z * list string)))).
Proof.
  intros s.
  apply (full_sync_page_read_failure_ends_full_sync s [] (-5) ["b1:A:0"] [] 0).
  - constructor.
  - lia.
Defined.

(** X21: when the enumeration of the full-sync index is exhausted, the
    shard has started exactly one worker for every key of every page, in
    the order of the pages, each with the key itself as entry marker, and
    its entry counter has grown by the number of keys. *)
Theorem full_sync_dispatches_every_key_once
    (s : DataSyncShard.RGWDataSyncShardCR)
    (full : list (Z * list string)) (last : Z * list string) (write_status : Z) :
  Forall (fun p => 0 <= fst p /\ length (snd p) = 100%nat) full ->
  0 <= fst last ->
  (length (snd last) < 100)%nat ->
  let keys := concat (map snd (full ++ [last])) in
  let '(e, tr, s') := CR.run (DataSyncShard.full_sync (full ++ [last]) write_status) s in
  spawned_entries tr = map (fun k => (k, k)) keys /\
  DataSyncShard.total_entries s' =
    DataSyncShard.to_int (dsm_pos (DataSyncShard.sync_marker s)) + Z.of_nat (length keys).
Proof.
  intros Hfull Hst Hlen keys.
  unfold CR.run, DataSyncShard.full_sync.
  unfold CR.bind at 1. unfold CR.get at 1.
  unfold CR.bind at 1. unfold CR.modify at 1.
  unfold CR.bind at 1. unfold CR.modify at 1.
  unfold CR.bind at 1. unfold CR.modify at 1.
  unfold CR.bind at 1. simpl.
  match goal with
  | |- context [DataSyncShard.full_sync_pages _ ?c1] =>
      destruct (full_sync_full_pages full [last] Hfull c1)
        as (c' & Heq & Hsp & _ & Htot & _)
  end.
  rewrite Heq. simpl in Hsp, Htot.
  destruct last as [st es]. simpl in Hst, Hlen.
  simpl DataSyncShard.full_sync_pages.
  unfold CR.bind at 1. unfold CR.get at 1.
  unfold CR.bind at 1.
  unfold CR.call, CR.bind, CR.emit, CR.ret, CR.resume, CR.get_retcode. simpl.
  pose proof Hst as Hst'. apply Z.ltb_ge in Hst'. rewrite Hst'.
  match goal with
  | |- context [CR.for_each es _ ?c1] =>
      destruct (full_sync_entries_run es c1 Hst) as (c2 & Heq2 & Htr2 & _ & Htot2 & _)
  end.
  rewrite Heq2. simpl in Htr2, Htot2.
  rewrite to_int_small by (unfold DataSyncShard.OMAP_GET_MAX_ENTRIES; lia).
  destruct (Z.of_nat (length es) =? DataSyncShard.OMAP_GET_MAX_ENTRIES) eqn:E;
    [apply Z.eqb_eq in E; unfold DataSyncShard.OMAP_GET_MAX_ENTRIES in E; lia |].
  assert (Hkeys : keys = concat (map snd full) ++ es).
  { unfold keys. rewrite map_app, concat_app. simpl. now rewrite app_nil_r. }
  cr_unfold.
  assert (Hgoal :
    spawned_entries (CR.trace c2) = map (fun k => (k, k)) keys /\
    DataSyncShard.total_entries (CR.self c2) =
      DataSyncShard.to_int (dsm_pos (DataSyncShard.sync_marker s)) + Z.of_nat (length keys)).
  { split.
    - rewrite Htr2, !spawned_entries_app, Hsp.
      rewrite (spawned_entries_spawns (fun k => k)). simpl.
      rewrite Hkeys, map_app, app_nil_r. reflexivity.
    - rewrite Htot2, Htot, Hkeys, length_app. lia. }
  destruct Hgoal as [Hg1 Hg2].
  destruct (write_status <? 0); unfold CR.exit; cbv beta iota;
    cbn [CR.trace CR.self DataSyncShard.set_sync_marker DataSyncShard.total_entries];
    (split; [rewrite !spawned_entries_app, Hg1; simpl; now rewrite !app_nil_r | exact Hg2]).
Qed.

Lemma full_sync_dispatches_every_key_once_witness :
  let s := DataSyncShard.new "us-east" 1 (DataSyncMarker FullSync "" "1_5" 2 0 77) in
  let keys := concat (map snd ([] ++ [(0, ["b1:A:0"; "b2:B"])])) in
  let '(e, tr, s') :=
    CR.run (DataSyncShard.full_sync ([] ++ [(0, ["b1:A:0"; "b2:B"])]) 0) s in
  spawned_entries tr = map (fun k => (k, k)) keys /\
  DataSyncShard.total_entries s' = DataSyncShard.to_int 0 + Z.of_nat (length keys).
Proof.
  intros s.
  apply (full_sync_dispatches_every_key_once s [] (0, ["b1:A:0"; "b2:B"]) 0).
  - constructor.
  - simpl. lia.
  - simpl. lia.
Defined.

(** ** The two phases of a datalog shard in sequence *)

(** A round of incremental sync does not look at the status it is entered
    with. *)
Lemma incremental_round_ignores_retcode (r : DataSyncShard.round)
    (rc1 rc2 : Z) (tr : list DataSyncShard.event) (s : DataSyncShard.RGWDataSyncShardCR) :
  DataSyncShard.incremental_round r (CR.Ctx rc1 tr s) =
  DataSyncShard.incremental_round r (CR.Ctx rc2 tr s).
Proof.
  unfold DataSyncShard.incremental_round.
  unfold CR.bind at 1. unfold CR.modify at 1.
  unfold CR.bind at 1. unfold CR.modify at 1.
  unfold CR.bind at 1. unfold CR.get at 1.
  unfold CR.bind at 1. rewrite for_each_spawn.
  symmetry.
  unfold CR.bind at 1. unfold CR.modify at 1.
  unfold CR.bind at 1. unfold CR.modify at 1.
  unfold CR.bind at 1. unfold CR.get at 1.
  unfold CR.bind at 1. rewrite for_each_spawn.
  cr_unfold. reflexivity.
Qed.

(** X22: the status of the marker write that ends full sync has no
    influence on the shard: whatever it is, the shard goes on to
    incremental sync and behaves in the same way there. *)
Theorem full_sync_marker_write_status_is_ignored
    (pages : list (Z * list string)) (ws1 ws2 : Z)
    (rounds : list DataSyncShard.round) (s : DataSyncShard.RGWDataSyncShardCR) :
  CR.run (DataSyncShardRun.operate pages ws1 rounds) s =
  CR.run (DataSyncShardRun.operate pages ws2 rounds) s.
Proof.
  unfold CR.run, DataSyncShardRun.operate. cr_unfold.
  destruct (dsm_state (DataSyncShard.sync_marker s)); [| reflexivity].
  match goal with
  | |- context [DataSyncShard.full_sync_pages pages ?c1] =>
      destruct (DataSyncShard.full_sync_pages pages c1) as [[[] | x] c2]
  end; [| reflexivity].
  unfold DataSyncShard.incremental_sync.
  destruct rounds as [| r rounds]; [reflexivity |].
  simpl DataSyncShard.incremental_rounds.
  cr_unfold.
  match goal with
  | |- context [DataSyncShard.incremental_round r (CR.Ctx ws1 ?tr ?s1)] =>
      rewrite (incremental_round_ignores_retcode r ws1 ws2 tr s1)
  end.
  reflexivity.
Qed.

(** ** Initialising the status of a zone *)

(** Every run of the initialisation. *)
Lemma init_data_sync_run (e : InitDataSyncStatus.env)
    (c : InitDataSyncStatus.RGWInitDataSyncStatusCoroutine) :
  let lock := InitDataSyncStatus.EvLock (InitDataSyncStatus.sync_status_oid c)
                (InitDataSyncStatus.lock_name c) (InitDataSyncStatus.cookie c) 30 in
  let ids := InitDataSyncStatus.shard_ids c in
  let head := [lock;
               InitDataSyncStatus.EvWriteInfo (InitDataSyncStatus.sync_status_oid c)
                 (InitDataSyncStatus.status c);
               lock] in
  let reads := map InitDataSyncStatus.EvSpawnReadShardInfo ids in
  let c1 := InitDataSyncStatus.set_shards_info (InitDataSyncStatus.e_infos e) c in
  let st2 := DataSyncInfo StateBuildingFullSyncMaps
               (dsi_num_shards (InitDataSyncStatus.status c)) in
  let c2 := InitDataSyncStatus.set_status st2 c1 in
  let writes :=
    map (fun i => InitDataSyncStatus.EvSpawnWriteMarker
                    (RGWDataSyncStatusManager.shard_obj_name
                       (InitDataSyncStatus.source_zone c) i)
                    (InitDataSyncStatus.initial_marker
                       (default (LogInfo "" 0) (InitDataSyncStatus.e_infos e !! i)))) ids in
  CR.run (InitDataSyncStatus.operate e) c =
    if InitDataSyncStatus.e_write1 e <? 0
    then (cr_error (InitDataSyncStatus.e_write1 e), head, c)
    else if existsb (fun r => r <? 0) (InitDataSyncStatus.e_collect1 e)
    then (cr_state_error, head ++ reads, c1)
    else (if existsb (fun r => r <? 0) (InitDataSyncStatus.e_collect2 e)
          then cr_state_error else cr_done,
          head ++ reads ++ writes ++
            [InitDataSyncStatus.EvWriteInfo (InitDataSyncStatus.sync_status_oid c) st2;
             InitDataSyncStatus.EvUnlock (InitDataSyncStatus.sync_status_oid c)
               (InitDataSyncStatus.lock_name c) (InitDataSyncStatus.cookie c)],
          c2).
Proof.
  intros lock ids head reads c1 st2 c2 writes.
  unfold CR.run, InitDataSyncStatus.operate.
  unfold CR.bind, CR.get, CR.call, CR.emit, CR.ret, CR.resume, CR.get_retcode,
    CR.modify, CR.init, CR.set_cr_error, CR.set_cr_done, CR.exit.
  simpl.
  destruct (InitDataSyncStatus.e_write1 e <? 0); simpl; [reflexivity |].
  rewrite for_each_spawn. simpl. rewrite collect_loop_eq. simpl.
  destruct (existsb _ (InitDataSyncStatus.e_collect1 e)); simpl; [reflexivity |].
  rewrite for_each_spawn. simpl. rewrite collect_loop_eq. simpl.
  unfold head, reads, writes, ids, c2, c1, st2, lock, InitDataSyncStatus.shard_ids.
  simpl.
  destruct (existsb _ (InitDataSyncStatus.e_collect2 e)); simpl;
    rewrite <- !app_assoc; reflexivity.
Qed.

(** X23: the statuses of the two lock requests, of the second write of the
    status object and of the unlock have no influence on the
    initialisation of a zone: with any other values for them it issues the
    same operations and ends in the same way. *)
Theorem init_ignores_lock_and_final_write_statuses
    (e : InitDataSyncStatus.env) (lock1 lock2 write2 unlock : Z)
    (c : InitDataSyncStatus.RGWInitDataSyncStatusCoroutine) :
  CR.run (InitDataSyncStatus.operate e) c =
  CR.run (InitDataSyncStatus.operate
            (InitDataSyncStatus.Env lock1 (InitDataSyncStatus.e_write1 e) lock2
               (InitDataSyncStatus.e_infos e) (InitDataSyncStatus.e_collect1 e)
               write2 unlock (InitDataSyncStatus.e_collect2 e))) c.
Proof. rewrite !init_data_sync_run. reflexivity. Qed.

(** X24: a failure of the first write of the status object is noticed only
    inside the block that requests the lock again: the initialisation ends
    with the status of that write after it has issued the second lock
    request, and it has started no read and no marker write. *)
Theorem failed_first_status_write_ends_init_after_relock
    (e : InitDataSyncStatus.env)
    (c : InitDataSyncStatus.RGWInitDataSyncStatusCoroutine) :
  InitDataSyncStatus.e_write1 e < 0 ->
  let lock := InitDataSyncStatus.EvLock (InitDataSyncStatus.sync_status_oid c)
                (InitDataSyncStatus.lock_name c) (InitDataSyncStatus.cookie c) 30 in
  CR.run (InitDataSyncStatus.operate e) c =
    (cr_error (InitDataSyncStatus.e_write1 e),
     [lock;
      InitDataSyncStatus.EvWriteInfo (InitDataSyncStatus.sync_status_oid c)
        (InitDataSyncStatus.status c);
      lock],
     c).
Proof.
  intros H lock. rewrite init_data_sync_run. apply Z.ltb_lt in H. rewrite H. reflexivity.
Qed.

Lemma failed_first_status_write_ends_init_after_relock_witness :
  let c := InitDataSyncStatus.new "us-east" 2 "abcdefghijklmnop" in
  let e := InitDataSyncStatus.Env 0 (-5) 0 ∅ [] 0 0 [] in
  let lock := InitDataSyncStatus.EvLock "datalog.sync-status.us-east" "sync_lock" "" 30 in
  CR.run (InitDataSyncStatus.operate e) c =
    (cr_error (-5),
     [lock;
      InitDataSyncStatus.EvWriteInfo "datalog.sync-status.us-east" (DataSyncInfo StateInit 2);
      lock],
     c).
Proof.
  intros c e lock.
  apply (failed_first_status_write_ends_init_after_relock e c).
  simpl. lia.
Defined.

(** X25: when the first status write succeeds and no read of a shard's
    log info fails, the initialisation writes one marker per shard, to the
    shard's status object: state FullSync, empty marker, and as next-step
    marker and timestamp the head of the remote log as it was read (the
    empty one for a shard whose read stored nothing); then it writes the
    zone status with state BuildingFullSyncMaps and unlocks. *)
Theorem init_writes_a_marker_for_every_shard
    (e : InitDataSyncStatus.env)
    (c : InitDataSyncStatus.RGWInitDataSyncStatusCoroutine) :
  0 <= InitDataSyncStatus.e_write1 e ->
  Forall (fun r => 0 <= r) (InitDataSyncStatus.e_collect1 e) ->
  let ids := RemoteDataLog.upto
               (RemoteDataLog.to_int (dsi_num_shards (InitDataSyncStatus.status c))) in
  let oid := InitDataSyncStatus.sync_status_oid c in
  let lock := InitDataSyncStatus.EvLock oid (InitDataSyncStatus.lock_name c)
                (InitDataSyncStatus.cookie c) 30 in
  let info := fun i => default (LogInfo "" 0) (InitDataSyncStatus.e_infos e !! i) in
  let st2 := DataSyncInfo StateBuildingFullSyncMaps
               (dsi_num_shards (InitDataSyncStatus.status c)) in
  let '(ex, tr, c') := CR.run (InitDataSyncStatus.operate e) c in
  tr = [lock; InitDataSyncStatus.EvWriteInfo oid (InitDataSyncStatus.status c); lock] ++
       map InitDataSyncStatus.EvSpawnReadShardInfo ids ++
       map (fun i => InitDataSyncStatus.EvSpawnWriteMarker
                       (RGWDataSyncStatusManager.shard_obj_name
                          (InitDataSyncStatus.source_zone c) i)
                       (DataSyncMarker FullSync "" (li_marker (info i)) 0 0
                                       (li_last_update (info i)))) ids ++
       [InitDataSyncStatus.EvWriteInfo oid st2;
        InitDataSyncStatus.EvUnlock oid (InitDataSyncStatus.lock_name c)
          (InitDataSyncStatus.cookie c)] /\
  InitDataSyncStatus.status c' = st2 /\
  ex = (if existsb (fun r => r <? 0) (InitDataSyncStatus.e_collect2 e)
        then cr_state_error else cr_done).
Proof.
  intros Hw Hc ids oid lock info st2.
  rewrite init_data_sync_run.
  apply Z.ltb_ge in Hw. rewrite Hw.
  assert (Hex : existsb (fun r => r <? 0) (InitDataSyncStatus.e_collect1 e) = false).
  { induction Hc as [| r rs Hr _ IH]; simpl; [reflexivity |].
    apply Z.ltb_ge in Hr. now rewrite Hr. }
  rewrite Hex. repeat split.
Qed.

Lemma init_writes_a_marker_for_every_shard_witness :
  let c := InitDataSyncStatus.new "us-east" 2 "abcdefghijklmnop" in
  let e := InitDataSyncStatus.Env 0 0 0 {[ 0 := LogInfo "1_9" 77 ]} [0; 0] 0 0 [0; 0] in
  let '(ex, tr, c') := CR.run (InitDataSyncStatus.operate e) c in
  tr = [InitDataSyncStatus.EvLock "datalog.sync-status.us-east" "sync_lock" "" 30;
        InitDataSyncStatus.EvWriteInfo "datalog.sync-status.us-east" (DataSyncInfo StateInit 2);
        InitDataSyncStatus.EvLock "datalog.sync-status.us-east" "sync_lock" "" 30] ++
       map InitDataSyncStatus.EvSpawnReadShardInfo [0; 1] ++
       map (fun i => InitDataSyncStatus.EvSpawnWriteMarker
                       (RGWDataSyncStatusManager.shard_obj_name "us-east" i)
                       (DataSyncMarker FullSync ""
                          (li_marker (default (LogInfo "" 0)
                                        (({[ 0 := LogInfo "1_9" 77 ]} : gmap Z RGWDataChangesLogInfo) !! i)))
                          0 0
                          (li_last_update (default (LogInfo "" 0)
                                        (({[ 0 := LogInfo "1_9" 77 ]} : gmap Z RGWDataChangesLogInfo) !! i)))))
           [0; 1] ++
       [InitDataSyncStatus.EvWriteInfo "datalog.sync-status.us-east"
          (DataSyncInfo StateBuildingFullSyncMaps 2);
        InitDataSyncStatus.EvUnlock "datalog.sync-status.us-east" "sync_lock" ""] /\
  InitDataSyncStatus.status c' = DataSyncInfo StateBuildingFullSyncMaps 2 /\
  ex = cr_done.
Proof.
  intros c e.
  apply (init_writes_a_marker_for_every_shard e c).
  - simpl. lia.
  - simpl. repeat constructor; lia.
Defined.

(** ** The phases of one bucket shard *)

(** X26: a bucket shard whose status read gives the state Init runs, when
    every step succeeds, the initialisation, then full sync, then
    incremental sync, and both syncs start from the markers that the
    status read delivered: the status is not read again after the
    initialisation. *)
Theorem new_bucket_shard_runs_all_phases_from_read_markers
    (c : RunBucketSync.RGWRunBucketSyncCoroutine) (e : RunBucketSync.env) :
  0 <= RunBucketSync.e_read e ->
  bs_state (RunBucketSync.e_status e) = BStateInit ->
  0 <= RunBucketSync.e_bucket_info e ->
  0 <= RunBucketSync.e_init e ->
  0 <= RunBucketSync.e_full e ->
  let '(ex, tr, c') := CR.run (RunBucketSync.operate e) c in
  tr = [RunBucketSync.EvReadBucketSyncStatus
          (RGWBucketSyncStatusManager.status_oid
             (RunBucketSync.source_zone c) (RunBucketSync.bucket_name c)
             (RunBucketSync.bucket_id c) (RunBucketSync.shard_id c));
        RunBucketSync.EvGetBucketInstanceInfo
          (RunBucketSync.bucket_name c) (RunBucketSync.bucket_id c);
        RunBucketSync.EvInitBucketShardSyncStatus
          (RunBucketSync.source_zone c) (RunBucketSync.bucket_name c)
          (RunBucketSync.bucket_id c) (RunBucketSync.shard_id c);
        RunBucketSync.EvBucketShardFullSync (bs_full_marker (RunBucketSync.e_status e));
        RunBucketSync.EvBucketShardIncrementalSync
          (bs_inc_marker (RunBucketSync.e_status e))] /\
  ex = (if RunBucketSync.e_inc e <? 0 then cr_error (RunBucketSync.e_inc e) else cr_done).
Proof.
  intros Hr Hst Hb Hi Hf.
  apply Z.ltb_ge in Hr, Hb, Hi, Hf.
  unfold RunBucketSync.operate. cr_unfold.
  repeat (progress (simpl; rewrite ?Hr, ?Hst, ?Hb, ?Hi, ?Hf)).
  destruct (RunBucketSync.e_inc e <? 0); simpl; split; reflexivity.
Qed.

Lemma new_bucket_shard_runs_all_phases_from_read_markers_witness :
  let c := RunBucketSync.new "us-east" "b1" "inst-A" 3 in
  let e := RunBucketSync.Env 0 rgw_bucket_shard_sync_info_default 0 0 0 0 in
  let '(ex, tr, c') := CR.run (RunBucketSync.operate e) c in
  tr = [RunBucketSync.EvReadBucketSyncStatus
          (RGWBucketSyncStatusManager.status_oid "us-east" "b1" "inst-A" 3);
        RunBucketSync.EvGetBucketInstanceInfo "b1" "inst-A";
        RunBucketSync.EvInitBucketShardSyncStatus "us-east" "b1" "inst-A" 3;
        RunBucketSync.EvBucketShardFullSync
          (bs_full_marker rgw_bucket_shard_sync_info_default);
        RunBucketSync.EvBucketShardIncrementalSync
          (bs_inc_marker rgw_bucket_shard_sync_info_default)] /\
  ex = cr_done.
Proof.
  intros c e.
  apply (new_bucket_shard_runs_all_phases_from_read_markers c e);
    [simpl; lia | reflexivity | simpl; lia | simpl; lia | simpl; lia].
Defined.

(** X27: when full sync of a bucket shard fails, the run ends with that
    status and incremental sync is not started, although the state held in
    memory has already been switched to IncrementalSync. *)
Theorem failed_bucket_full_sync_stops_the_run
    (c : RunBucketSync.RGWRunBucketSyncCoroutine) (e : RunBucketSync.env) :
  0 <= RunBucketSync.e_read e ->
  bs_state (RunBucketSync.e_status e) = BStateFullSync ->
  0 <= RunBucketSync.e_bucket_info e ->
  RunBucketSync.e_full e < 0 ->
  let '(ex, tr, c') := CR.run (RunBucketSync.operate e) c in
  ex = cr_error (RunBucketSync.e_full e) /\
  tr = [RunBucketSync.EvReadBucketSyncStatus
          (RGWBucketSyncStatusManager.status_oid
             (RunBucketSync.source_zone c) (RunBucketSync.bucket_name c)
             (RunBucketSync.bucket_id c) (RunBucketSync.shard_id c));
        RunBucketSync.EvGetBucketInstanceInfo
          (RunBucketSync.bucket_name c) (RunBucketSync.bucket_id c);
        RunBucketSync.EvBucketShardFullSync (bs_full_marker (RunBucketSync.e_status e))] /\
  bs_state (RunBucketSync.sync_status c') = BStateIncrementalSync.
Proof.
  intros Hr Hst Hb Hf.
  apply Z.ltb_ge in Hr, Hb. apply Z.ltb_lt in Hf.
  unfold RunBucketSync.operate. cr_unfold.
  repeat (progress (simpl; rewrite ?Hr, ?Hst, ?Hb, ?Hf)).
  repeat split.
Qed.

Lemma failed_bucket_full_sync_stops_the_run_witness :
  let c := RunBucketSync.new "us-east" "b1" "inst-A" 3 in
  let st := BucketSyncInfo BStateFullSync (FullMarker (ObjKey "o5" "") 5) (IncMarker "00000009.1") in
  let e := RunBucketSync.Env 0 st 0 0 (-5) 0 in
  let '(ex, tr, c') := CR.run (RunBucketSync.operate e) c in
  ex = cr_error (-5) /\
  tr = [RunBucketSync.EvReadBucketSyncStatus
          (RGWBucketSyncStatusManager.status_oid "us-east" "b1" "inst-A" 3);
        RunBucketSync.EvGetBucketInstanceInfo "b1" "inst-A";
        RunBucketSync.EvBucketShardFullSync (FullMarker (ObjKey "o5" "") 5)] /\
  bs_state (RunBucketSync.sync_status c') = BStateIncrementalSync.
Proof.
  intros c st e.
  apply (failed_bucket_full_sync_stops_the_run c e);
    [simpl; lia | reflexivity | simpl; lia | simpl; lia].
Defined.

(** ** Bucket-shard full sync: what is dispatched *)

Lemma spawned_workers_app {T : Type} (a b : list (BucketShard.event T)) :
  spawned_workers (a ++ b) = spawned_workers a ++ spawned_workers b.
Proof.
  induction a as [| e a IH]; [reflexivity |].
  destruct e; simpl; rewrite IH; reflexivity.
Qed.

Lemma same_full_shard_refl s : same_full_shard s s.
Proof. repeat split. Qed.

Lemma same_full_shard_trans s1 s2 s3 :
  same_full_shard s1 s2 -> same_full_shard s2 s3 -> same_full_shard s1 s3.
Proof.
  intros (A1 & A2 & A3 & A4 & A5) (B1 & B2 & B3 & B4 & B5).
  repeat split; congruence.
Qed.

Lemma full_worker_same_shard s s' entry :
  same_full_shard s s' -> BucketShard.full_worker s' entry = BucketShard.full_worker s entry.
Proof.
  intros (A1 & _ & _ & A4 & _). unfold BucketShard.full_worker. now rewrite A1, A4.
Qed.

(** The throttling loop returns when its fuel covers the children, and
    only waits. *)
Lemma f_throttle_runs (fuel : nat) (completed : nat -> nat) :
  forall c : CR.ctx BucketShard.RGWBucketShardFullSyncCR (BucketShard.event rgw_obj_key),
  (Children.num_spawned (BucketShard.f_children (CR.self c)) <= fuel)%nat ->
  0 <= BucketShard.f_spawn_window (CR.self c) ->
  exists c',
    BucketShard.f_throttle fuel completed c = (inl tt, c') /\
    spawned_workers (CR.trace c') = spawned_workers (CR.trace c) /\
    CR.retcode c' = CR.retcode c /\
    same_full_shard (CR.self c) (CR.self c') /\
    BucketShard.f_total_entries (CR.self c') = BucketShard.f_total_entries (CR.self c) /\
    BucketShard.f_list_result (CR.self c') = BucketShard.f_list_result (CR.self c) /\
    BucketShard.f_list_marker (CR.self c') = BucketShard.f_list_marker (CR.self c).
Proof.
  induction fuel as [| fuel IH]; intros c Hn Hw.
  - simpl. cr_unfold.
    destruct (_ <? _) eqn:E; [apply Z.ltb_lt in E; lia |].
    exists c. repeat split.
  - simpl. unfold CR.bind at 1. unfold CR.get at 1.
    destruct (_ <? _) eqn:E.
    + unfold CR.bind at 1. unfold CR.emit at 1.
      unfold CR.bind at 1. unfold CR.modify at 1. cbv beta iota.
      match goal with
      | |- context [BucketShard.f_throttle fuel completed ?c1] =>
          destruct (IH c1) as (c' & Heq & Htr & Hrc & Hsame & Ht & Hl & Hm)
      end.
      * simpl. unfold Children.harvested. apply Z.ltb_lt in E. lia.
      * exact Hw.
      * exists c'. split; [exact Heq |]. simpl in Htr, Hrc, Ht, Hl, Hm.
        rewrite Htr, spawned_workers_app. simpl. rewrite app_nil_r.
        repeat split; try assumption; apply Hsame.
    + exists c. repeat split.
Qed.

Lemma full_entry_runs (completed : nat -> nat) (entry : bucket_list_entry)
    (c : CR.ctx BucketShard.RGWBucketShardFullSyncCR (BucketShard.event rgw_obj_key)) :
  0 <= BucketShard.f_spawn_window (CR.self c) ->
  exists c',
    BucketShard.full_entry completed entry c = (inl tt, c') /\
    spawned_workers (CR.trace c') =
      spawned_workers (CR.trace c) ++ [BucketShard.full_worker (CR.self c) entry] /\
    CR.retcode c' = CR.retcode c /\
    same_full_shard (CR.self c) (CR.self c') /\
    BucketShard.f_total_entries (CR.self c') = BucketShard.f_total_entries (CR.self c) + 1 /\
    BucketShard.f_list_result (CR.self c') = BucketShard.f_list_result (CR.self c) /\
    BucketShard.f_list_marker (CR.self c') = le_key entry.
Proof.
  intros Hw. unfold BucketShard.full_entry.
  unfold CR.bind at 1. unfold CR.get at 1.
  unfold CR.bind at 1. unfold CR.modify at 1.
  unfold CR.bind at 1. unfold CR.emit at 1.
  unfold CR.bind at 1. unfold CR.modify at 1.
  unfold CR.bind at 1. unfold CR.spawn, CR.emit at 1.
  unfold CR.bind at 1. unfold CR.modify at 1.
  unfold CR.bind at 1. unfold CR.get at 1. cbv beta iota.
  match goal with
  | |- context [BucketShard.f_throttle ?f completed ?c1] =>
      destruct (f_throttle_runs f completed c1)
        as (c' & Heq & Htr & Hrc & Hsame & Ht & Hl & Hm)
  end.
  - simpl. lia.
  - exact Hw.
  - exists c'. split; [exact Heq |]. simpl in Htr, Hrc, Ht, Hl, Hm.
    rewrite Htr, !spawned_workers_app. simpl. rewrite app_nil_r.
    repeat split; try assumption; apply Hsame.
Qed.

Lemma full_entries_run (completed : nat -> nat) (es : list bucket_list_entry) :
  forall c : CR.ctx BucketShard.RGWBucketShardFullSyncCR (BucketShard.event rgw_obj_key),
  0 <= BucketShard.f_spawn_window (CR.self c) ->
  exists c',
    CR.for_each es (BucketShard.full_entry completed) c = (inl tt, c') /\
    spawned_workers (CR.trace c') =
      spawned_workers (CR.trace c) ++ map (BucketShard.full_worker (CR.self c)) es /\
    same_full_shard (CR.self c) (CR.self c') /\
    BucketShard.f_total_entries (CR.self c') =
      BucketShard.f_total_entries (CR.self c) + Z.of_nat (length es) /\
    BucketShard.f_list_result (CR.self c') = BucketShard.f_list_result (CR.self c).
Proof.
  induction es as [| e es IH]; intros c Hw.
  - exists c. simpl. rewrite app_nil_r. repeat split. lia.
  - assert (Hunf :
      CR.for_each (e :: es) (BucketShard.full_entry completed) c =
      match BucketShard.full_entry completed e c with
      | (inl _, c1) => CR.for_each es (BucketShard.full_entry completed) c1
      | (inr x, c1) => (inr x, c1)
      end) by reflexivity.
    rewrite Hunf. clear Hunf.
    destruct (full_entry_runs completed e c Hw)
      as (c1 & Heq & Htr & _ & Hsame & Ht & Hl & _).
    rewrite Heq.
    assert (Hw1 : 0 <= BucketShard.f_spawn_window (CR.self c1)).
    { destruct Hsame as (_ & _ & _ & _ & H5). now rewrite H5. }
    destruct (IH c1 Hw1) as (c' & Heq' & Htr' & Hsame' & Ht' & Hl').
    exists c'. split; [exact Heq' |].
    split; [| split; [| split]].
    + rewrite Htr', Htr, <- app_assoc. simpl.
      rewrite (map_ext_in _ (BucketShard.full_worker (CR.self c)));
        [reflexivity | intros a _; now apply full_worker_same_shard].
    + eapply same_full_shard_trans; eassumption.
    + rewrite Ht', Ht. simpl length. lia.
    + congruence.
Qed.

(** One page of the listing that was read without error. *)
Lemma full_page_runs (completed : nat -> nat) (status : Z) (result : bucket_list_result)
    (pages : list (Z * bucket_list_result))
    (c : CR.ctx BucketShard.RGWBucketShardFullSyncCR (BucketShard.event rgw_obj_key)) :
  0 <= status ->
  0 <= BucketShard.f_spawn_window (CR.self c) ->
  exists c',
    BucketShard.full_pages completed ((status, result) :: pages) c =
      (if lr_is_truncated result then BucketShard.full_pages completed pages c'
       else (inl tt, c')) /\
    spawned_workers (CR.trace c') =
      spawned_workers (CR.trace c) ++
      map (BucketShard.full_worker (CR.self c)) (lr_entries result) /\
    same_full_shard (CR.self c) (CR.self c') /\
    BucketShard.f_total_entries (CR.self c') =
      BucketShard.f_total_entries (CR.self c) + Z.of_nat (length (lr_entries result)).
Proof.
  intros Hst Hw. simpl BucketShard.full_pages. cr_unfold.
  apply Z.ltb_ge in Hst. rewrite Hst. simpl. rewrite Hst. simpl.
  match goal with
  | |- context [CR.for_each (lr_entries result) _ ?c1] =>
      destruct (full_entries_run completed (lr_entries result) c1 Hw)
        as (c' & Heq & Htr & Hsame & Ht & Hl)
  end.
  rewrite Heq.
  simpl in Hl. rewrite Hl.
  exists c'. split; [destruct (lr_is_truncated result); reflexivity |].
  simpl in Htr, Hsame, Ht.
  rewrite Htr, spawned_workers_app. simpl. rewrite app_nil_r.
  repeat split; try assumption; apply Hsame.
Qed.

Lemma full_pages_run (completed : nat -> nat)
    (full : list (Z * bucket_list_result)) (last : Z * bucket_list_result) :
  Forall (fun p => 0 <= fst p /\ lr_is_truncated (snd p) = true) full ->
  0 <= fst last ->
  lr_is_truncated (snd last) = false ->
  forall c : CR.ctx BucketShard.RGWBucketShardFullSyncCR (BucketShard.event rgw_obj_key),
  0 <= BucketShard.f_spawn_window (CR.self c) ->
  exists c',
    BucketShard.full_pages completed (full ++ [last]) c = (inl tt, c') /\
    spawned_workers (CR.trace c') =
      spawned_workers (CR.trace c) ++
      map (BucketShard.full_worker (CR.self c))
          (concat (map (fun p => lr_entries (snd p)) (full ++ [last]))) /\
    same_full_shard (CR.self c) (CR.self c') /\
    BucketShard.f_total_entries (CR.self c') =
      BucketShard.f_total_entries (CR.self c) +
      Z.of_nat (length (concat (map (fun p => lr_entries (snd p)) (full ++ [last])))).
Proof.
  intros Hfull Hst Hlast.
  induction Hfull as [| [st res] full [Hp Ht] _ IH]; intros c Hw.
  - destruct last as [st res]. simpl in Hst, Hlast. simpl app.
    destruct (full_page_runs completed st res [] c Hst Hw) as (c' & Heq & Htr & Hsame & Htot).
    rewrite Hlast in Heq. exists c'. split; [exact Heq |].
    simpl. rewrite app_nil_r. repeat split; try assumption; apply Hsame.
  - simpl in Hp, Ht. simpl app.
    destruct (full_page_runs completed st res (full ++ [last]) c Hp Hw)
      as (c1 & Heq & Htr & Hsame & Htot).
    rewrite Ht in Heq. rewrite Heq.
    assert (Hw1 : 0 <= BucketShard.f_spawn_window (CR.self c1)).
    { destruct Hsame as (_ & _ & _ & _ & H5). now rewrite H5. }
    destruct (IH c1 Hw1) as (c' & Heq' & Htr' & Hsame' & Htot').
    exists c'. split; [exact Heq' |].
    split; [| split].
    + rewrite (map_ext_in _ (BucketShard.full_worker (CR.self c))) in Htr'
        by (intros a _; now apply full_worker_same_shard).
      rewrite Htr', Htr, <- app_assoc. simpl.
      rewrite (map_app (BucketShard.full_worker (CR.self c))). reflexivity.
    + eapply same_full_shard_trans; eassumption.
    + rewrite Htot', Htot. simpl. rewrite length_app. lia.
Qed.

(** X28: when every listing of bucket-shard full sync succeeds and the
    last one is not truncated, the shard has started exactly one worker
    for every listed entry, in listing order, has counted the entries on
    from the count of its full marker as converted to [int], and ends,
    after draining, with one write that sets only the state attribute, to
    IncrementalSync. *)
Theorem bucket_full_sync_dispatches_every_listed_entry
    (completed : nat -> nat) (s : BucketShard.RGWBucketShardFullSyncCR)
    (full : list (Z * bucket_list_result)) (last : Z * bucket_list_result)
    (write_status : Z) :
  0 <= BucketShard.f_spawn_window s ->
  Forall (fun p => 0 <= fst p /\ lr_is_truncated (snd p) = true) full ->
  0 <= fst last ->
  lr_is_truncated (snd last) = false ->
  let entries := concat (map (fun p => lr_entries (snd p)) (full ++ [last])) in
  let '(ex, tr, s') :=
    CR.run (BucketShard.full_operate completed (full ++ [last]) write_status) s in
  spawned_workers tr = map (BucketShard.full_worker s) entries /\
  BucketShard.f_total_entries s' =
    DataSyncShard.to_int (fm_count (BucketShard.f_full_marker s)) +
    Z.of_nat (length entries) /\
  (exists pre,
     tr = pre ++
       [BucketShard.EvDrainAll;
        BucketShard.EvWriteAttrs
          (RGWBucketSyncStatusManager.status_oid
             (BucketShard.f_source_zone s) (BucketShard.f_bucket_name s)
             (BucketShard.f_bucket_id s) (BucketShard.f_shard_id s))
          {[ "state" := [AttrState BStateIncrementalSync] ]}]) /\
  ex = (if write_status <? 0 then cr_error write_status else cr_done).
Proof.
  intros Hw Hfull Hst Hlast entries.
  unfold CR.run, BucketShard.full_operate.
  unfold CR.bind at 1. unfold CR.get at 1.
  unfold CR.bind at 1. unfold CR.modify at 1.
  unfold CR.bind at 1. unfold CR.modify at 1.
  unfold CR.bind at 1. cbn [CR.init CR.self CR.trace CR.retcode].
  match goal with
  | |- context [BucketShard.full_pages completed _ ?c1] =>
      destruct (full_pages_run completed full last Hfull Hst Hlast c1 Hw)
        as (c' & Heq & Htr & Hsame & Htot)
  end.
  rewrite Heq. simpl in Htr, Htot.
  destruct Hsame as (H1 & H2 & H3 & H4 & H5). simpl in H1, H2, H3, H4.
  cr_unfold. rewrite H1, H2, H3, H4.
  destruct (write_status <? 0); simpl;
    rewrite !spawned_workers_app, Htr; simpl; rewrite !app_nil_r;
    (split; [reflexivity |]; split; [exact Htot |]; split; [| reflexivity];
     eexists; rewrite <- app_assoc; reflexivity).
Qed.

Lemma bucket_full_sync_dispatches_every_listed_entry_witness :
  let s := BucketShard.new_full "us-east" "b1" "inst-A" 0
             (FullMarker (ObjKey "" "") (2 ^ 32 + 5)) in
  let page := ListResult false [ListEntry false (ObjKey "o1" "") true 1000 0;
                                ListEntry false (ObjKey "o2" "v7") true 1001 3] in
  let entries := concat (map (fun p : Z * bucket_list_result => lr_entries (snd p))
                             ([] ++ [(0, page)])) in
  let '(ex, tr, s') :=
    CR.run (BucketShard.full_operate (fun _ => 1%nat) ([] ++ [(0, page)]) 0) s in
  spawned_workers tr = map (BucketShard.full_worker s) entries /\
  BucketShard.f_total_entries s' = 5 + Z.of_nat (length entries) /\
  (exists pre,
     tr = pre ++
       [BucketShard.EvDrainAll;
        BucketShard.EvWriteAttrs
          (RGWBucketSyncStatusManager.status_oid "us-east" "b1" "inst-A" 0)
          {[ "state" := [AttrState BStateIncrementalSync] ]}]) /\
  ex = cr_done.
Proof.
  intros s page.
  apply (bucket_full_sync_dispatches_every_listed_entry (fun _ => 1%nat) s [] (0, page) 0).
  - simpl. unfold BUCKET_SYNC_SPAWN_WINDOW. lia.
  - constructor.
  - simpl. lia.
  - reflexivity.
Defined.

(** ** Bucket-shard incremental sync: what is dispatched, and listing failures *)

Lemma same_inc_shard_refl s : same_inc_shard s s.
Proof. repeat split. Qed.

Lemma same_inc_shard_trans s1 s2 s3 :
  same_inc_shard s1 s2 -> same_inc_shard s2 s3 -> same_inc_shard s1 s3.
Proof.
  intros (A1 & A2 & A3 & A4 & A5) (B1 & B2 & B3 & B4 & B5).
  repeat split; congruence.
Qed.

Lemma inc_worker_same_shard s s' entry :
  same_inc_shard s s' -> BucketShard.inc_worker s' entry = BucketShard.inc_worker s entry.
Proof.
  intros (A1 & _ & _ & A4 & _). unfold BucketShard.inc_worker. now rewrite A1, A4.
Qed.

Lemma i_throttle_runs (fuel : nat) (completed : nat -> nat) :
  forall c : CR.ctx BucketShard.RGWBucketShardIncrementalSyncCR (BucketShard.event string),
  (Children.num_spawned (BucketShard.i_children (CR.self c)) <= fuel)%nat ->
  0 <= BucketShard.i_spawn_window (CR.self c) ->
  exists c',
    BucketShard.i_throttle fuel completed c = (inl tt, c') /\
    spawned_workers (CR.trace c') = spawned_workers (CR.trace c) /\
    same_inc_shard (CR.self c) (CR.self c') /\
    BucketShard.i_list_result (CR.self c') = BucketShard.i_list_result (CR.self c) /\
    BucketShard.i_inc_marker (CR.self c') = BucketShard.i_inc_marker (CR.self c).
Proof.
  induction fuel as [| fuel IH]; intros c Hn Hw.
  - simpl. cr_unfold.
    destruct (_ <? _) eqn:E; [apply Z.ltb_lt in E; lia |].
    exists c. repeat split.
  - simpl. unfold CR.bind at 1. unfold CR.get at 1.
    destruct (_ <? _) eqn:E.
    + unfold CR.bind at 1. unfold CR.emit at 1.
      unfold CR.bind at 1. unfold CR.modify at 1. cbv beta iota.
      match goal with
      | |- context [BucketShard.i_throttle fuel completed ?c1] =>
          destruct (IH c1) as (c' & Heq & Htr & Hsame & Hl & Hm)
      end.
      * simpl. unfold Children.harvested. apply Z.ltb_lt in E. lia.
      * exact Hw.
      * exists c'. split; [exact Heq |]. simpl in Htr, Hl, Hm.
        rewrite Htr, spawned_workers_app. simpl. rewrite app_nil_r.
        repeat split; try assumption; apply Hsame.
    + exists c. repeat split.
Qed.

Lemma inc_entry_runs (completed : nat -> nat) (entry : rgw_bi_log_entry)
    (c : CR.ctx BucketShard.RGWBucketShardIncrementalSyncCR (BucketShard.event string)) :
  0 <= BucketShard.i_spawn_window (CR.self c) ->
  exists c',
    BucketShard.inc_entry completed entry c = (inl tt, c') /\
    spawned_workers (CR.trace c') =
      spawned_workers (CR.trace c) ++ [BucketShard.inc_worker (CR.self c) entry] /\
    same_inc_shard (CR.self c) (CR.self c') /\
    BucketShard.i_list_result (CR.self c') = BucketShard.i_list_result (CR.self c) /\
    BucketShard.i_inc_marker (CR.self c') = IncMarker (bi_id entry).
Proof.
  intros Hw. unfold BucketShard.inc_entry.
  unfold CR.bind at 1. unfold CR.get at 1.
  unfold CR.bind at 1. unfold CR.emit at 1.
  unfold CR.bind at 1. unfold CR.modify at 1.
  unfold CR.bind at 1. unfold CR.spawn, CR.emit at 1.
  unfold CR.bind at 1. unfold CR.modify at 1.
  unfold CR.bind at 1. unfold CR.get at 1. cbv beta iota.
  match goal with
  | |- context [BucketShard.i_throttle ?f completed ?c1] =>
      destruct (i_throttle_runs f completed c1) as (c' & Heq & Htr & Hsame & Hl & Hm)
  end.
  - simpl. lia.
  - exact Hw.
  - exists c'. split; [exact Heq |]. simpl in Htr, Hl, Hm.
    rewrite Htr, !spawned_workers_app. simpl. rewrite app_nil_r.
    repeat split; try assumption; apply Hsame.
Qed.

Lemma last_cons_default {A : Type} (x : A) (l : list A) (d d' : A) :
  List.last (x :: l) d = List.last (x :: l) d'.
Proof.
  revert x. induction l as [| y l IH]; intros x; [reflexivity |].
  change (List.last (y :: l) d = List.last (y :: l) d'). apply IH.
Qed.

Lemma inc_entries_run (completed : nat -> nat) (es : list rgw_bi_log_entry) :
  forall c : CR.ctx BucketShard.RGWBucketShardIncrementalSyncCR (BucketShard.event string),
  0 <= BucketShard.i_spawn_window (CR.self c) ->
  exists c',
    CR.for_each es (BucketShard.inc_entry completed) c = (inl tt, c') /\
    spawned_workers (CR.trace c') =
      spawned_workers (CR.trace c) ++ map (BucketShard.inc_worker (CR.self c)) es /\
    same_inc_shard (CR.self c) (CR.self c') /\
    BucketShard.i_list_result (CR.self c') = BucketShard.i_list_result (CR.self c) /\
    im_position (BucketShard.i_inc_marker (CR.self c')) =
      List.last (map bi_id es) (im_position (BucketShard.i_inc_marker (CR.self c))).
Proof.
  induction es as [| e es IH]; intros c Hw.
  - exists c. simpl. rewrite app_nil_r. repeat split.
  - assert (Hunf :
      CR.for_each (e :: es) (BucketShard.inc_entry completed) c =
      match BucketShard.inc_entry completed e c with
      | (inl _, c1) => CR.for_each es (BucketShard.inc_entry completed) c1
      | (inr x, c1) => (inr x, c1)
      end) by reflexivity.
    rewrite Hunf. clear Hunf.
    destruct (inc_entry_runs completed e c Hw) as (c1 & Heq & Htr & Hsame & Hl & Hm).
    rewrite Heq.
    assert (Hw1 : 0 <= BucketShard.i_spawn_window (CR.self c1)).
    { destruct Hsame as (_ & _ & _ & _ & H5). now rewrite H5. }
    destruct (IH c1 Hw1) as (c' & Heq' & Htr' & Hsame' & Hl' & Hm').
    exists c'. split; [exact Heq' |].
    split; [| split; [| split]].
    + rewrite (map_ext_in _ (BucketShard.inc_worker (CR.self c))) in Htr'
        by (intros a _; now apply inc_worker_same_shard).
      rewrite Htr', Htr, <- app_assoc. reflexivity.
    + eapply same_inc_shard_trans; eassumption.
    + congruence.
    + rewrite Hm', Hm. simpl map.
      destruct (map bi_id es) as [| x xs] eqn:E; [reflexivity |].
      change (List.last (bi_id e :: x :: xs) ?d) with (List.last (x :: xs) d).
      apply last_cons_default.
Qed.

Lemma last_app_default {A : Type} (l1 l2 : list A) (d : A) :
  List.last (l1 ++ l2) d = List.last l2 (List.last l1 d).
Proof.
  induction l1 as [| x l1 IH]; [reflexivity |].
  destruct l1 as [| y l1].
  - simpl app. destruct l2 as [| z l2]; [reflexivity |].
    change (List.last (x :: z :: l2) d) with (List.last (z :: l2) d).
    apply last_cons_default.
  - change (List.last ((x :: y :: l1) ++ l2) d) with (List.last ((y :: l1) ++ l2) d).
    rewrite IH. reflexivity.
Qed.

(** One page of the bucket index log that was read without error. *)
Lemma inc_page_runs (completed : nat -> nat) (status : Z) (result : list rgw_bi_log_entry)
    (pages : list (Z * list rgw_bi_log_entry))
    (c : CR.ctx BucketShard.RGWBucketShardIncrementalSyncCR (BucketShard.event string)) :
  0 <= status ->
  0 <= BucketShard.i_spawn_window (CR.self c) ->
  exists c',
    BucketShard.inc_pages completed ((status, result) :: pages) c =
      (match result with
       | [] => (inl tt, c')
       | _ :: _ => BucketShard.inc_pages completed pages c'
       end) /\
    spawned_workers (CR.trace c') =
      spawned_workers (CR.trace c) ++ map (BucketShard.inc_worker (CR.self c)) result /\
    same_inc_shard (CR.self c) (CR.self c') /\
    im_position (BucketShard.i_inc_marker (CR.self c')) =
      List.last (map bi_id result) (im_position (BucketShard.i_inc_marker (CR.self c))).
Proof.
  intros Hst Hw. simpl BucketShard.inc_pages. cr_unfold.
  apply Z.ltb_ge in Hst. rewrite Hst. simpl. rewrite Hst. simpl.
  match goal with
  | |- context [CR.for_each result _ ?c1] =>
      destruct (inc_entries_run completed result c1 Hw)
        as (c' & Heq & Htr & Hsame & Hl & Hm)
  end.
  rewrite Heq.
  simpl in Hl. rewrite Hl.
  exists c'. split; [destruct result; reflexivity |].
  simpl in Htr, Hsame, Hm.
  rewrite Htr, spawned_workers_app. simpl. rewrite app_nil_r.
  repeat split; try assumption; apply Hsame.
Qed.

Lemma inc_pages_run (completed : nat -> nat)
    (full : list (Z * list rgw_bi_log_entry)) (st : Z) :
  Forall (fun p => 0 <= fst p /\ snd p <> []) full ->
  0 <= st ->
  forall c : CR.ctx BucketShard.RGWBucketShardIncrementalSyncCR (BucketShard.event string),
  0 <= BucketShard.i_spawn_window (CR.self c) ->
  exists c',
    BucketShard.inc_pages completed (full ++ [(st, [])]) c = (inl tt, c') /\
    spawned_workers (CR.trace c') =
      spawned_workers (CR.trace c) ++
      map (BucketShard.inc_worker (CR.self c)) (concat (map snd full)) /\
    same_inc_shard (CR.self c) (CR.self c') /\
    im_position (BucketShard.i_inc_marker (CR.self c')) =
      List.last (map bi_id (concat (map snd full)))
                (im_position (BucketShard.i_inc_marker (CR.self c))).
Proof.
  intros Hfull Hst.
  induction Hfull as [| [s res] full [Hp Hne] _ IH]; intros c Hw.
  - simpl app.
    destruct (inc_page_runs completed st [] [] c Hst Hw) as (c' & Heq & Htr & Hsame & Hm).
    exists c'. split; [exact Heq |]. simpl in *. repeat split; try assumption; apply Hsame.
  - simpl in Hp, Hne. simpl app.
    destruct (inc_page_runs completed s res (full ++ [(st, [])]) c Hp Hw)
      as (c1 & Heq & Htr & Hsame & Hm).
    destruct res as [| e res]; [contradiction |].
    rewrite Heq.
    assert (Hw1 : 0 <= BucketShard.i_spawn_window (CR.self c1)).
    { destruct Hsame as (_ & _ & _ & _ & H5). now rewrite H5. }
    destruct (IH c1 Hw1) as (c' & Heq' & Htr' & Hsame' & Hm').
    exists c'. split; [exact Heq' |].
    split; [| split].
    + rewrite (map_ext_in _ (BucketShard.inc_worker (CR.self c))) in Htr'
        by (intros a _; now apply inc_worker_same_shard).
      rewrite Htr', Htr, <- app_assoc.
      change (concat (map snd ((s, e :: res) :: full)))
        with ((e :: res) ++ concat (map snd full)).
      rewrite (map_app (BucketShard.inc_worker (CR.self c))). reflexivity.
    + eapply same_inc_shard_trans; eassumption.
    + rewrite Hm', Hm.
      change (concat (map snd ((s, e :: res) :: full)))
        with ((e :: res) ++ concat (map snd full)).
      rewrite (map_app bi_id), last_app_default. reflexivity.
Qed.

(** X29: bucket-shard incremental sync lists the bucket index log until a
    listing comes back empty.  When every listing succeeds it has then
    started exactly one worker for every log entry, in log order, its
    marker stands at the id of the last entry, and it ends without error
    after draining its workers. *)
Theorem bucket_inc_sync_dispatches_every_log_entry
    (completed : nat -> nat) (s : BucketShard.RGWBucketShardIncrementalSyncCR)
    (full : list (Z * list rgw_bi_log_entry)) (st : Z) :
  0 <= BucketShard.i_spawn_window s ->
  Forall (fun p => 0 <= fst p /\ snd p <> []) full ->
  0 <= st ->
  let entries := concat (map snd full) in
  let '(ex, tr, s') :=
    CR.run (BucketShard.inc_operate completed (full ++ [(st, [])])) s in
  spawned_workers tr = map (BucketShard.inc_worker s) entries /\
  im_position (BucketShard.i_inc_marker s') =
    List.last (map bi_id entries) (im_position (BucketShard.i_inc_marker s)) /\
  (exists pre, tr = pre ++ [BucketShard.EvDrainAll]) /\
  Children.num_spawned (BucketShard.i_children s') = 0%nat /\
  ex = cr_done.
Proof.
  intros Hw Hfull Hst entries.
  unfold CR.run, BucketShard.inc_operate.
  unfold CR.bind at 1.
  destruct (inc_pages_run completed full st Hfull Hst (CR.init s) Hw)
    as (c' & Heq & Htr & Hsame & Hm).
  rewrite Heq. simpl in Htr, Hm.
  cr_unfold.
  rewrite spawned_workers_app, Htr. simpl. rewrite app_nil_r.
  split; [reflexivity |]. split; [exact Hm |]. split; [| split; reflexivity].
  eexists. reflexivity.
Qed.

Lemma bucket_inc_sync_dispatches_every_log_entry_witness :
  let s := BucketShard.new_inc "us-east" "b1" "inst-A" 0 (IncMarker "00000001.1") in
  let page := [BiLogEntry "00000002.1" "o1" "" 1000 (EntryVer 1 0) CLS_RGW_OP_ADD;
               BiLogEntry "00000003.1" "o2" "v7" 1001 (EntryVer (-1) 4) CLS_RGW_OP_DEL] in
  let entries := concat (map snd [(0, page)]) in
  let '(ex, tr, s') :=
    CR.run (BucketShard.inc_operate (fun _ => 1%nat) ([(0, page)] ++ [(0, [])])) s in
  spawned_workers tr = map (BucketShard.inc_worker s) entries /\
  im_position (BucketShard.i_inc_marker s') =
    List.last (map bi_id entries) "00000001.1" /\
  (exists pre, tr = pre ++ [BucketShard.EvDrainAll]) /\
  Children.num_spawned (BucketShard.i_children s') = 0%nat /\
  ex = cr_done.
Proof.
  intros s page.
  apply (bucket_inc_sync_dispatches_every_log_entry (fun _ => 1%nat) s [(0, page)] 0).
  - simpl. unfold BUCKET_SYNC_SPAWN_WINDOW. lia.
  - repeat constructor; simpl; [lia | discriminate].
  - lia.
Defined.

(** X30: when the first listing of bucket-shard incremental sync fails,
    the entries of the response are not used and the shard drains its
    workers before it ends: without error if the status is -ENOENT, with
    the status of the listing otherwise. *)
Theorem bucket_inc_sync_first_listing_failure
    (completed : nat -> nat) (s : BucketShard.RGWBucketShardIncrementalSyncCR)
    (st : Z) (result : list rgw_bi_log_entry)
    (rest : list (Z * list rgw_bi_log_entry)) :
  st < 0 ->
  BucketShard.i_list_result s = [] ->
  CR.run (BucketShard.inc_operate completed ((st, result) :: rest)) s =
    (if st =? - ENOENT then cr_done else cr_error st,
     [BucketShard.EvListBucketIndexLog
        (instance_key (BucketShard.i_bucket_name s) (BucketShard.i_bucket_id s)
                      (BucketShard.i_shard_id s))
        (im_position (BucketShard.i_inc_marker s));
      BucketShard.EvDrainAll],
     BucketShard.i_on_children Children.drain_all s).
Proof.
  intros Hst Hl. apply Z.ltb_lt in Hst.
  unfold CR.run, BucketShard.inc_operate. simpl BucketShard.inc_pages. cr_unfold.
  rewrite Hst. simpl. rewrite Hst. simpl.
  destruct (st =? - ENOENT); simpl; [| reflexivity].
  rewrite Hl. simpl. rewrite Hl. reflexivity.
Qed.

Lemma bucket_inc_sync_first_listing_failure_witness :
  let s := BucketShard.new_inc "us-east" "b1" "inst-A" 0 (IncMarker "00000001.1") in
  CR.run (BucketShard.inc_operate (fun _ => 1%nat) ((- ENOENT, []) :: [])) s =
    (cr_done,
     [BucketShard.EvListBucketIndexLog (instance_key "b1" "inst-A" 0) "00000001.1";
      BucketShard.EvDrainAll],
     BucketShard.i_on_children Children.drain_all s).
Proof.
  intros s.
  apply (bucket_inc_sync_first_listing_failure (fun _ => 1%nat) s (- ENOENT) [] []).
  - unfold ENOENT. lia.
  - reflexivity.
Defined.
